(** * tesla-cmd-api: the signed-command protocol of [src/Signer.js] and
      [src/CarServer.js], embedded in Rocq.

    The JavaScript classes are translated one by one.  Node's [crypto]
    module, the [elliptic] curve library and the protobuf schema (the
    [proto/*.proto] files) are interfaces of the embedding: the code only
    calls them, so they appear as type classes whose operations are left
    abstract.  JavaScript exceptions are values of [result]; numbers that the
    code uses as integers are in [Z]; buffers are lists of bytes. *)

From Stdlib Require Import ZArith List String Ascii Strings.Byte HexString.
From Stdlib Require Import Lia Bool Sorted DecimalString.
From stdpp Require Import base option list gmap.
From Equations Require Import Equations.
Import ListNotations.
Local Open Scope Z_scope.

(** ** Values shared by both source files *)

Notation bytes := (list byte).

(** An exception that the code, Node or a library throws. *)
Inductive exn : Type :=
| Error (message : string)
| RangeError (message : string)
| TypeError (message : string)
| ApiError (message : string)
| LibraryError (message : string).

Definition exn_message (e : exn) : string :=
  match e with
  | Error m | RangeError m | TypeError m | ApiError m | LibraryError m => m
  end.

(** The outcome of a call: a returned value or a thrown exception. *)
Inductive result (A : Type) : Type :=
| Ok (a : A)
| Throw (e : exn).
Arguments Ok {A} a.
Arguments Throw {A} e.

Definition bind {A B : Type} (r : result A) (k : A -> result B) : result B :=
  match r with
  | Ok a => k a
  | Throw e => Throw e
  end.

Declare Scope js_scope.
Delimit Scope js_scope with js.
Notation "'let*' x ':=' r 'in' k" := (bind r (fun x => k))
  (at level 10, x name, r at level 100, k at level 200) : js_scope.
Local Open Scope js_scope.

Definition returns {A : Type} (r : result A) : bool :=
  match r with Ok _ => true | Throw _ => false end.

(** [Buffer.from([n])]: one byte, the number reduced modulo 256. *)
Definition byte_of_Z (n : Z) : byte :=
  match Byte.of_N (Z.to_N (n mod 256)) with
  | Some b => b
  | None => x00
  end.

Definition Z_of_byte (b : byte) : Z := Z.of_N (Byte.to_N b).

(** [Buffer.from(s)] and [Buffer.from(s, 'utf8')]: a Rocq string is already a
    sequence of bytes, read here as the UTF-8 encoding of the text. *)
Definition Buffer_from_string (s : string) : bytes := list_byte_of_string s.

(** [buf.length] as a JavaScript number. *)
Definition blength (b : bytes) : Z := Z.of_nat (length b).

#[global] Instance byte_eq_dec : EqDecision byte.
Proof.
  intros a b. destruct (Byte.eqb a b) eqn:E.
  - left. now apply Byte.byte_dec_bl.
  - right. intros ->. now rewrite Byte.byte_dec_lb in E.
Defined.

Definition bytes_eqb (a b : bytes) : bool := bool_decide (a = b).

(** The four bytes of a 32-bit number, most significant first. *)
Definition uint32BE (n : Z) : bytes :=
  [byte_of_Z (Z.shiftr n 24); byte_of_Z (Z.shiftr n 16);
   byte_of_Z (Z.shiftr n 8); byte_of_Z n].

(** A number inside a template literal, or [String(n)]: its decimal digits. *)
Definition string_of_Z (n : Z) : string := NilZero.string_of_int (Z.to_int n).

(** The double quote character. *)
Definition dquote : string := String (ascii_of_nat 34) EmptyString.

(** Node's [addNumericalSeparator(val)], on the digits from last to first:
    an underscore goes before each group of three digits while at least
    four digits are left. *)
Fixpoint group3 (reversed : list ascii) : list ascii :=
  match reversed with
  | a :: b :: c :: ((_ :: _) as rest) => a :: b :: c :: "_"%char :: group3 rest
  | _ => reversed
  end.

Definition addNumericalSeparator (val : string) : string :=
  let separated s :=
    string_of_list_ascii (rev (group3 (rev (list_ascii_of_string s)))) in
  match val with
  | String "-" digits => String "-" (separated digits)
  | _ => separated val
  end.

(** Node's [ERR_OUT_OF_RANGE(str, range, input)] for an integer [input]: a
    RangeError whose message names the argument, the range and the value
    received, the value with separators when its magnitude is above 2^32. *)
Definition ERR_OUT_OF_RANGE (str range : string) (input : Z) : exn :=
  let received :=
    if 4294967296 <? Z.abs input
    then addNumericalSeparator (string_of_Z input)
    else string_of_Z input in
  RangeError ("The value of " ++ dquote ++ str ++ dquote ++ " is out of range." ++
              " It must be " ++ range ++ ". Received " ++ received)%string.

(** [Buffer.alloc(4)] followed by [buffer.writeUInt32BE(value)]: Node's
    [checkInt] throws [ERR_OUT_OF_RANGE] unless the value is in
    [0, 2^32 - 1]. *)
Definition writeUInt32BE (value : Z) : result bytes :=
  if (value <? 0) || (4294967295 <? value)
  then Throw (ERR_OUT_OF_RANGE "value" ">= 0 and <= 4294967295" value)
  else Ok (uint32BE value).

(** ** Node's [crypto] module, as far as the code calls it *)

Class NodeCrypto : Type := {
  (** HMAC-SHA256 of a message under a key: what [createHmac('sha256', key)]
      returns from [digest()] after the message was fed to [update]. *)
  hmac_sha256 : bytes -> bytes -> bytes;
  (** SHA-1 of a message: [createHash('sha1')], [update], [digest]. *)
  sha1 : bytes -> bytes
}.

(** A running [Hmac] object: its key and the bytes absorbed so far. *)
Record Hmac : Type := mkHmac { hkey : bytes; absorbed : bytes }.

Definition createHmac (key : bytes) : Hmac := mkHmac key [].

Definition update (h : Hmac) (data : bytes) : Hmac :=
  mkHmac (hkey h) (absorbed h ++ data).

Definition digest {crypto : NodeCrypto} (h : Hmac) : bytes :=
  hmac_sha256 (hkey h) (absorbed h).

(** [crypto.timingSafeEqual(a, b)]: throws a RangeError when the two buffers
    differ in length, else tells whether they hold the same bytes.  That it
    runs in constant time is a property of Node, outside this embedding. *)
Definition timingSafeEqual (a b : bytes) : result bool :=
  if negb (blength a =? blength b)
  then Throw (RangeError "Input buffers must have the same byte length")
  else Ok (bytes_eqb a b).

(** ** The protobuf schema, as far as the code reads it

    [proto/signatures.proto], [proto/universal_message.proto] and
    [proto/car_server.proto] are loaded at run time and are not part of the
    sources: the enum values looked up from them are fields of a class. *)

Class ProtoEnums : Type := {
  TAG_SIGNATURE_TYPE : Z;
  TAG_DOMAIN : Z;
  TAG_PERSONALIZATION : Z;
  TAG_EPOCH : Z;
  TAG_EXPIRES_AT : Z;
  TAG_COUNTER : Z;
  TAG_CHALLENGE : Z;
  SIGNATURE_TYPE_HMAC : Z;
  SIGNATURE_TYPE_HMAC_PERSONALIZED : Z;
  DOMAIN_INFOTAINMENT : Z;
  OPERATIONSTATUS_OK : Z;
  OPERATIONSTATUS_ERROR : Z
}.

(** The tags of one signature are declared in the order the code adds them. *)
Definition tags_ascending {enums : ProtoEnums} : Prop :=
  0 <= TAG_SIGNATURE_TYPE /\ TAG_SIGNATURE_TYPE <= TAG_DOMAIN /\
  TAG_DOMAIN <= TAG_PERSONALIZATION /\ TAG_PERSONALIZATION <= TAG_EPOCH /\
  TAG_EPOCH <= TAG_EXPIRES_AT /\ TAG_EXPIRES_AT <= TAG_COUNTER /\
  TAG_COUNTER <= TAG_CHALLENGE.

(** ** [src/Signer.js] *)

(** [const EPOCH_LENGTH = (1 << 30)]. *)
Definition EPOCH_LENGTH : Z := Z.shiftl 1 30.

(** *** [class Metadata] *)
Module Metadata.

Record t : Type := mk {
  context : Hmac;
  fields : gmap Z bool;
  last : Z
}.

(** [constructor(context)]. *)
Definition new (context : Hmac) : t := mk context ∅ 0.

(** [add(tag, value)]; a [null] value is [None].  Each throw precedes every
    assignment, so a call that throws leaves the object as it was. *)
Definition add (m : t) (tag : Z) (value : option bytes) : result t :=
  if tag <? last m
  then Throw (Error "metadata items need to be added in increasing tag order")
  else match value with
       | None => Ok m
       | Some v =>
           if 255 <? blength v
           then Throw (Error "metadata fields can't be more than 255 bytes long")
           else
             let c1 := update (context m) [byte_of_Z tag] in
             let c2 := update c1 [byte_of_Z (blength v)] in
             let c3 := update c2 v in
             Ok (mk c3 (<[tag := true]> (fields m)) tag)
       end.

(** [addUint32(tag, value)]. *)
Definition addUint32 (m : t) (tag : Z) (value : Z) : result t :=
  let* buffer := writeUInt32BE value in
  add m tag (Some buffer).

(** [checksum(message)]. *)
Definition checksum {crypto : NodeCrypto} (m : t) (message : bytes) : bytes :=
  let c1 := update (context m) [byte_of_Z 255] in
  let c2 := update c1 message in
  digest c2.

End Metadata.

(** *** The [elliptic] library, as far as the code calls it *)

Class Elliptic : Type := {
  KeyPair : Type;
  Point : Type;
  (** [ec.keyFromPrivate(priv)]. *)
  keyFromPrivate : bytes -> KeyPair;
  (** [ec.keyFromPublic(pub).getPublic()]: decodes a point, and throws when
      the bytes do not encode one. *)
  keyFromPublic : bytes -> result Point;
  (** [pair.derive(point)]: the x-coordinate of the shared point, a big
      number; throws when the point is rejected. *)
  derive : KeyPair -> Point -> result Z;
  (** [pair.getPublic()] of a private key pair: its public point.  The code
      never calls it; it says which public key belongs to a private key. *)
  getPublic : KeyPair -> Point
}.

(** The caller's key object, as [eckey.parsePem] returns it. *)
Record Key : Type := mkKey { privateKey : bytes; publicKey : bytes }.

(** [bn.toString(16)]: lower-case hexadecimal digits, no padding. *)
Definition BN_toString16 (n : Z) : string :=
  match n with
  | Z0 => "0"
  | Zpos p => HexString.Raw.of_pos p ""
  | Zneg p => String "-" (HexString.Raw.of_pos p "")
  end.

Definition hex_value (c : ascii) : option Z :=
  let n := Z.of_N (N_of_ascii c) in
  if (48 <=? n) && (n <=? 57) then Some (n - 48)
  else if (97 <=? n) && (n <=? 102) then Some (n - 87)
  else if (65 <=? n) && (n <=? 70) then Some (n - 55)
  else None.

(** [Buffer.from(s, 'hex')]: one byte for each pair of hexadecimal digits,
    up to the first pair that is not one; a last digit left alone is
    dropped. *)
Fixpoint Buffer_from_hex (s : string) : bytes :=
  match s with
  | String a (String b rest) =>
      match hex_value a, hex_value b with
      | Some h, Some l => byte_of_Z (16 * h + l) :: Buffer_from_hex rest
      | _, _ => []
      end
  | _ => []
  end.

(** *** [class AuthSession] *)
Module AuthSession.

Section WithLibraries.
Context {crypto : NodeCrypto} {curve : Elliptic}.

Record t : Type := mk { key : bytes; localPublic : bytes }.

(** [constructor(key, serverPublicKey)]. *)
Definition new (k : Key) (serverPublicKey : bytes) : result t :=
  let priv := keyFromPrivate (privateKey k) in
  let* pub := keyFromPublic serverPublicKey in
  let* sharedSecret := derive priv pub in
  let hash := sha1 (Buffer_from_hex (BN_toString16 sharedSecret)) in
  Ok (mk (firstn 16 hash) (publicKey k)).

(** [newHMAC(label)]. *)
Definition newHMAC (s : t) (label : string) : Hmac :=
  let kdf := update (createHmac (key s)) (Buffer_from_string label) in
  createHmac (digest kdf).

End WithLibraries.
End AuthSession.

(** The decoded [Signatures.SessionInfo] message; a field that is not on the
    wire reads as its protobuf default. *)
Module SessionInfo.
Record t : Type := mk {
  publicKey : bytes;
  clockTime : Z;
  epoch : bytes;
  counter : Z
}.
End SessionInfo.

(** The signature block that [generateSignature] returns. *)
Module SignatureData.
Record hmac_personalized : Type := mkHmacPersonalized {
  epoch : bytes;
  counter : Z;
  expiresAt : Z;
  tag : bytes
}.
Record t : Type := mk {
  signerIdentity_publicKey : bytes;
  HMAC_PersonalizedData : hmac_personalized
}.
End SignatureData.

(** *** [class Signer] *)
Module Signer.

Section WithLibraries.
Context {crypto : NodeCrypto} {curve : Elliptic} {enums : ProtoEnums}.

Record t : Type := mk {
  session : AuthSession.t;
  verifierName : string;
  timeZero : Z;
  epoch : bytes;
  counter : Z
}.

(** [Math.floor(Date.now() / 1000)], from the clock reading in
    milliseconds. *)
Definition seconds (nowMs : Z) : Z := nowMs / 1000.

(** [constructor(key, verifierName, verifierSessionInfo)]; [nowMs] is what
    [Date.now()] returns.  [Buffer.from(buffer, 0, 16)] copies the whole
    buffer: Node reads an offset and a length only next to an
    [ArrayBuffer]. *)
Definition new (k : Key) (verifierName : string)
    (verifierSessionInfo : SessionInfo.t) (nowMs : Z) : result t :=
  let* session := AuthSession.new k (SessionInfo.publicKey verifierSessionInfo) in
  Ok (mk session verifierName
         (seconds nowMs - SessionInfo.clockTime verifierSessionInfo)
         (SessionInfo.epoch verifierSessionInfo)
         (SessionInfo.counter verifierSessionInfo)).

(** [validateSessionInfo(encodedSessionInfo, challenge, tag)]. *)
Definition validateSessionInfo (s : t) (encodedSessionInfo challenge tag : bytes)
    : result bool :=
  let meta := Metadata.new (AuthSession.newHMAC (session s) "session info") in
  let* meta := Metadata.add meta TAG_SIGNATURE_TYPE
                 (Some [byte_of_Z SIGNATURE_TYPE_HMAC]) in
  let* meta := Metadata.add meta TAG_PERSONALIZATION
                 (Some (Buffer_from_string (verifierName s))) in
  let* meta := Metadata.add meta TAG_CHALLENGE (Some challenge) in
  let validTag := Metadata.checksum meta encodedSessionInfo in
  timingSafeEqual validTag tag.

(** [this.counter++], the first statement of [generateSignature]. *)
Definition bump (s : t) : t :=
  mk (session s) (verifierName s) (timeZero s) (epoch s) (counter s + 1).

(** The expiry computed on line 94. *)
Definition expiresAt (s : t) (expiresIn nowMs : Z) : Z :=
  seconds nowMs + expiresIn - timeZero s.

(** [generateSignature(encodedPayload, domain, expiresIn)]: the signer after
    the call, and what the call returned or threw. *)
Definition generateSignature (s : t) (encodedPayload : bytes)
    (domain expiresIn nowMs : Z) : t * result SignatureData.t :=
  let s := bump s in
  (s,
   let meta := Metadata.new (AuthSession.newHMAC (session s) "authenticated command") in
   let* meta := Metadata.add meta TAG_SIGNATURE_TYPE
                  (Some [byte_of_Z SIGNATURE_TYPE_HMAC_PERSONALIZED]) in
   let* meta := Metadata.add meta TAG_DOMAIN (Some [byte_of_Z domain]) in
   let* meta := Metadata.add meta TAG_PERSONALIZATION
                  (Some (Buffer_from_string (verifierName s))) in
   let expiresAt := expiresAt s expiresIn nowMs in
   if (expiresAt >? EPOCH_LENGTH) || (expiresAt <? 0)
   then Throw (Error "out of bounds expiration time")
   else
     let* meta := Metadata.add meta TAG_EPOCH (Some (epoch s)) in
     let* meta := Metadata.addUint32 meta TAG_EXPIRES_AT expiresAt in
     let* meta := Metadata.addUint32 meta TAG_COUNTER (counter s) in
     Ok (SignatureData.mk
           (AuthSession.localPublic (session s))
           (SignatureData.mkHmacPersonalized
              (epoch s) (counter s) expiresAt
              (Metadata.checksum meta encodedPayload)))).

End WithLibraries.
End Signer.

(** ** [src/CarServer.js] *)

(** A [Destination] of a routable message: only the fields that are set. *)
Record Destination : Type := mkDestination {
  domain : option Z;
  routingAddress : option bytes
}.

(** The object handed to [#sendRequest]. *)
Module Request.
Record t : Type := mk {
  toDestination : Destination;
  fromDestination : Destination;
  sessionInfoRequest : option bytes;
  protobufMessageAsBytes : option bytes;
  signatureData : option SignatureData.t;
  uuid : bytes;
  flags : option Z
}.
End Request.

(** The decoded response envelope.  protobufjs makes a field an own property
    of the decoded object exactly when it was on the wire, so
    [hasOwnProperty] is [Some]. *)
Module RoutableMessage.
Record session_info_tag : Type := mkTag { tag : option bytes }.
Record signature_data : Type := mkSignatureData {
  sessionInfoTag : option session_info_tag
}.
Record t : Type := mk {
  toDestination : option Destination;
  fromDestination : option Destination;
  requestUuid : option bytes;
  sessionInfo : option bytes;
  signatureData : option signature_data;
  protobufMessageAsBytes : option bytes
}.
End RoutableMessage.

(** The decoded [CarServer.Response]. *)
Module Response.
Record result_reason : Type := mkReason { plainText : option string }.
Record action_status : Type := mkStatus {
  result : option Z;
  resultReason : option result_reason
}.
Record t : Type := mk { actionStatus : option action_status }.
End Response.

(** The vehicle actions the client can ask for. *)
Inductive VehicleAction : Type :=
| chargingSetLimitAction (percent : Z).

(** The protobuf encoders and decoders the code calls. *)
Class ProtoCodec : Type := {
  (** [msgProto.encode(msgProto.create(req)).finish()]. *)
  encodeRoutable : Request.t -> bytes;
  (** [msgProto.decode(bufResp)]. *)
  decodeRoutable : bytes -> result RoutableMessage.t;
  (** [sessionInfoProto.decode(res.sessionInfo)]. *)
  decodeSessionInfo : bytes -> result SessionInfo.t;
  (** [carServerResponseProto.decode(res.protobufMessageAsBytes)]. *)
  decodeResponse : bytes -> result Response.t;
  (** [actionProto.encode(actionProto.create({ vehicleAction })).finish()]. *)
  encodeAction : VehicleAction -> bytes
}.

(** What [#sendRequest] returns: the session info or the response payload. *)
Inductive Reply : Type :=
| ReplySessionInfo (sessionInfo : SessionInfo.t)
| ReplyResponse (response : Response.t).

(** *** [class CarServer] *)
Module CarServer.

Section WithLibraries.
Context {crypto : NodeCrypto} {curve : Elliptic} {enums : ProtoEnums}
        {codec : ProtoCodec}.

(** The object's fields; [sent] stands for [api]: the calls of
    [api.signedCommand] made so far, oldest first. *)
Record t : Type := mk {
  sent : list (string * bytes);
  vin : string;
  privateKey : Key;
  signer : option Signer.t
}.

(** [constructor(fleetApi, vin, privateKey)]. *)
Definition new (vin : string) (privateKey : Key) : t := mk [] vin privateKey None.

Definition set_signer (cs : t) (sg : option Signer.t) : t :=
  mk (sent cs) (vin cs) (privateKey cs) sg.

(** [res.fromDestination.domain != req.toDestination.domain], where the
    left side is set. *)
Definition domain_differs (resDomain : Z) (reqDomain : option Z) : bool :=
  match reqDomain with
  | Some d => negb (resDomain =? d)
  | None => true
  end.

(** Lines 30 to 40: the checks on the decoded response [res].  They return
    the request identifier of the response. *)
Definition checkResponse (req : Request.t) (res : RoutableMessage.t) : result bytes :=
  match RoutableMessage.fromDestination res with
  | None => Throw (Error "Missing response source")
  | Some from =>
  match domain from with
  | None => Throw (Error "Invalid source domain")
  | Some d =>
  if domain_differs d (domain (Request.toDestination req))
  then Throw (Error "Invalid source domain")
  else
  match RoutableMessage.toDestination res with
  | None => Throw (Error "Missing response destination")
  | Some to =>
  match routingAddress to with
  | None => Throw (Error "Invalid destination address")
  | Some addr =>
  match routingAddress (Request.fromDestination req) with
  | None =>
      Throw (TypeError "The target argument must be an instance of Buffer or Uint8Array")
  | Some reqAddr =>
  if negb (bytes_eqb addr reqAddr)
  then Throw (Error "Invalid destination address")
  else
  match RoutableMessage.requestUuid res with
  | None => Throw (Error "Missing request UUID")
  | Some requestUuid => Ok requestUuid
  end end end end end end.

(** Lines 43 to 60: the session update or the response payload. *)
Definition interpret (cs : t) (res : RoutableMessage.t) (requestUuid : bytes)
    (nowMs : Z) : t * result Reply :=
  match RoutableMessage.sessionInfo res, RoutableMessage.signatureData res with
  | Some encodedSessionInfo, Some sd =>
      match mbind RoutableMessage.tag (RoutableMessage.sessionInfoTag sd) with
      | None => (cs, Throw (Error "Missing sessionInfo tag"))
      | Some tag =>
          match decodeSessionInfo encodedSessionInfo with
          | Throw e => (cs, Throw e)
          | Ok sessionInfo =>
              match Signer.new (privateKey cs) (vin cs) sessionInfo nowMs with
              | Throw e => (cs, Throw e)
              | Ok sg =>
                  let cs := set_signer cs (Some sg) in
                  match Signer.validateSessionInfo sg encodedSessionInfo
                          requestUuid tag with
                  | Throw e => (cs, Throw e)
                  | Ok false =>
                      (set_signer cs None, Throw (Error "Session info hmac invalid"))
                  | Ok true => (cs, Ok (ReplySessionInfo sessionInfo))
                  end
              end
          end
      end
  | _, _ =>
      match RoutableMessage.protobufMessageAsBytes res with
      | Some payload =>
          match decodeResponse payload with
          | Throw e => (cs, Throw e)
          | Ok response => (cs, Ok (ReplyResponse response))
          end
      | None => (cs, Throw (Error "Invalid response"))
      end
  end.

(** [#sendRequest(req)].  [reply] is what [api.signedCommand] returns or
    throws for this call, [nowMs] the clock when a Signer is built. *)
Definition sendRequest (cs : t) (req : Request.t) (reply : result bytes)
    (nowMs : Z) : t * result Reply :=
  let buffer := encodeRoutable req in
  let cs := mk (sent cs ++ [(vin cs, buffer)]) (vin cs) (privateKey cs) (signer cs) in
  match reply with
  | Throw e => (cs, Throw e)
  | Ok bufResp =>
      match decodeRoutable bufResp with
      | Throw e => (cs, Throw e)
      | Ok res =>
          match checkResponse req res with
          | Throw e => (cs, Throw e)
          | Ok requestUuid => interpret cs res requestUuid nowMs
          end
      end
  end.

(** [startSession()]; [address] and [uuid] are the two [randomBytes(16)]. *)
Definition startSession (cs : t) (address uuid : bytes) (reply : result bytes)
    (nowMs : Z) : t * result unit :=
  let '(cs, r) :=
    sendRequest cs
      (Request.mk (mkDestination (Some DOMAIN_INFOTAINMENT) None)
                  (mkDestination None (Some address))
                  (Some (publicKey (privateKey cs)))
                  None None uuid None)
      reply nowMs in
  (cs, let* _ := r in Ok tt).

(** [#decodeError(resultReason)]. *)
Definition decodeError (resultReason : Response.result_reason) : result string :=
  match Response.plainText resultReason with
  | Some text => Ok text
  | None => Throw (Error "Unknown result Reason")
  end.

(** Lines 90 to 102: what [#requestAction] does with the reply. *)
Definition checkStatus (response : Reply) : result unit :=
  match response with
  | ReplySessionInfo _ => Ok tt
  | ReplyResponse response =>
      match Response.actionStatus response with
      | None => Ok tt
      | Some status =>
          match Response.result status with
          | None => Ok tt
          | Some r =>
              if r =? OPERATIONSTATUS_OK then Ok tt
              else if r =? OPERATIONSTATUS_ERROR then
                match Response.resultReason status with
                | Some reason =>
                    let* text := decodeError reason in Throw (Error text)
                | None => Throw (Error "Unknown error")
                end
              else Throw (Error "Invalid CarServer action result")
          end
      end
  end.

(** [#requestAction(action)]; [nowSign] is the clock read by
    [generateSignature], [nowMs] the one read when the reply is handled. *)
Definition requestAction (cs : t) (action : VehicleAction) (address uuid : bytes)
    (reply : result bytes) (nowSign nowMs : Z) : t * result unit :=
  match signer cs with
  | None => (cs, Throw (Error "Session not started"))
  | Some sg =>
      let encodedPayload := encodeAction action in
      let '(sg, signature) :=
        Signer.generateSignature sg encodedPayload DOMAIN_INFOTAINMENT 5 nowSign in
      let cs := set_signer cs (Some sg) in
      match signature with
      | Throw e => (cs, Throw e)
      | Ok signature =>
          let '(cs, response) :=
            sendRequest cs
              (Request.mk (mkDestination (Some DOMAIN_INFOTAINMENT) None)
                          (mkDestination None (Some address))
                          None (Some encodedPayload) (Some signature) uuid (Some 0))
              reply nowMs in
          (cs, let* response := response in checkStatus response)
      end
  end.

(** [chargingSetLimit(percent)]. *)
Definition chargingSetLimit (cs : t) (percent : Z) (address uuid : bytes)
    (reply : result bytes) (nowSign nowMs : Z) : t * result unit :=
  requestAction cs (chargingSetLimitAction percent) address uuid reply nowSign nowMs.

End WithLibraries.
End CarServer.

(** ** Reference definitions used by the statements *)

(** *** Tagged checksums *)

(** The bytes of one metadata record: tag, length, value. *)
Definition entry_record (e : Z * bytes) : bytes :=
  [byte_of_Z e.1; byte_of_Z (blength e.2)] ++ e.2.

(** A run of [add] calls on one builder, one per entry, in list order. *)
Fixpoint addEntries (m : Metadata.t) (entries : list (Z * bytes)) : result Metadata.t :=
  match entries with
  | [] => Ok m
  | e :: rest => let* m := Metadata.add m e.1 (Some e.2) in addEntries m rest
  end.

(** The tagged checksum in the words of the specification: the HMAC, under
    the key derived from the session key and the label, of the records in
    order, the terminal tag 255 and the payload. *)
Definition spec_TaggedChecksum {crypto : NodeCrypto} (key : bytes) (label : string)
    (entries : list (Z * bytes)) (payload : bytes) : bytes :=
  hmac_sha256 (hmac_sha256 key (Buffer_from_string label))
              (concat (map entry_record entries) ++ [xff] ++ payload).

(** The entries and the checksum of a handshake, in the words of the
    specification. *)
Definition handshake_entries {enums : ProtoEnums} (name : string) (requestId : bytes)
    : list (Z * bytes) :=
  [(TAG_SIGNATURE_TYPE, [byte_of_Z SIGNATURE_TYPE_HMAC]);
   (TAG_PERSONALIZATION, Buffer_from_string name);
   (TAG_CHALLENGE, requestId)].

Definition spec_handshakeTag {crypto : NodeCrypto} {enums : ProtoEnums} (s : Signer.t)
    (encodedSessionInfo requestId : bytes) : bytes :=
  spec_TaggedChecksum (AuthSession.key (Signer.session s)) "session info"
    (handshake_entries (Signer.verifierName s) requestId) encodedSessionInfo.

(** The entries of a command signature, in the words of the specification. *)
Definition command_entries {enums : ProtoEnums} (s : Signer.t)
    (domain expiresAt counter : Z) : list (Z * bytes) :=
  [(TAG_SIGNATURE_TYPE, [byte_of_Z SIGNATURE_TYPE_HMAC_PERSONALIZED]);
   (TAG_DOMAIN, [byte_of_Z domain]);
   (TAG_PERSONALIZATION, Buffer_from_string (Signer.verifierName s));
   (TAG_EPOCH, Signer.epoch s);
   (TAG_EXPIRES_AT, uint32BE expiresAt);
   (TAG_COUNTER, uint32BE counter)].

(** *** Runs of a Signer *)

(** The inputs of one [generateSignature] call, with its clock reading. *)
Record Call : Type := mkCall {
  call_payload : bytes;
  call_domain : Z;
  call_expiresIn : Z;
  call_nowMs : Z
}.

(** Consecutive [generateSignature] calls on one Signer: after each call, the
    signer it left behind and what the call returned or threw. *)
Fixpoint generateSignatures {crypto : NodeCrypto} {enums : ProtoEnums} (s : Signer.t)
    (calls : list Call) : list (Signer.t * result SignatureData.t) :=
  match calls with
  | [] => []
  | c :: rest =>
      let r := Signer.generateSignature s (call_payload c) (call_domain c)
                 (call_expiresIn c) (call_nowMs c) in
      r :: generateSignatures r.1 rest
  end.

(** The inputs under which nothing but the expiry check can stop
    [generateSignature]: name and epoch fit a metadata field and the next
    counter fits 32 bits. *)
Definition signer_fits (s : Signer.t) : Prop :=
  blength (Buffer_from_string (Signer.verifierName s)) <= 255 /\
  blength (Signer.epoch s) <= 255 /\
  0 <= Signer.counter s + 1 <= 4294967295.

(** *** Requests and responses *)

(** The three provenance conditions of the specification on a response. *)
Definition source_domain_matches (req : Request.t) (res : RoutableMessage.t) : Prop :=
  exists from d, RoutableMessage.fromDestination res = Some from /\
    domain from = Some d /\ domain (Request.toDestination req) = Some d.

Definition destination_address_matches (req : Request.t) (res : RoutableMessage.t)
    : Prop :=
  exists to a, RoutableMessage.toDestination res = Some to /\
    routingAddress to = Some a /\
    routingAddress (Request.fromDestination req) = Some a.

Definition request_id_present (res : RoutableMessage.t) : Prop :=
  is_Some (RoutableMessage.requestUuid res).

(** The request envelopes that [startSession] and [#requestAction] build. *)
Definition handshakeRequest {enums : ProtoEnums} (k : Key) (address uuid : bytes)
    : Request.t :=
  Request.mk (mkDestination (Some DOMAIN_INFOTAINMENT) None)
             (mkDestination None (Some address))
             (Some (publicKey k)) None None uuid None.

Definition commandRequest {enums : ProtoEnums} (encodedPayload : bytes)
    (signature : SignatureData.t) (address uuid : bytes) : Request.t :=
  Request.mk (mkDestination (Some DOMAIN_INFOTAINMENT) None)
             (mkDestination None (Some address))
             None (Some encodedPayload) (Some signature) uuid (Some 0).

(** A request that differs only in the request identifier it carries. *)
Definition with_uuid (req : Request.t) (uuid : bytes) : Request.t :=
  Request.mk (Request.toDestination req) (Request.fromDestination req)
             (Request.sessionInfoRequest req) (Request.protobufMessageAsBytes req)
             (Request.signatureData req) uuid (Request.flags req).

(** [#sendRequest] reached line 48: the reply decoded, passed the checks at
    lines 30 to 40, carried session info and a tag, a Signer [sg] was built
    from it, and [validateSessionInfo] on that Signer gave [verdict]. *)
Definition handshake_validated {crypto : NodeCrypto} {curve : Elliptic}
    {enums : ProtoEnums} {codec : ProtoCodec} (cs : CarServer.t)
    (req : Request.t) (reply : result bytes) (nowMs : Z)
    (sg : Signer.t) (verdict : result bool) : Prop :=
  exists bufResp res requestUuid encodedSessionInfo sd tag sessionInfo,
    reply = Ok bufResp /\
    decodeRoutable bufResp = Ok res /\
    CarServer.checkResponse req res = Ok requestUuid /\
    RoutableMessage.sessionInfo res = Some encodedSessionInfo /\
    RoutableMessage.signatureData res = Some sd /\
    mbind RoutableMessage.tag (RoutableMessage.sessionInfoTag sd) = Some tag /\
    decodeSessionInfo encodedSessionInfo = Ok sessionInfo /\
    Signer.new (CarServer.privateKey cs) (CarServer.vin cs) sessionInfo nowMs = Ok sg /\
    Signer.validateSessionInfo sg encodedSessionInfo requestUuid tag = verdict.

(** [#requestAction] got an answer: a Signer was installed, it signed the
    encoded action, and [#sendRequest] returned [response] for the signed
    envelope, leaving the object as [cs']. *)
Definition command_answered {crypto : NodeCrypto} {curve : Elliptic}
    {enums : ProtoEnums} {codec : ProtoCodec} (cs : CarServer.t)
    (action : VehicleAction) (address uuid : bytes)
    (reply : result bytes) (nowSign nowMs : Z) (cs' : CarServer.t)
    (response : Reply) : Prop :=
  exists sg signature,
    CarServer.signer cs = Some sg /\
    (Signer.generateSignature sg (encodeAction action) DOMAIN_INFOTAINMENT 5 nowSign).2
      = Ok signature /\
    CarServer.sendRequest (CarServer.set_signer cs (Some (Signer.bump sg)))
      (commandRequest (encodeAction action) signature address uuid) reply nowMs
      = (cs', Ok response).

(** *** Key agreement *)

(** Key pairs and the Diffie-Hellman law of the curve library. *)
Definition valid_pair {curve : Elliptic} (k : Key) : Prop :=
  keyFromPublic (publicKey k) = Ok (getPublic (keyFromPrivate (privateKey k))).

Definition ecdh_symmetric {curve : Elliptic} : Prop :=
  forall a b : KeyPair, derive a (getPublic b) = derive b (getPublic a).

(** The session key that [new AuthSession(key, serverPublicKey)] stores. *)
Definition sessionKey {crypto : NodeCrypto} {curve : Elliptic} (k : Key)
    (serverPublicKey : bytes) : result bytes :=
  let* s := AuthSession.new k serverPublicKey in Ok (AuthSession.key s).

(** The number a buffer holds, most significant byte first. *)
Definition be_value (acc : Z) (b : bytes) : Z :=
  fold_left (fun a x => a * 256 + Z_of_byte x) b acc.

(** The number a string of hexadecimal digits denotes, continuing from
    [acc]; [None] when a character is not a digit. *)
Fixpoint hex_string_value (acc : Z) (s : string) : option Z :=
  match s with
  | EmptyString => Some acc
  | String c rest =>
      match hex_value c with
      | Some d => hex_string_value (16 * acc + d) rest
      | None => None
      end
  end.

(** The digits of [p] written after those of [acc]. *)
Definition hex_app (acc : Z) (p : positive) : Z :=
  match acc with
  | Zpos v => Zpos (pos_hex_app v p)
  | _ => Zpos p
  end.

(** ** Instances for the examples

    Small stand-ins on which the definitions can be run.  The enum values are
    those of the vehicle-command schema; the hash, the curve and the codec
    are toys, not the real algorithms. *)

Definition schemaEnums : ProtoEnums := {|
  TAG_SIGNATURE_TYPE := 0;
  TAG_DOMAIN := 1;
  TAG_PERSONALIZATION := 2;
  TAG_EPOCH := 3;
  TAG_EXPIRES_AT := 4;
  TAG_COUNTER := 5;
  TAG_CHALLENGE := 6;
  SIGNATURE_TYPE_HMAC := 6;
  SIGNATURE_TYPE_HMAC_PERSONALIZED := 8;
  DOMAIN_INFOTAINMENT := 3;
  OPERATIONSTATUS_OK := 0;
  OPERATIONSTATUS_ERROR := 1
|}.

Definition exampleCrypto : NodeCrypto := {|
  hmac_sha256 k m := firstn 32 (k ++ m ++ repeat x00 32);
  sha1 m := firstn 20 (m ++ repeat x00 20)
|}.

(** The additive group of integers modulo 251 in place of the curve: a key
    pair is a scalar, its public point the scalar times the generator 1. *)
Definition exampleCurve : Elliptic := {|
  KeyPair := Z;
  Point := Z;
  keyFromPrivate b := match b with [p] => Z_of_byte p | _ => 0 end;
  keyFromPublic b :=
    match b with
    | [p] => Ok (Z_of_byte p)
    | _ => Throw (LibraryError "Unknown point format")
    end;
  derive k P := Ok ((k * P) mod 251);
  getPublic k := k mod 251
|}.

(** The multiplicative structure of the integers in place of the curve,
    with keys of any length read most significant byte first: a shared
    secret can have as many digits as an x-coordinate of the real curve. *)
Definition wideCurve : Elliptic := {|
  KeyPair := Z;
  Point := Z;
  keyFromPrivate b := be_value 0 b;
  keyFromPublic b := Ok (be_value 0 b);
  derive k P := Ok (k * P);
  getPublic k := k
|}.

(** Two key pairs on it whose shared secret is 2^251: 63 hexadecimal
    digits, the first of the 64 digits of a 256-bit number being zero. *)
Definition wideKey : Key := mkKey (x01 :: repeat x00 31) (x01 :: repeat x00 31).
Definition widePeer : Key := mkKey [x08] [x08].

(** A codec that decodes every buffer to the given messages. *)
Definition exampleCodec (res : RoutableMessage.t) (si : SessionInfo.t)
    (resp : Response.t) : ProtoCodec := {|
  encodeRoutable _ := [];
  decodeRoutable _ := Ok res;
  decodeSessionInfo _ := Ok si;
  decodeResponse _ := Ok resp;
  encodeAction a := match a with chargingSetLimitAction p => [byte_of_Z p] end
|}.

Definition exampleSession : AuthSession.t := AuthSession.mk [x01; x02] [x04].

Definition exampleSigner : Signer.t :=
  Signer.mk exampleSession "5YJ3E1EA7KF000000" 0 [xaa; xbb] 7.

(** Example values: two key pairs on the toy curve, a vehicle, a handshake
    response from domain [d] whose tag is all zeroes, a command response, and
    codecs that decode to them. *)
Definition exampleKey : Key := mkKey [x03] [x03].
Definition peerKey : Key := mkKey [x05] [x05].
Definition exampleVin : string := "5YJ3E1EA7KF000000".
Definition exampleAddress : bytes := [x10; x11].
Definition exampleUuid : bytes := [x20; x21].
Definition zeroTag : bytes := repeat x00 32.

Definition exampleSessionInfo : SessionInfo.t :=
  SessionInfo.mk (publicKey peerKey) 100 [xaa; xbb] 7.

Definition handshakeResponse (d : Z) : RoutableMessage.t :=
  RoutableMessage.mk
    (Some (mkDestination None (Some exampleAddress)))
    (Some (mkDestination (Some d) None))
    (Some exampleUuid)
    (Some [x01])
    (Some (RoutableMessage.mkSignatureData
             (Some (RoutableMessage.mkTag (Some zeroTag)))))
    None.

Definition commandResponse : RoutableMessage.t :=
  RoutableMessage.mk
    (Some (mkDestination None (Some exampleAddress)))
    (Some (mkDestination (Some 3) None))
    (Some exampleUuid)
    None None (Some [x00]).

Definition handshakeCodec (d : Z) : ProtoCodec :=
  exampleCodec (handshakeResponse d) exampleSessionInfo (Response.mk None).

Definition commandCodec (resp : Response.t) : ProtoCodec :=
  exampleCodec commandResponse exampleSessionInfo resp.

Definition freshServer : CarServer.t := CarServer.mk [] exampleVin exampleKey None.

Definition establishedServer : CarServer.t :=
  CarServer.mk [] exampleVin exampleKey (Some exampleSigner).

Definition errorResponse : Response.t :=
  Response.mk (Some (Response.mkStatus (Some 1)
    (Some (Response.mkReason (Some "precondition_failed"%string))))).

Definition exampleCalls : list Call :=
  [mkCall [x01] 3 5 1000000; mkCall [x02] 3 (-5) 0; mkCall [x03] 3 5 2000000].


(** The Signer that the example handshake builds, and a handshake response
    that carries the tag this Signer expects. *)
Definition handshakeSigner : Signer.t :=
  Signer.mk
    (AuthSession.mk (firstn 16 (@sha1 exampleCrypto [])) (publicKey exampleKey))
    exampleVin (0 - 100) [xaa; xbb] 7.

Definition validTag : bytes :=
  spec_handshakeTag (crypto := exampleCrypto) (enums := schemaEnums)
    handshakeSigner [x01] exampleUuid.

Definition validHandshakeResponse : RoutableMessage.t :=
  RoutableMessage.mk
    (Some (mkDestination None (Some exampleAddress)))
    (Some (mkDestination (Some 3) None))
    (Some exampleUuid)
    (Some [x01])
    (Some (RoutableMessage.mkSignatureData
             (Some (RoutableMessage.mkTag (Some validTag)))))
    None.

Definition okResponse : Response.t :=
  Response.mk (Some (Response.mkStatus (Some 0) None)).

(** A handshake response whose tag is one byte long, and a codec that
    decodes the empty buffer to it and every other buffer to the command
    response with status OK. *)
Definition shortTagResponse : RoutableMessage.t :=
  RoutableMessage.mk
    (Some (mkDestination None (Some exampleAddress)))
    (Some (mkDestination (Some 3) None))
    (Some exampleUuid)
    (Some [x01])
    (Some (RoutableMessage.mkSignatureData
             (Some (RoutableMessage.mkTag (Some [x00])))))
    None.

Definition shortTagCodec : ProtoCodec := {|
  encodeRoutable _ := [];
  decodeRoutable b := match b with
                      | [] => Ok shortTagResponse
                      | _ => Ok commandResponse
                      end;
  decodeSessionInfo _ := Ok exampleSessionInfo;
  decodeResponse _ := Ok okResponse;
  encodeAction a := match a with chargingSetLimitAction p => [byte_of_Z p] end
|}.

(** ** [src/FleetApi.js] *)

(** *** JavaScript strings, as far as the code uses them *)

(** [s.startsWith(p)]. *)
Definition startsWith (s p : string) : bool := String.prefix p s.

(** [s.endsWith(p)]. *)
Definition endsWith (s p : string) : bool :=
  let n := String.length s in
  let m := String.length p in
  (m <=? n)%nat && String.eqb (substring (n - m) m s) p.

(** [s.slice(n)] for a position [n] inside the string. *)
Definition slice (n : nat) (s : string) : string :=
  substring n (String.length s - n) s.

(** [s.slice(0, -1)]: the string without its last character. *)
Definition slice_last (s : string) : string :=
  substring 0 (String.length s - 1) s.

(** [s.includes(sub)]. *)
Definition includes (s sub : string) : bool :=
  match String.index 0 sub s with
  | Some _ => true
  | None => false
  end.

(** [s.split('.')]. *)
Fixpoint split_dot (s : string) : list string :=
  match s with
  | EmptyString => [EmptyString]
  | String c rest =>
      if Ascii.eqb c "."
      then EmptyString :: split_dot rest
      else match split_dot rest with
           | part :: parts => String c part :: parts
           | [] => [String c EmptyString]
           end
  end.

(** A character of the class [A-Za-z0-9-.]. *)
Definition host_char (c : ascii) : bool :=
  let n := N_of_ascii c in
  ((65 <=? n) && (n <=? 90) || (97 <=? n) && (n <=? 122) ||
   (48 <=? n) && (n <=? 57) || (n =? 45) || (n =? 46))%N.

(** [/^[A-Za-z0-9-.]+$/.test(s)]. *)
Definition host_chars (s : string) : bool :=
  negb (String.eqb s EmptyString) && forallb host_char (list_ascii_of_string s).

(** The library calls whose results the code passes on: [JSON.parse] of the
    base64-decoded token payload, [toLowerCase], and the two base64
    conversions of [Buffer]. *)
Record TokenInfo : Type := mkTokenInfo {
  aud : option (list string);
  ou_code : option string
}.

Class JsRuntime : Type := {
  (** [JSON.parse(Buffer.from(part, "base64"))]; throws on bad JSON. *)
  parseTokenPayload : string -> result TokenInfo;
  (** [s.toLowerCase()]. *)
  toLowerCase : string -> string;
  (** [buffer.toString('base64')]. *)
  toBase64 : bytes -> string;
  (** [Buffer.from(s, 'base64')]. *)
  fromBase64 : string -> bytes
}.

(** *** [class ApiError] *)
Module ApiError.

Definition UNKNOWN : string := "Unknown".
Definition UNAUTHORIZED : string := "Unauthorized".
Definition NO_VEHICLE : string := "Vehicle not found".
Definition IN_SERVICE : string := "Vehicle in service".
Definition UNAVAILABLE : string := "Vehicle unavailable".
Definition TIMEOUT : string := "Timeout".
Definition NETWORK : string := "Network unavailable".
Definition SERVER : string := "Internal server error".
Definition FORBIDDEN : string := "Forbidden".

Record t : Type := mk { message : string; reason : string }.

(** [constructor(error, reason = null)] for an [error] that is a string, as
    at every call in the file; [reason || ApiError.UNKNOWN] takes the
    default for [null] and for the empty string. *)
Definition new (error : string) (reason : option string) : t :=
  mk error
     match reason with
     | Some r => if String.eqb r EmptyString then UNKNOWN else r
     | None => UNKNOWN
     end.

(** [static fromStatus(statusCode)]. *)
Definition fromStatus (statusCode : Z) : string :=
  if statusCode =? 401 then UNAUTHORIZED
  else if statusCode =? 403 then FORBIDDEN
  else if statusCode =? 404 then NO_VEHICLE
  else if statusCode =? 405 then IN_SERVICE
  else if statusCode =? 406 then NETWORK
  else if statusCode =? 408 then UNAVAILABLE
  else if statusCode =? 500 then SERVER
  else if statusCode =? 502 then NETWORK
  else if statusCode =? 503 then NETWORK
  else if statusCode =? 504 then TIMEOUT
  else if statusCode =? 540 then UNAVAILABLE
  else UNKNOWN.

End ApiError.

(** *** [function getHostFromToken] *)

Definition defaultHost : string := "fleet-api.prd.na.vn.cloud.tesla.com".

(** The body of the [for] loop, lines 45 to 49: the host an audience URL
    stands for, or [None] where the loop says [continue]. *)
Definition audienceHost (url : string) : option string :=
  if startsWith url "https://auth.tesla." then None
  else
    let url := if startsWith url "https://" then slice 8 url else url in
    let url := if endsWith url "/" then slice_last url else url in
    if negb (host_chars url) || negb (startsWith url "fleet-api.") then None
    else if negb (endsWith url ".tesla.com") && negb (endsWith url ".tesla.cn")
            && negb (endsWith url ".teslamotors.com") then None
    else Some url.

Section WithRuntime.
Context {runtime : JsRuntime}.

(** The [for] loop over [info.aud], lines 44 to 52, with [host] its
    variable. *)
Fixpoint hostLoop (ou_code : option string) (host : string) (aud : list string)
    : result string :=
  match aud with
  | [] => Ok host
  | url :: rest =>
      match audienceHost url with
      | None => hostLoop ou_code host rest
      | Some host =>
          match ou_code with
          | None =>
              Throw (TypeError
                "Cannot read properties of undefined (reading 'toLowerCase')")
          | Some code =>
              if includes host ("." ++ toLowerCase code ++ ".")
              then Ok host
              else hostLoop ou_code host rest
          end
      end
  end.

(** [getHostFromToken(accesToken)]. *)
Definition getHostFromToken (accesToken : string) : result string :=
  let parts := split_dot accesToken in
  if negb (length parts =? 3)%nat
  then Throw (Error "Invalid OAuth access token")
  else
    let* info := parseTokenPayload (nth 1 parts EmptyString) in
    match aud info with
    | None => Throw (TypeError "info.aud is not iterable")
    | Some aud => hostLoop (ou_code info) defaultHost aud
    end.

End WithRuntime.

(** *** [axios], as far as the code sees it *)

(** A value of a reply that has properties: the properties the code reads,
    each with the text it holds, [None] where the value does not have the
    property. *)
Record Json : Type := mkJson {
  json_access_token : option string;
  json_refresh_token : option string;
  json_response : option string;
  json_error : option string
}.

(** What [resp.data] or [e.response.data] is once the body has been parsed:
    [null] (the JSON text null), [undefined], or a value whose properties
    can be read. *)
Inductive Data : Type :=
| JsNull
| JsUndefined
| JsValue (o : Json).

(** The TypeError of reading a property of [null] or [undefined]. *)
Definition cannot_read (d : Data) (property : string) : exn :=
  TypeError ("Cannot read properties of " ++
             match d with JsUndefined => "undefined" | _ => "null" end ++
             " (reading '" ++ property ++ "')").

(** How one [axios] call ends: it resolves with [resp.data]; or it rejects
    with an [AxiosError] that has a [response], whose [data] is [None] when
    the response has no such property; or it rejects with an error that has
    no response, of which the code reads [message] and [code]. *)
Inductive AxiosOutcome : Type :=
| Resolved (data : Data)
| RejectedResponse (status : Z) (statusText : string) (data : option Data)
| Rejected (message : string) (code : option string).

Inductive Method : Type := GET | POST.

(** What was handed to [axios]: a token request, or an API request with the
    token that follows [Bearer] in its Authorization header. *)
Inductive NetCall : Type :=
| PostToken (client_id : string) (refresh_token : option string) (timeout : Z)
| Request (method : Method) (url : string) (bearer : option string) (timeout : Z)
    (routable_message : option string).

(** The network: how the [n]-th call made through [axios] ends. *)
Definition Network : Type := nat -> AxiosOutcome.

(** What a method of [FleetApi] throws: an [ApiError] or another error. *)
Inductive thrown : Type :=
| ThrownApiError (e : ApiError.t)
| ThrownError (e : exn).

Inductive outcome (A : Type) : Type :=
| Returned (a : A)
| Thrown (e : thrown).
Arguments Returned {A} a.
Arguments Thrown {A} e.

Definition thrown_message (e : thrown) : string :=
  match e with
  | ThrownApiError e => ApiError.message e
  | ThrownError e => exn_message e
  end.

(** [error.message += suffix]. *)
Definition append_message (e : thrown) (suffix : string) : thrown :=
  match e with
  | ThrownApiError e =>
      ThrownApiError (ApiError.mk (ApiError.message e ++ suffix) (ApiError.reason e))
  | ThrownError (Error m) => ThrownError (Error (m ++ suffix))
  | ThrownError (RangeError m) => ThrownError (RangeError (m ++ suffix))
  | ThrownError (TypeError m) => ThrownError (TypeError (m ++ suffix))
  | ThrownError (ApiError m) => ThrownError (ApiError (m ++ suffix))
  | ThrownError (LibraryError m) => ThrownError (LibraryError (m ++ suffix))
  end.

(** [e.code] inside a string: the text [undefined] when there is none. *)
Definition code_text (code : option string) : string :=
  match code with
  | Some c => c
  | None => "undefined"
  end.

(** *** [class FleetApi] *)
Module FleetApi.

(** The fields of the object, and after them what the object has done so
    far: the calls made through [axios], the calls of the refresh callback
    and the milliseconds spent waiting. *)
Record t : Type := mk {
  client_id : string;
  access_token : option string;
  refresh_token : option string;
  timeout : Z;
  baseApi : string;
  cb_refreshToken : option (option string -> option string -> result unit);
  calls : list NetCall;
  notified : list (option string * option string);
  slept : Z
}.

Definition called (api : t) (c : NetCall) : t :=
  mk (client_id api) (access_token api) (refresh_token api) (timeout api)
     (baseApi api) (cb_refreshToken api) (calls api ++ [c]) (notified api)
     (slept api).

Definition set_tokens (api : t) (access refresh : option string) : t :=
  mk (client_id api) access refresh (timeout api) (baseApi api)
     (cb_refreshToken api) (calls api) (notified api) (slept api).

Definition notify (api : t) (access refresh : option string) : t :=
  mk (client_id api) (access_token api) (refresh_token api) (timeout api)
     (baseApi api) (cb_refreshToken api) (calls api)
     (notified api ++ [(access, refresh)]) (slept api).

Definition sleep (api : t) (ms : Z) : t :=
  mk (client_id api) (access_token api) (refresh_token api) (timeout api)
     (baseApi api) (cb_refreshToken api) (calls api) (notified api)
     (slept api + ms).

Section WithRuntime.
Context {runtime : JsRuntime}.

(** [constructor(client_id, access_token = null, refresh_token = null)];
    without an access token [null.split] throws. *)
Definition new (client_id : string) (access_token refresh_token : option string)
    : result t :=
  match access_token with
  | None => Throw (TypeError "Cannot read properties of null (reading 'split')")
  | Some token =>
      let* host := getHostFromToken token in
      Ok (mk client_id access_token refresh_token 10000
             ("https://" ++ host ++ "/api/1") None [] [] 0)
  end.

(** [setTimeout(seconds)]. *)
Definition setTimeout (api : t) (seconds : Z) : t :=
  mk (client_id api) (access_token api) (refresh_token api) (seconds * 1000)
     (baseApi api) (cb_refreshToken api) (calls api) (notified api) (slept api).


(** [#oauthCall(params)] with the [params] of [refreshToken]. *)
Definition oauthCall (net : Network) (api : t) (refresh_token : option string)
    : t * outcome Data :=
  let reply := net (length (calls api)) in
  let api := called api (PostToken (client_id api) refresh_token (timeout api)) in
  (api,
   match reply with
   | Resolved data => Returned data
   | RejectedResponse status statusText _ =>
       Thrown (ThrownApiError
         (ApiError.new (statusText ++ " (" ++ string_of_Z status ++ ")")
                       (Some (ApiError.fromStatus status))))
   | Rejected message code =>
       Thrown (ThrownApiError
         (ApiError.new (message ++ " (" ++ code_text code ++ ")")
                       (Some ApiError.NETWORK)))
   end).

(** The [try] block of [refreshToken], lines 94 to 105.  Line 100 reads
    [oauth.refresh_token] before anything is assigned: for a reply that is
    [null] or [undefined] it throws, inside the [try], with both tokens
    still in place. *)
Definition refreshAttempt (net : Network) (api : t) (refresh_token : option string)
    : t * outcome Data :=
  let '(api, r) := oauthCall net api refresh_token in
  match r with
  | Thrown e => (api, Thrown e)
  | Returned (JsValue o as oauth) =>
      let api := set_tokens api (json_access_token o) (json_refresh_token o) in
      match cb_refreshToken api with
      | None => (api, Returned oauth)
      | Some callback =>
          let api := notify api (access_token api) (FleetApi.refresh_token api) in
          match callback (access_token api) (FleetApi.refresh_token api) with
          | Ok _ => (api, Returned oauth)
          | Throw e => (api, Thrown (ThrownError e))
          end
      end
  | Returned oauth => (api, Thrown (ThrownError (cannot_read oauth "refresh_token")))
  end.

(** [refreshToken(refresh_token, retry = 1)]. *)
Equations? refreshToken (net : Network) (api : t) (refresh_token : option string)
    (retry : nat) : t * outcome Data by wf (3 - retry)%nat lt :=
  refreshToken net api refresh_token retry with refreshAttempt net api refresh_token := {
    | (api1, Returned oauth) => (api1, Returned oauth);
    | (api1, Thrown error) with lt_dec retry 3 := {
        | left _ => refreshToken net (sleep api1 500) refresh_token (retry + 1);
        | right _ => (api1, Thrown (append_message error " - Unable to refresh Token")) } }.
Proof. lia. Qed.

(** The [error] of lines 139 and 140: the [error] property of the response
    data when there is one, else the status text. *)
Definition errorText (statusText : string) (data : option Data) : result string :=
  match data with
  | None => Ok statusText
  | Some (JsValue o) =>
      Ok match json_error o with
         | Some e => e
         | None => statusText
         end
  | Some d => Throw (cannot_read d "hasOwnProperty")
  end.

(** [#apiCall(path, method, params)].  The method calls itself again after
    each refreshed 401 and the source sets no bound on that: [fuel] is the
    number of API requests the run may make, and [None] means that they
    were all used up.  On line 139 [e.response.data.hasOwnProperty] throws
    when the response has a [data] that is [null] or [undefined]. *)
Fixpoint apiCall (fuel : nat) (net : Network) (api : t) (path : string)
    (method : Method) (params : option string) : option (t * outcome Data) :=
  match fuel with
  | O => None
  | S fuel =>
      let reply := net (length (calls api)) in
      let api := called api (Request method (baseApi api ++ path) (access_token api)
                               (timeout api) params) in
      match reply with
      | Resolved data => Some (api, Returned data)
      | RejectedResponse status statusText data =>
          if (status =? 401) && bool_decide (is_Some (refresh_token api))
          then
            match refreshToken net api (refresh_token api) 1 with
            | (api, Thrown e) => Some (api, Thrown e)
            | (api, Returned _) => apiCall fuel net api path method params
            end
          else
            match errorText statusText data with
            | Throw e => Some (api, Thrown (ThrownError e))
            | Ok error =>
                Some (api, Thrown (ThrownApiError
                  (ApiError.new (error ++ " (" ++ string_of_Z status ++ ")")
                                (Some (ApiError.fromStatus status)))))
            end
      | Rejected message code =>
          Some (api, Thrown (ThrownApiError
            (ApiError.new (message ++ " (" ++ code_text code ++ ")")
                          (Some ApiError.NETWORK))))
      end
  end.

(** [getVehicles()]. *)
Definition getVehicles (fuel : nat) (net : Network) (api : t)
    : option (t * outcome Data) :=
  apiCall fuel net api "/vehicles" GET None.

(** [getVehicle(vehicle_tag)]. *)
Definition getVehicle (fuel : nat) (net : Network) (api : t) (vehicle_tag : string)
    : option (t * outcome Data) :=
  apiCall fuel net api ("/vehicles/" ++ vehicle_tag) GET None.

(** The path that [getVehicleData] builds. *)
Definition vehicleDataPath (vehicle_tag : string) (endpoints : list string) : string :=
  let path := ("/vehicles/" ++ vehicle_tag ++ "/vehicle_data")%string in
  if (0 <? length endpoints)%nat
  then (path ++ "?endpoints=" ++ String.concat "%3B" endpoints)%string
  else path.

(** [getVehicleData(vehicle_tag, endpoints = [])]. *)
Definition getVehicleData (fuel : nat) (net : Network) (api : t)
    (vehicle_tag : string) (endpoints : list string) : option (t * outcome Data) :=
  apiCall fuel net api (vehicleDataPath vehicle_tag endpoints) GET None.

(** [signedCommand(vin, byteBuffer)]; on line 173 [resp.hasOwnProperty]
    throws for a reply that is [null] or [undefined]. *)
Definition signedCommand (fuel : nat) (net : Network) (api : t) (vin : string)
    (byteBuffer : bytes) : option (t * outcome bytes) :=
  match apiCall fuel net api ("/vehicles/" ++ vin ++ "/signed_command") POST
          (Some (toBase64 byteBuffer)) with
  | None => None
  | Some (api, Thrown e) => Some (api, Thrown e)
  | Some (api, Returned (JsValue o)) =>
      match json_response o with
      | None => Some (api, Thrown (ThrownApiError (ApiError.new "Invalid response" None)))
      | Some response => Some (api, Returned (fromBase64 response))
      end
  | Some (api, Returned resp) =>
      Some (api, Thrown (ThrownError (cannot_read resp "hasOwnProperty")))
  end.

End WithRuntime.
End FleetApi.

(** *** Reference definitions for [FleetApi] *)

(** The number of dots in a string. *)
Definition dots (s : string) : nat :=
  count_occ ascii_dec (list_ascii_of_string s) "."%char.

(** The checks that line 48 and line 49 make on a host name. *)
Definition host_checked (h : string) : Prop :=
  host_chars h = true /\ startsWith h "fleet-api." = true /\
  (endsWith h ".tesla.com" = true \/ endsWith h ".tesla.cn" = true \/
   endsWith h ".teslamotors.com" = true).

(** The host the loop picks, said without the loop: among the hosts that
    the audience URLs stand for, the first one that names the region, else
    the last one, else the host from before. *)
Definition pickedHost {runtime : JsRuntime} (code : string) (host : string)
    (aud : list string) : string :=
  let hosts := omap audienceHost aud in
  match find (fun h => includes h ("." ++ toLowerCase code ++ ".")) hosts with
  | Some h => h
  | None => List.last hosts host
  end.

(** An [axios] call that did not resolve. *)
Definition is_rejected (o : AxiosOutcome) : bool :=
  match o with
  | Resolved _ => false
  | _ => true
  end.

(** A token request after which the [try] block of [refreshToken] has
    thrown before line 100 assigned anything: the request was rejected, or
    it resolved with [null] or [undefined]. *)
Definition attempt_fails (o : AxiosOutcome) : bool :=
  match o with
  | Resolved (JsValue _) => false
  | _ => true
  end.

(** What the [try] block has thrown then: the [ApiError] of [#oauthCall],
    or the TypeError of line 100. *)
Definition attempt_error (o : AxiosOutcome) : thrown :=
  match o with
  | Resolved d => ThrownError (cannot_read d "refresh_token")
  | RejectedResponse status statusText _ =>
      ThrownApiError
        (ApiError.mk (statusText ++ " (" ++ string_of_Z status ++ ")")
                     (ApiError.fromStatus status))
  | Rejected message code =>
      ThrownApiError
        (ApiError.mk (message ++ " (" ++ code_text code ++ ")") ApiError.NETWORK)
  end.

(** *** Example values for [FleetApi] *)

(** Lower case for the letters A to Z, standing in for [toLowerCase]. *)
Definition ascii_lower (c : ascii) : ascii :=
  let n := N_of_ascii c in
  if ((65 <=? n) && (n <=? 90))%N then ascii_of_N (n + 32) else c.

Definition exampleAudience : list string :=
  ["https://auth.tesla.com/oauth2/v3/userinfo";
   "https://fleet-api.prd.na.vn.cloud.tesla.com";
   "https://fleet-api.prd.eu.vn.cloud.tesla.com/";
   "https://fleet-api.prd.cn.vn.cloud.tesla.cn";
   "https://fleet-api.evil.example.org"]%string.

(** A runtime that decodes every payload to the example audience list with
    region code EU, and writes bytes as characters for base64. *)
Definition exampleRuntime : JsRuntime := {|
  parseTokenPayload _ := Ok (mkTokenInfo (Some exampleAudience) (Some "EU"%string));
  toLowerCase s := string_of_list_ascii (map ascii_lower (list_ascii_of_string s));
  toBase64 b := string_of_list_byte b;
  fromBase64 s := list_byte_of_string s
|}.

Definition exampleApi : FleetApi.t :=
  FleetApi.mk "client" (Some "old-access"%string) (Some "old-refresh"%string) 10000
    "https://fleet-api.prd.eu.vn.cloud.tesla.com/api/1" None [] [] 0.

Definition newTokens : Json :=
  mkJson (Some "new-access"%string) (Some "new-refresh"%string) None None.

Definition commandReply : Json :=
  mkJson None None (Some "reply"%string) None.

(** A network whose first calls end as listed and all later ones as [d]. *)
Definition scripted (l : list AxiosOutcome) (d : AxiosOutcome) : Network :=
  fun n => nth n l d.

(** A server that answers 401 to every API request and new tokens to every
    token request. *)
Definition stubborn : Network :=
  fun n => if Nat.even n then RejectedResponse 401 "Unauthorized" None
           else Resolved (JsValue newTokens).


Definition exhaustedSigner : Signer.t :=
  Signer.mk exampleSession exampleVin 0 [xaa; xbb] 4294967295.
(** * Verification *)

Section Verification.
Context {crypto : NodeCrypto} {curve : Elliptic} {enums : ProtoEnums}
        {codec : ProtoCodec}.

(** ** Facts about bytes *)

Example writeUInt32BE_epoch : writeUInt32BE EPOCH_LENGTH = Ok [x40; x00; x00; x00].
Proof. reflexivity. Qed.

Example writeUInt32BE_too_big : returns (writeUInt32BE 4294967296) = false.
Proof. reflexivity. Qed.

Example timingSafeEqual_same : timingSafeEqual [x01; x02] [x01; x02] = Ok true.
Proof. reflexivity. Qed.

Example timingSafeEqual_differ : timingSafeEqual [x01; x02] [x01; x03] = Ok false.
Proof. reflexivity. Qed.

Example timingSafeEqual_short : returns (timingSafeEqual [x01; x02] [x01]) = false.
Proof. reflexivity. Qed.

Lemma Z_of_byte_of_Z (n : Z) : Z_of_byte (byte_of_Z n) = n mod 256.
Proof.
  unfold Z_of_byte, byte_of_Z.
  assert (Hr : 0 <= n mod 256 < 256) by (apply Z.mod_pos_bound; lia).
  destruct (Byte.of_N (Z.to_N (n mod 256))) as [b|] eqn:E.
  - apply Byte.to_of_N in E. rewrite E. lia.
  - apply Byte.of_N_None_iff in E. lia.
Qed.

Lemma Z_of_byte_of_Z_small (n : Z) : 0 <= n <= 255 -> Z_of_byte (byte_of_Z n) = n.
Proof. intros Hn. rewrite Z_of_byte_of_Z. apply Z.mod_small. lia. Qed.

Lemma byte_of_Z_255 : byte_of_Z 255 = xff.
Proof. reflexivity. Qed.

Lemma bytes_eqb_eq (a b : bytes) : bytes_eqb a b = true <-> a = b.
Proof. unfold bytes_eqb. apply bool_decide_eq_true. Qed.

Lemma bytes_eqb_neq (a b : bytes) : bytes_eqb a b = false <-> a <> b.
Proof. unfold bytes_eqb. apply bool_decide_eq_false. Qed.

(** ** [Metadata] *)

Lemma add_ok (m : Metadata.t) (tag : Z) (v : bytes) :
  Metadata.last m <= tag -> blength v <= 255 ->
  Metadata.add m tag (Some v) =
    Ok (Metadata.mk
          (mkHmac (hkey (Metadata.context m))
                  (absorbed (Metadata.context m) ++ entry_record (tag, v)))
          (<[tag := true]> (Metadata.fields m)) tag).
Proof.
  intros Hord Hlen. unfold Metadata.add.
  destruct (Z.ltb_spec tag (Metadata.last m)); [lia|].
  destruct (Z.ltb_spec 255 (blength v)); [lia|].
  unfold update, entry_record; cbn. now rewrite <- !app_assoc.
Qed.


Lemma addEntries_ok (entries : list (Z * bytes)) : forall m : Metadata.t,
  Sorted Z.le (Metadata.last m :: map fst entries) ->
  Forall (fun e => blength e.2 <= 255) entries ->
  exists m',
    addEntries m entries = Ok m' /\
    hkey (Metadata.context m') = hkey (Metadata.context m) /\
    absorbed (Metadata.context m') =
      absorbed (Metadata.context m) ++ concat (map entry_record entries).
Proof.
  induction entries as [|[tag v] rest IH]; intros m Hsorted Hfit.
  - exists m. cbn. now rewrite app_nil_r.
  - apply Sorted_inv in Hsorted as [Hrest Hhd]. cbn in Hrest, Hhd.
    apply HdRel_inv in Hhd.
    apply Forall_cons_1 in Hfit as [Hv Hfit]. cbn in Hv.
    cbn [addEntries fst snd]. rewrite add_ok by assumption. cbn [bind].
    match goal with
    | |- context [addEntries ?m1 rest] =>
        destruct (IH m1 Hrest Hfit) as (m' & Hrun & Hkey & Habs)
    end.
    exists m'. split; [exact Hrun|]. split; [exact Hkey|].
    rewrite Habs. cbn. now rewrite <- !app_assoc.
Qed.

(** C5. For entries with non-decreasing tags (none below the initial 0) and
    values of at most 255 bytes, a builder seeded for (key, label) absorbs
    one (tag byte, length byte, value) record per entry in call order;
    [checksum] then absorbs the byte 255 and the payload and returns the HMAC
    digest, which is the function [spec_TaggedChecksum] of (key, label,
    entries, payload).  The length byte reads back as the length, and the tag
    byte as the tag when the tag is at most 255. *)
Theorem tagged_checksum_layout (s : AuthSession.t) (label : string)
    (entries : list (Z * bytes)) (payload : bytes) :
  Sorted Z.le (map fst entries) ->
  Forall (fun e => 0 <= e.1) entries ->
  Forall (fun e => blength e.2 <= 255) entries ->
  exists m,
    addEntries (Metadata.new (AuthSession.newHMAC s label)) entries = Ok m /\
    absorbed (Metadata.context m) = concat (map entry_record entries) /\
    Metadata.checksum m payload =
      hmac_sha256 (hkey (Metadata.context m))
                  (absorbed (Metadata.context m) ++ [xff] ++ payload) /\
    Metadata.checksum m payload =
      spec_TaggedChecksum (AuthSession.key s) label entries payload /\
    Forall (fun e => Z_of_byte (byte_of_Z (blength e.2)) = blength e.2 /\
                     (e.1 <= 255 -> Z_of_byte (byte_of_Z e.1) = e.1)) entries.
Proof.
  intros Hsorted Hpos Hfit.
  destruct (addEntries_ok entries (Metadata.new (AuthSession.newHMAC s label)))
    as (m & Hrun & Hkey & Habs).
  - cbn. constructor; [exact Hsorted|].
    destruct entries as [|e rest]; constructor.
    now apply Forall_cons_1 in Hpos as [? _].
  - exact Hfit.
  - cbn in Habs, Hkey.
    assert (Hsum : Metadata.checksum m payload =
      hmac_sha256 (hkey (Metadata.context m))
                  (absorbed (Metadata.context m) ++ [xff] ++ payload)).
    { unfold Metadata.checksum, digest, update; cbn.
      now rewrite byte_of_Z_255, <- app_assoc. }
    exists m. repeat split; try assumption.
    + rewrite Hsum, Hkey, Habs. reflexivity.
    + apply Forall_forall. intros e He. split.
      * apply Z_of_byte_of_Z_small.
        rewrite Forall_forall in Hfit. specialize (Hfit e He). unfold blength in *. lia.
      * intros Hle. apply Z_of_byte_of_Z_small.
        rewrite Forall_forall in Hpos. specialize (Hpos e He). lia.
Qed.

(** ** [Signer.generateSignature] *)

Lemma writeUInt32BE_ok (n : Z) :
  0 <= n <= 4294967295 -> writeUInt32BE n = Ok (uint32BE n).
Proof.
  intros Hn. unfold writeUInt32BE.
  destruct (Z.ltb_spec n 0); [lia|].
  destruct (Z.ltb_spec 4294967295 n); [lia|]. reflexivity.
Qed.

Lemma EPOCH_LENGTH_value : EPOCH_LENGTH = 2 ^ 30.
Proof. reflexivity. Qed.

Ltac add_side :=
  cbn [Metadata.last fst snd];
  first [assumption | lia | unfold blength, uint32BE; cbn [length]; lia].

Ltac add_step :=
  rewrite add_ok;
  [cbn [bind Metadata.last Metadata.context Metadata.fields hkey absorbed]
  | add_side ..].

(** With well-formed inputs the expiry check is the only way out of
    [generateSignature]; past it, the call returns the signature block over
    the six entries. *)
Lemma generateSignature_outcome (s : Signer.t)
    (payload : bytes) (domain expiresIn nowMs : Z) :
  tags_ascending -> signer_fits s ->
  let ex := Signer.expiresAt s expiresIn nowMs in
  (Signer.generateSignature s payload domain expiresIn nowMs).2 =
    if (ex >? EPOCH_LENGTH) || (ex <? 0)
    then Throw (Error "out of bounds expiration time")
    else Ok (SignatureData.mk
               (AuthSession.localPublic (Signer.session s))
               (SignatureData.mkHmacPersonalized
                  (Signer.epoch s) (Signer.counter s + 1) ex
                  (spec_TaggedChecksum (AuthSession.key (Signer.session s))
                     "authenticated command"
                     (command_entries s domain ex (Signer.counter s + 1))
                     payload))).
Proof.
  intros (Ht0 & Ht1 & Ht2 & Ht3 & Ht4 & Ht5 & _) (Hname & Hepoch & Hctr) ex.
  unfold Signer.generateSignature. cbn [snd Signer.bump Signer.session
    Signer.verifierName Signer.epoch Signer.counter Metadata.new].
  change (Signer.expiresAt _ expiresIn nowMs) with ex.
  do 3 add_step.
  destruct ((ex >? EPOCH_LENGTH) || (ex <? 0)) eqn:Hex; [reflexivity|].
  apply orb_false_iff in Hex as [Hhi Hlo].
  rewrite Z.gtb_ltb, EPOCH_LENGTH_value in Hhi.
  apply Z.ltb_ge in Hhi, Hlo.
  add_step. unfold Metadata.addUint32.
  rewrite writeUInt32BE_ok by lia. cbn [bind]. add_step.
  rewrite writeUInt32BE_ok by lia. cbn [bind]. add_step.
  f_equal. f_equal. f_equal.
  unfold Metadata.checksum, digest, update, spec_TaggedChecksum, command_entries.
  cbn. rewrite byte_of_Z_255. f_equal. unfold uint32BE.
  repeat (rewrite <- app_assoc; cbn [app]). reflexivity.
Qed.

(** C1, with the bound of the code.  With the other inputs well formed,
    [generateSignature] throws the out-of-bounds error exactly when
    expiresAt = now + ttl - clockOffset is negative or greater than 2^30, and
    returns a signature exactly when 0 <= expiresAt <= 2^30: an expiry equal
    to 2^30 is accepted, 2^30 + 1 is the first one rejected. *)
Theorem expiry_bound (s : Signer.t) (payload : bytes)
    (domain expiresIn nowMs : Z) :
  tags_ascending -> signer_fits s ->
  let ex := Signer.expiresAt s expiresIn nowMs in
  let out := (Signer.generateSignature s payload domain expiresIn nowMs).2 in
  ex = Signer.seconds nowMs + expiresIn - Signer.timeZero s /\
  (out = Throw (Error "out of bounds expiration time") <-> ex < 0 \/ 2 ^ 30 < ex) /\
  (returns out = true <-> 0 <= ex <= 2 ^ 30) /\
  (ex = 2 ^ 30 -> returns out = true) /\
  (ex = 2 ^ 30 + 1 -> out = Throw (Error "out of bounds expiration time")).
Proof.
  intros Htags Hfits ex out.
  assert (Hout := generateSignature_outcome s payload domain expiresIn nowMs Htags Hfits).
  cbn zeta in Hout. fold ex out in Hout.
  assert (Hcases :
    (ex < 0 \/ 2 ^ 30 < ex) /\ out = Throw (Error "out of bounds expiration time")
    \/ 0 <= ex <= 2 ^ 30 /\ returns out = true).
  { rewrite Hout, EPOCH_LENGTH_value, Z.gtb_ltb.
    destruct (Z.ltb_spec (2 ^ 30) ex); destruct (Z.ltb_spec ex 0); cbn;
      first [left; split; [lia|reflexivity] | right; split; [lia|reflexivity]]. }
  split; [reflexivity|].
  destruct Hcases as [[Hbad Heq]|[Hgood Hret]].
  - rewrite Heq. cbn. repeat split; try tauto; try lia; try discriminate.
  - destruct out as [sig|e]; [|discriminate]. cbn.
    repeat split; try discriminate; try tauto; try lia.
Qed.

(** ** The replay counter *)

Lemma generateSignature_signer (s : Signer.t)
    (payload : bytes) (domain expiresIn nowMs : Z) :
  (Signer.generateSignature s payload domain expiresIn nowMs).1 = Signer.bump s.
Proof. reflexivity. Qed.

Ltac case_bind :=
  match goal with
  | H : context [bind ?r _] |- _ => destruct r; cbn [bind] in H; try discriminate H
  end.

Lemma generateSignature_counter (s : Signer.t)
    (payload : bytes) (domain expiresIn nowMs : Z) (sig : SignatureData.t) :
  (Signer.generateSignature s payload domain expiresIn nowMs).2 = Ok sig ->
  SignatureData.counter (SignatureData.HMAC_PersonalizedData sig) = Signer.counter s + 1 /\
  SignatureData.epoch (SignatureData.HMAC_PersonalizedData sig) = Signer.epoch s /\
  SignatureData.expiresAt (SignatureData.HMAC_PersonalizedData sig) =
    Signer.expiresAt s expiresIn nowMs.
Proof.
  unfold Signer.generateSignature. cbn [snd]. intros Hrun.
  do 3 case_bind.
  destruct (_ || _); [discriminate|].
  do 3 case_bind.
  injection Hrun as <-. now cbn.
Qed.

Lemma generateSignatures_above (calls : list Call) :
  forall s : Signer.t,
    Forall (fun o => Signer.counter s < Signer.counter o.1) (generateSignatures s calls).
Proof.
  induction calls as [|c rest IH]; intros s; cbn [generateSignatures].
  - constructor.
  - constructor.
    + cbn. lia.
    + rewrite generateSignature_signer.
      eapply Forall_impl; [apply IH|]. cbn. intros o Ho. lia.
Qed.

(** C2. Each [generateSignature] call starts by incrementing the counter,
    whatever the call does next: over any sequence of calls on one Signer
    the counters consumed are counter+1, counter+2, ... in order, so they are
    strictly increasing and above the starting value, also across calls that
    throw; a signature that is returned carries the counter its call
    consumed; the epoch never changes. *)
Theorem counter_strictly_increasing (calls : list Call) :
  forall s : Signer.t,
  let outs := generateSignatures s calls in
  let consumed := map (fun o => Signer.counter o.1) outs in
  length outs = length calls /\
  consumed = map (fun i => Signer.counter s + 1 + Z.of_nat i) (seq 0 (length calls)) /\
  StronglySorted Z.lt (Signer.counter s :: consumed) /\
  Forall (fun o => forall sig, o.2 = Ok sig ->
            SignatureData.counter (SignatureData.HMAC_PersonalizedData sig)
            = Signer.counter o.1) outs /\
  Forall (fun o => Signer.epoch o.1 = Signer.epoch s) outs.
Proof.
  induction calls as [|c rest IH]; intros s.
  - cbn. repeat split; repeat constructor.
  - specialize (IH (Signer.bump s)).
    cbn zeta in IH. destruct IH as (Hlen & Hform & Hsorted & Hsig & Hepoch).
    cbn [generateSignatures length map seq]. cbn zeta.
    rewrite generateSignature_signer.
    split; [now rewrite Hlen|].
    split; [|split; [|split]].
    + f_equal; [cbn; lia|].
      rewrite Hform, <- seq_shift, map_map. apply map_ext. intros i. cbn. lia.
    + constructor; [exact Hsorted|].
      constructor; [cbn; lia|].
      apply Forall_map. eapply Forall_impl; [apply generateSignatures_above|].
      cbn. intros o Ho. lia.
    + constructor; [|exact Hsig].
      intros sig Hok. apply generateSignature_counter in Hok as (-> & _). reflexivity.
    + constructor; [reflexivity|exact Hepoch].
Qed.

(** ** Handshake validation *)

Lemma validateSessionInfo_outcome (s : Signer.t)
    (encodedSessionInfo challenge tag : bytes) :
  tags_ascending ->
  blength (Buffer_from_string (Signer.verifierName s)) <= 255 ->
  blength challenge <= 255 ->
  Signer.validateSessionInfo s encodedSessionInfo challenge tag =
    timingSafeEqual (spec_handshakeTag s encodedSessionInfo challenge) tag.
Proof.
  intros (Ht0 & Ht1 & Ht2 & Ht3 & Ht4 & Ht5 & Ht6) Hname Hchallenge.
  unfold Signer.validateSessionInfo. cbn [Metadata.new].
  do 3 add_step. f_equal.
  unfold Metadata.checksum, digest, update, spec_handshakeTag, spec_TaggedChecksum,
    handshake_entries.
  cbn. rewrite byte_of_Z_255. f_equal.
  repeat (rewrite <- app_assoc; cbn [app]). reflexivity.
Qed.

Lemma timingSafeEqual_cases (a b : bytes) :
  (length a = length b /\ timingSafeEqual a b = Ok (bool_decide (a = b))) \/
  (length a <> length b /\
   timingSafeEqual a b =
     Throw (RangeError "Input buffers must have the same byte length")).
Proof.
  unfold timingSafeEqual, blength, bytes_eqb.
  destruct (Z.eqb_spec (Z.of_nat (length a)) (Z.of_nat (length b))); cbn;
    [left|right]; split; try reflexivity; lia.
Qed.

Lemma sendRequest_checked
    (cs : CarServer.t) (req : Request.t) (bufResp : bytes) (nowMs : Z)
    (res : RoutableMessage.t) :
  decodeRoutable bufResp = Ok res ->
  CarServer.sendRequest cs req (Ok bufResp) nowMs =
    let cs1 :=
      CarServer.mk (CarServer.sent cs ++ [(CarServer.vin cs, encodeRoutable req)])
        (CarServer.vin cs) (CarServer.privateKey cs) (CarServer.signer cs) in
    match CarServer.checkResponse req res with
    | Throw e => (cs1, Throw e)
    | Ok requestUuid => CarServer.interpret cs1 res requestUuid nowMs
    end.
Proof. intros Hdec. unfold CarServer.sendRequest. now rewrite Hdec. Qed.

Lemma startSession_sendRequest
    (cs : CarServer.t) (address uuid : bytes) (reply : result bytes) (nowMs : Z) :
  CarServer.startSession cs address uuid reply nowMs =
    let out := CarServer.sendRequest cs
                 (handshakeRequest (CarServer.privateKey cs) address uuid) reply nowMs in
    (out.1, let* _ := out.2 in Ok tt).
Proof.
  unfold CarServer.startSession, handshakeRequest.
  now destruct (CarServer.sendRequest _ _ _ _).
Qed.

(** What happens to the Signer when [validateSessionInfo] is reached. *)
Lemma sendRequest_validated
    (cs : CarServer.t) (req : Request.t) (reply : result bytes) (nowMs : Z)
    (sg : Signer.t) (verdict : result bool) :
  handshake_validated cs req reply nowMs sg verdict ->
  let out := CarServer.sendRequest cs req reply nowMs in
  match verdict with
  | Ok true => CarServer.signer out.1 = Some sg /\ returns out.2 = true
  | Ok false => CarServer.signer out.1 = None /\
                out.2 = Throw (Error "Session info hmac invalid")
  | Throw e => CarServer.signer out.1 = Some sg /\ out.2 = Throw e
  end.
Proof.
  intros (buf & res & ru & enc & sd & tag & si & -> & Hdec & Hchk & Hsi & Hsd & Htag
          & Hdsi & Hnew & Hval).
  rewrite (sendRequest_checked _ _ _ _ _ Hdec). cbn zeta. rewrite Hchk.
  unfold CarServer.interpret. rewrite Hsi, Hsd, Htag, Hdsi.
  cbn [CarServer.privateKey CarServer.vin]. rewrite Hnew. cbn [CarServer.set_signer].
  rewrite Hval.
  destruct verdict as [[|]|e]; cbn; auto.
Qed.

Lemma interpret_frame (cs : CarServer.t) (res : RoutableMessage.t)
    (requestUuid : bytes) (nowMs : Z) :
  let out := CarServer.interpret cs res requestUuid nowMs in
  CarServer.sent out.1 = CarServer.sent cs /\
  CarServer.vin out.1 = CarServer.vin cs /\
  CarServer.privateKey out.1 = CarServer.privateKey cs.
Proof.
  unfold CarServer.interpret.
  repeat match goal with
         | |- context [match ?x with _ => _ end] => destruct x
         end; cbn; auto.
Qed.

Lemma sendRequest_frame_all (cs : CarServer.t) (req : Request.t)
    (reply : result bytes) (nowMs : Z) :
  let out := CarServer.sendRequest cs req reply nowMs in
  CarServer.sent out.1 = CarServer.sent cs ++ [(CarServer.vin cs, encodeRoutable req)] /\
  CarServer.vin out.1 = CarServer.vin cs /\
  CarServer.privateKey out.1 = CarServer.privateKey cs.
Proof.
  unfold CarServer.sendRequest.
  destruct reply as [bufResp|e]; [|cbn; auto].
  destruct (decodeRoutable bufResp) as [res|e]; [|cbn; auto].
  destruct (CarServer.checkResponse req res) as [ru|e]; [|cbn; auto].
  match goal with
  | |- context [CarServer.interpret ?c res ru nowMs] =>
      destruct (interpret_frame c res ru nowMs) as (Hs & Hv & Hk)
  end.
  cbn zeta. rewrite Hs, Hv, Hk. cbn. auto.
Qed.

(** When [validateSessionInfo] throws, as it does for a tag of another
    length, line 49 is not reached and the Signer built on line 47 stays in
    place. *)
Lemma handshake_throw_keeps_signer
    (cs : CarServer.t) (address uuid : bytes) (reply : result bytes) (nowMs : Z)
    (sg : Signer.t) (e : exn) :
  handshake_validated cs (handshakeRequest (CarServer.privateKey cs) address uuid)
    reply nowMs sg (Throw e) ->
  let out := CarServer.startSession cs address uuid reply nowMs in
  CarServer.signer out.1 = Some sg /\ out.2 = Throw e.
Proof.
  intros Hreached. rewrite startSession_sendRequest. cbn zeta.
  apply sendRequest_validated in Hreached. cbn zeta in Hreached.
  destruct Hreached as [Hsome Hthrow]. cbn [fst snd]. now rewrite Hthrow.
Qed.

(** A command on an object that holds a Signer is signed by it, and the
    signed envelope goes to the transport. *)
Lemma requestAction_signed (cs : CarServer.t) (action : VehicleAction)
    (address uuid : bytes) (reply : result bytes) (nowSign nowMs : Z)
    (sg : Signer.t) (signature : SignatureData.t) :
  CarServer.signer cs = Some sg ->
  (Signer.generateSignature sg (encodeAction action) DOMAIN_INFOTAINMENT 5 nowSign).2
    = Ok signature ->
  CarServer.sent
    (CarServer.requestAction cs action address uuid reply nowSign nowMs).1 =
    CarServer.sent cs ++
      [(CarServer.vin cs,
        encodeRoutable (commandRequest (encodeAction action) signature address uuid))].
Proof.
  intros Hsg Hsigned. unfold CarServer.requestAction. rewrite Hsg.
  destruct (Signer.generateSignature sg _ _ _ _) as [sg' signed].
  cbn [snd] in Hsigned. subst signed.
  match goal with
  | |- context [CarServer.sendRequest ?c ?r reply nowMs] =>
      pose proof (sendRequest_frame_all c r reply nowMs) as Hframe;
      change r with (commandRequest (encodeAction action) signature address uuid)
        in Hframe |- *;
      destruct (CarServer.sendRequest c
                  (commandRequest (encodeAction action) signature address uuid)
                  reply nowMs) as [cs2 response]
  end.
  cbn zeta in Hframe. destruct Hframe as (Hsent & _ & _).
  cbn [fst snd CarServer.set_signer CarServer.sent CarServer.vin] in *.
  exact Hsent.
Qed.

(** C3. What the code does when the handshake does not validate.  For a
    server tag of the length of the recomputed checksum that differs from
    it, [validateSessionInfo] returns false: the comparison is the one call
    of Node's [timingSafeEqual] on the recomputed and the received tag, and
    a mismatch does not throw.  The call throws only when the name or the
    challenge exceeds 255 bytes or the tag has another length, and for a tag
    of another length it does throw.  When [startSession] reaches the
    validation and it returns false, the Signer is discarded (it is null
    afterwards) and the call throws.  But when the validation throws,
    [startSession] throws the same error and the Signer that was never
    validated stays installed: the next command is signed with it and handed
    to the transport, instead of failing with "Session not started". *)
Theorem handshake_failure :
  tags_ascending ->
  (forall (s : Signer.t) (encodedSessionInfo challenge tag : bytes),
     blength (Buffer_from_string (Signer.verifierName s)) <= 255 ->
     blength challenge <= 255 ->
     Signer.validateSessionInfo s encodedSessionInfo challenge tag =
       timingSafeEqual (spec_handshakeTag s encodedSessionInfo challenge) tag /\
     (length tag = length (spec_handshakeTag s encodedSessionInfo challenge) ->
      tag <> spec_handshakeTag s encodedSessionInfo challenge ->
      Signer.validateSessionInfo s encodedSessionInfo challenge tag = Ok false) /\
     (length tag <> length (spec_handshakeTag s encodedSessionInfo challenge) ->
      Signer.validateSessionInfo s encodedSessionInfo challenge tag =
        Throw (RangeError "Input buffers must have the same byte length"))) /\
  (forall (s : Signer.t) (encodedSessionInfo challenge tag : bytes) (e : exn),
     Signer.validateSessionInfo s encodedSessionInfo challenge tag = Throw e ->
     255 < blength (Buffer_from_string (Signer.verifierName s)) \/
     255 < blength challenge \/
     length tag <> length (spec_handshakeTag s encodedSessionInfo challenge)) /\
  (forall (cs : CarServer.t) (address uuid : bytes) (reply : result bytes)
          (nowMs : Z) (sg : Signer.t),
     handshake_validated cs (handshakeRequest (CarServer.privateKey cs) address uuid)
       reply nowMs sg (Ok false) ->
     let out := CarServer.startSession cs address uuid reply nowMs in
     CarServer.signer out.1 = None /\
     out.2 = Throw (Error "Session info hmac invalid")) /\
  (forall (cs : CarServer.t) (address uuid : bytes) (reply : result bytes)
          (nowMs : Z) (sg : Signer.t) (e : exn),
     handshake_validated cs (handshakeRequest (CarServer.privateKey cs) address uuid)
       reply nowMs sg (Throw e) ->
     let out := CarServer.startSession cs address uuid reply nowMs in
     out.2 = Throw e /\
     CarServer.signer out.1 = Some sg /\
     forall (action : VehicleAction) (address' uuid' : bytes) (reply' : result bytes)
            (nowSign nowMs' : Z) (signature : SignatureData.t),
       (Signer.generateSignature sg (encodeAction action) DOMAIN_INFOTAINMENT 5
          nowSign).2 = Ok signature ->
       let out' := CarServer.requestAction out.1 action address' uuid' reply'
                     nowSign nowMs' in
       out' <> (out.1, Throw (Error "Session not started")) /\
       CarServer.sent out'.1 =
         CarServer.sent out.1 ++
           [(CarServer.vin cs,
             encodeRoutable
               (commandRequest (encodeAction action) signature address' uuid'))]).
Proof.
  intros Htags. split; [|split; [|split]].
  - intros s enc challenge tag Hname Hchallenge.
    rewrite validateSessionInfo_outcome by assumption.
    split; [reflexivity|].
    destruct (timingSafeEqual_cases (spec_handshakeTag s enc challenge) tag)
      as [[Hsame ->]|[Hdiff ->]]; split; try congruence.
    intros _ Hneq. f_equal. apply bool_decide_eq_false. congruence.
  - intros s enc challenge tag e Hthrow.
    destruct (Z.ltb_spec 255 (blength (Buffer_from_string (Signer.verifierName s))));
      [now left|right].
    destruct (Z.ltb_spec 255 (blength challenge)); [now left|right].
    rewrite validateSessionInfo_outcome in Hthrow by assumption.
    destruct (timingSafeEqual_cases (spec_handshakeTag s enc challenge) tag)
      as [[_ Heq]|[Hdiff _]]; [congruence|congruence].
  - intros cs address uuid reply nowMs sg Hreached.
    rewrite startSession_sendRequest. cbn zeta.
    apply sendRequest_validated in Hreached. cbn zeta in Hreached.
    destruct Hreached as [Hnone Hthrow]. cbn [fst snd]. now rewrite Hthrow.
  - intros cs address uuid reply nowMs sg e Hreached.
    destruct (handshake_throw_keeps_signer cs address uuid reply nowMs sg e Hreached)
      as [Hsg Hthrow].
    cbn zeta. split; [exact Hthrow|]. split; [exact Hsg|].
    intros action address' uuid' reply' nowSign nowMs' signature Hsigned.
    pose proof (requestAction_signed _ action address' uuid' reply' nowSign nowMs'
                  sg signature Hsg Hsigned) as Hsent.
    assert (Hvin : CarServer.vin (CarServer.startSession cs address uuid reply nowMs).1
                   = CarServer.vin cs).
    { rewrite startSession_sendRequest. cbn zeta. cbn [fst].
      apply sendRequest_frame_all. }
    rewrite Hvin in Hsent. split; [|exact Hsent].
    intros Heq. rewrite Heq in Hsent. cbn [fst] in Hsent.
    apply (f_equal (@length _)) in Hsent. rewrite length_app in Hsent.
    cbn in Hsent. lia.
Qed.

(** ** Response provenance *)

Lemma checkResponse_ok (req : Request.t) (res : RoutableMessage.t) (requestUuid : bytes) :
  CarServer.checkResponse req res = Ok requestUuid <->
  source_domain_matches req res /\ destination_address_matches req res /\
  RoutableMessage.requestUuid res = Some requestUuid.
Proof.
  unfold CarServer.checkResponse, source_domain_matches, destination_address_matches,
    CarServer.domain_differs.
  assert (Hno : forall P : Prop, (P -> False) ->
            forall e, @Throw bytes e = Ok requestUuid <-> P)
    by (split; [discriminate|tauto]).
  destruct (RoutableMessage.fromDestination res) as [from|] eqn:Hfrom;
    [|apply Hno; intros [(f & d & Hf & _) _]; congruence].
  destruct (domain from) as [d|] eqn:Hd;
    [|apply Hno; intros [(f & d & Hf & Hd1 & _) _]; congruence].
  destruct (domain (Request.toDestination req)) as [d'|] eqn:Hd';
    [|apply Hno; intros [(f & d1 & _ & _ & Hd2) _]; congruence].
  destruct (Z.eqb_spec d d') as [<-|Hne]; cbn [negb];
    [|apply Hno; intros [(f & d1 & Hf & Hd1 & Hd2) _]; congruence].
  destruct (RoutableMessage.toDestination res) as [to|] eqn:Hto;
    [|apply Hno; intros (_ & (t & a & Ht & _) & _); congruence].
  destruct (routingAddress to) as [addr|] eqn:Haddr;
    [|apply Hno; intros (_ & (t & a & Ht & Ha & _) & _); congruence].
  destruct (routingAddress (Request.fromDestination req)) as [reqAddr|] eqn:Hreq;
    [|apply Hno; intros (_ & (t & a & _ & _ & Ha) & _); congruence].
  destruct (bytes_eqb addr reqAddr) eqn:Hsame; cbn [negb].
  - apply bytes_eqb_eq in Hsame as <-.
    destruct (RoutableMessage.requestUuid res) as [ru|] eqn:Hru.
    + split.
      * intros [= <-]. split; [now exists from, d|].
        split; [now exists to, addr|reflexivity].
      * now intros (_ & _ & [= <-]).
    + apply Hno. now intros (_ & _ & ?).
  - apply bytes_eqb_neq in Hsame.
    apply Hno. intros (_ & (t & a & Ht & Ha & Ha') & _). congruence.
Qed.

(** C4. [#sendRequest] tells apart, before anything else is read from the
    response: (a) the source domain is the request's destination domain,
    (b) the destination address is the request's source address, (c) a
    request identifier is there.  The checks pass exactly when the three
    hold, and the identifier the request carried plays no part in them.  When
    one fails the call throws and the Signer is the one from before; a
    handshake response from another domain makes [startSession] throw with
    the Signer untouched, so it is still null if it was. *)
Theorem response_provenance
    (cs : CarServer.t) (req : Request.t) (res : RoutableMessage.t) :
  (returns (CarServer.checkResponse req res) = true <->
     source_domain_matches req res /\ destination_address_matches req res /\
     request_id_present res) /\
  (forall uuid, CarServer.checkResponse (with_uuid req uuid) res =
                CarServer.checkResponse req res) /\
  (forall (bufResp : bytes) (nowMs : Z),
     decodeRoutable bufResp = Ok res ->
     ~ (source_domain_matches req res /\ destination_address_matches req res /\
        request_id_present res) ->
     let out := CarServer.sendRequest cs req (Ok bufResp) nowMs in
     (exists e, CarServer.checkResponse req res = Throw e /\ out.2 = Throw e) /\
     CarServer.signer out.1 = CarServer.signer cs) /\
  (forall (address uuid bufResp : bytes) (nowMs : Z) (from : Destination) (d : Z),
     decodeRoutable bufResp = Ok res ->
     RoutableMessage.fromDestination res = Some from ->
     domain from = Some d ->
     d <> DOMAIN_INFOTAINMENT ->
     let out := CarServer.startSession cs address uuid (Ok bufResp) nowMs in
     out.2 = Throw (Error "Invalid source domain") /\
     CarServer.signer out.1 = CarServer.signer cs).
Proof.
  assert (Hret : returns (CarServer.checkResponse req res) = true <->
     source_domain_matches req res /\ destination_address_matches req res /\
     request_id_present res).
  { destruct (CarServer.checkResponse req res) as [ru|e] eqn:Hchk; cbn.
    - apply checkResponse_ok in Hchk as (? & ? & Hru).
      unfold request_id_present. rewrite Hru. split; eauto.
    - split; [discriminate|]. intros (Ha & Hb & [ru Hru]).
      assert (Hok : CarServer.checkResponse req res = Ok ru)
        by (apply checkResponse_ok; auto).
      congruence. }
  split; [exact Hret|]. split; [reflexivity|]. split.
  - intros buf nowMs Hdec Hviolated.
    rewrite (sendRequest_checked _ _ _ _ _ Hdec). cbn zeta.
    destruct (CarServer.checkResponse req res) as [ru|e].
    + exfalso. apply Hviolated, Hret. reflexivity.
    + cbn. eauto.
  - intros address uuid buf nowMs from d Hdec Hfrom Hdom Hd.
    rewrite startSession_sendRequest. cbn zeta.
    rewrite (sendRequest_checked _ _ _ _ _ Hdec). cbn zeta.
    unfold CarServer.checkResponse. rewrite Hfrom, Hdom.
    cbn [handshakeRequest Request.toDestination domain CarServer.domain_differs].
    destruct (Z.eqb_spec d DOMAIN_INFOTAINMENT); [contradiction|].
    cbn. auto.
Qed.

(** ** Commands *)

Lemma requestAction_answered
    (cs : CarServer.t) (action : VehicleAction) (address uuid : bytes)
    (reply : result bytes) (nowSign nowMs : Z) (cs' : CarServer.t) (response : Reply) :
  command_answered cs action address uuid reply nowSign nowMs cs' response ->
  CarServer.requestAction cs action address uuid reply nowSign nowMs =
    (cs', CarServer.checkStatus response).
Proof.
  intros (sg & signature & Hsg & Hsign & Hsend).
  unfold CarServer.requestAction. rewrite Hsg.
  destruct (Signer.generateSignature sg _ _ _ _) as [sg' out] eqn:Hgen.
  assert (Hsg' : sg' = Signer.bump sg).
  { change sg' with (sg', out).1. rewrite <- Hgen. apply generateSignature_signer. }
  cbn [snd] in Hsign. subst sg' out.
  unfold commandRequest in Hsend. rewrite Hsend. reflexivity.
Qed.

(** C8. When a command is answered by a response that carries a status:
    status OK makes the call return; status ERROR with a plain-text reason
    makes it throw an error whose message is that text; status ERROR without
    a reason, or with a reason that has no plain text, and any other status
    value make it throw a generic error. *)
Theorem command_status
    (cs : CarServer.t) (action : VehicleAction) (address uuid : bytes)
    (reply : result bytes) (nowSign nowMs : Z) (cs' : CarServer.t)
    (response : Response.t) (status : Response.action_status) (r : Z) :
  OPERATIONSTATUS_OK <> OPERATIONSTATUS_ERROR ->
  command_answered cs action address uuid reply nowSign nowMs cs'
    (ReplyResponse response) ->
  Response.actionStatus response = Some status ->
  Response.result status = Some r ->
  let out := (CarServer.requestAction cs action address uuid reply nowSign nowMs).2 in
  (r = OPERATIONSTATUS_OK -> out = Ok tt) /\
  (r = OPERATIONSTATUS_ERROR ->
     (forall text,
        Response.resultReason status = Some (Response.mkReason (Some text)) ->
        out = Throw (Error text) /\ exn_message (Error text) = text) /\
     (Response.resultReason status = None -> out = Throw (Error "Unknown error")) /\
     (Response.resultReason status = Some (Response.mkReason None) ->
        out = Throw (Error "Unknown result Reason"))) /\
  (r <> OPERATIONSTATUS_OK -> r <> OPERATIONSTATUS_ERROR ->
     out = Throw (Error "Invalid CarServer action result")).
Proof.
  intros Hdistinct Hanswered Hstatus Hresult out. subst out.
  rewrite (requestAction_answered _ _ _ _ _ _ _ _ _ Hanswered). cbn [snd].
  unfold CarServer.checkStatus. rewrite Hstatus, Hresult.
  split; [|split].
  - intros ->. now rewrite Z.eqb_refl.
  - intros ->.
    destruct (Z.eqb_spec OPERATIONSTATUS_ERROR OPERATIONSTATUS_OK); [congruence|].
    rewrite Z.eqb_refl.
    split; [|split].
    + intros text ->. split; reflexivity.
    + intros ->. reflexivity.
    + intros ->. reflexivity.
  - intros Hok Herr.
    destruct (Z.eqb_spec r OPERATIONSTATUS_OK); [contradiction|].
    destruct (Z.eqb_spec r OPERATIONSTATUS_ERROR); [contradiction|]. reflexivity.
Qed.

(** A send that fails after the signature was made leaves the incremented
    counter in place. *)
Lemma failed_send_consumes_counter (cs : CarServer.t) (action : VehicleAction)
    (address uuid : bytes) (e : exn) (nowSign nowMs : Z) (sg : Signer.t) :
  CarServer.signer cs = Some sg ->
  returns (Signer.generateSignature sg (encodeAction action) DOMAIN_INFOTAINMENT 5
             nowSign).2 = true ->
  let out := CarServer.requestAction cs action address uuid (Throw e) nowSign nowMs in
  CarServer.signer out.1 = Some (Signer.bump sg) /\ out.2 = Throw e.
Proof.
  intros Hsg Hsigned. cbn zeta. unfold CarServer.requestAction. rewrite Hsg.
  destruct (Signer.generateSignature sg _ _ _ _) as [sg' signature] eqn:Hgen.
  assert (Hsg' : sg' = Signer.bump sg).
  { change sg' with (sg', signature).1. rewrite <- Hgen. apply generateSignature_signer. }
  cbn [snd] in Hsigned. destruct signature as [signature|]; [|discriminate].
  subst sg'. cbn. auto.
Qed.

(** C9. While no Signer is installed a command throws the
    session-not-started error and leaves the object exactly as it was:
    nothing was sent through the transport and no counter was touched; the
    outcome does not depend on the action, the random bytes, the reply or
    the clock. *)
Theorem command_needs_session
    (cs : CarServer.t) (action : VehicleAction) (address uuid : bytes)
    (reply : result bytes) (nowSign nowMs : Z) :
  CarServer.signer cs = None ->
  let out := CarServer.requestAction cs action address uuid reply nowSign nowMs in
  out = (cs, Throw (Error "Session not started")) /\
  CarServer.sent out.1 = CarServer.sent cs /\
  CarServer.signer out.1 = None /\
  forall percent,
    CarServer.chargingSetLimit cs percent address uuid reply nowSign nowMs =
      (cs, Throw (Error "Session not started")).
Proof.
  intros Hnone out. subst out.
  unfold CarServer.chargingSetLimit, CarServer.requestAction. rewrite Hnone.
  cbn. auto.
Qed.

(** C10. When a command is answered by a response whose payload has no
    [actionStatus], or an [actionStatus] without a [result], the call returns
    normally, just as for an explicit OK status: nothing is thrown for a
    response without a status. *)
Theorem command_without_status
    (cs : CarServer.t) (action : VehicleAction) (address uuid : bytes)
    (reply : result bytes) (nowSign nowMs : Z) (cs' : CarServer.t)
    (response : Response.t) :
  command_answered cs action address uuid reply nowSign nowMs cs'
    (ReplyResponse response) ->
  Response.actionStatus response = None \/
  (exists status, Response.actionStatus response = Some status /\
                  Response.result status = None) ->
  CarServer.requestAction cs action address uuid reply nowSign nowMs = (cs', Ok tt) /\
  CarServer.checkStatus (ReplyResponse response) =
    CarServer.checkStatus
      (ReplyResponse
         (Response.mk (Some (Response.mkStatus (Some OPERATIONSTATUS_OK) None)))).
Proof.
  intros Hanswered Hnostatus.
  rewrite (requestAction_answered _ _ _ _ _ _ _ _ _ Hanswered).
  assert (Hok : CarServer.checkStatus (ReplyResponse response) = Ok tt).
  { unfold CarServer.checkStatus.
    destruct Hnostatus as [->|(status & -> & ->)]; reflexivity. }
  rewrite Hok. split; [reflexivity|].
  cbn. now rewrite Z.eqb_refl.
Qed.

(** ** The bytes that are hashed *)

Example toString16_even : BN_toString16 0x1abc = "1abc"%string.
Proof. reflexivity. Qed.

Example from_hex_even : Buffer_from_hex "1abc" = [x1a; xbc].
Proof. reflexivity. Qed.

Example from_hex_odd : Buffer_from_hex (BN_toString16 0xabc) = [xab].
Proof. reflexivity. Qed.

Lemma hex_value_bound (c : ascii) (d : Z) : hex_value c = Some d -> 0 <= d < 16.
Proof.
  unfold hex_value.
  repeat match goal with
         | |- context [if ?b then _ else _] => destruct b eqn:?
         end; intros [= <-]; lia.
Qed.

Fixpoint hex_string_value_of_pos (p : positive) (rest : string) (acc : Z) {struct p} :
  0 <= acc ->
  hex_string_value acc (HexString.Raw.of_pos p rest) =
    hex_string_value (hex_app acc p) rest.
Proof.
  intros Hacc.
  do 4 try destruct p as [p|p|]; destruct acc as [|v|v]; try lia; try reflexivity;
    cbn [HexString.Raw.of_pos]; rewrite hex_string_value_of_pos by lia; reflexivity.
Qed.

Lemma Z_of_byte_hex_pair (h l : Z) :
  0 <= h < 16 -> 0 <= l < 16 -> Z_of_byte (byte_of_Z (16 * h + l)) = 16 * h + l.
Proof. intros Hh Hl. apply Z_of_byte_of_Z_small. lia. Qed.

Fixpoint be_value_from_hex (s : string) (acc v : Z) {struct s} :
  hex_string_value acc s = Some v ->
  be_value acc (Buffer_from_hex s) = if Nat.even (String.length s) then v else v / 16.
Proof.
  destruct s as [|a [|b rest]];
    cbn [hex_string_value Buffer_from_hex String.length Nat.even].
  - now intros [= <-].
  - destruct (hex_value a) as [d|] eqn:Hd; [|discriminate].
    intros [= <-]. apply hex_value_bound in Hd. cbn.
    apply Z.div_unique with d; lia.
  - destruct (hex_value a) as [h|] eqn:Hh; [|discriminate].
    destruct (hex_value b) as [l|] eqn:Hl; [|discriminate].
    intros Hrest. apply be_value_from_hex in Hrest. rewrite <- Hrest.
    apply hex_value_bound in Hh, Hl.
    unfold be_value. cbn [fold_left]. rewrite Z_of_byte_hex_pair by assumption.
    f_equal. lia.
Qed.

(** What [Buffer.from(x.toString(16), 'hex')] holds for an x-coordinate
    x >= 0: the big-endian bytes of x when x has an even number of
    hexadecimal digits, and those of x / 16 (the last digit is dropped) when
    the number of digits is odd. *)
Lemma hashed_bytes (x : Z) :
  0 <= x ->
  be_value 0 (Buffer_from_hex (BN_toString16 x)) =
    if Nat.even (String.length (BN_toString16 x)) then x else x / 16.
Proof.
  intros Hx. apply be_value_from_hex.
  destruct x as [|p|p]; [reflexivity| |lia].
  cbn [BN_toString16]. now rewrite hex_string_value_of_pos.
Qed.

(** The number of digits that [toString(16)] writes. *)
Fixpoint of_pos_digits (p : positive) (rest : string) {struct p} :
  exists k : nat,
    String.length (HexString.Raw.of_pos p rest) = (S k + String.length rest)%nat /\
    16 ^ Z.of_nat k <= Z.pos p < 16 ^ Z.of_nat (S k).
Proof.
  do 4 try destruct p as [p|p|];
    try (exists 0%nat; split; [reflexivity|cbn; lia]);
    cbn [HexString.Raw.of_pos];
    match goal with
    | |- context [HexString.Raw.of_pos p ?r] =>
        destruct (of_pos_digits p r) as (k & Hlen & Hbound)
    end;
    exists (S k); (split; [rewrite Hlen; cbn [String.length]; lia|]);
    rewrite !Nat2Z.inj_succ, !Z.pow_succ_r in * by lia; lia.
Qed.

Fixpoint from_hex_length (s : string) (acc v : Z) {struct s} :
  hex_string_value acc s = Some v ->
  blength (Buffer_from_hex s) = Z.of_nat (String.length s) / 2.
Proof.
  destruct s as [|a [|b rest]];
    cbn [hex_string_value Buffer_from_hex String.length].
  - reflexivity.
  - reflexivity.
  - destruct (hex_value a) as [h|]; [|discriminate].
    destruct (hex_value b) as [l|]; [|discriminate].
    intros Hrest. apply from_hex_length in Hrest.
    unfold blength in *. cbn [length]. rewrite !Nat2Z.inj_succ, Hrest.
    replace (Z.succ (Z.succ (Z.of_nat (String.length rest))))
      with (Z.of_nat (String.length rest) + 1 * 2) by lia.
    rewrite Z.div_add by lia. lia.
Qed.

Lemma even_of_nat (n : nat) : Z.even (Z.of_nat n) = Nat.even n.
Proof.
  induction n as [|n IH]; [reflexivity|].
  rewrite Nat2Z.inj_succ, Z.even_succ, Nat.even_succ.
  now rewrite <- Z.negb_even, <- Nat.negb_even, IH.
Qed.

(** The same in terms of the number alone: for an x-coordinate of d
    hexadecimal digits, d / 2 bytes are hashed (the quotient rounded down);
    they hold x when d is even and x / 16 when d is odd. *)
Lemma hashed_shape (x d : Z) :
  1 <= d -> 16 ^ (d - 1) <= x < 16 ^ d ->
  blength (Buffer_from_hex (BN_toString16 x)) = d / 2 /\
  be_value 0 (Buffer_from_hex (BN_toString16 x)) = if Z.even d then x else x / 16.
Proof.
  intros Hd [Hlow Hhigh].
  assert (Hpos : 0 < x).
  { pose proof (Z.pow_pos_nonneg 16 (d - 1)). lia. }
  destruct x as [|p|p]; try lia.
  destruct (of_pos_digits p "") as (k & Hlen & Hk1 & Hk2).
  cbn [String.length] in Hlen. rewrite Nat.add_0_r in Hlen.
  assert (Hdk : d = Z.of_nat (S k)).
  { destruct (Z.lt_trichotomy d (Z.of_nat (S k))) as [Hlt|[Heq|Hgt]]; [|exact Heq|].
    - pose proof (Z.pow_le_mono_r 16 d (Z.of_nat k)). lia.
    - pose proof (Z.pow_le_mono_r 16 (Z.of_nat (S k)) (d - 1)). lia. }
  split.
  - cbn [BN_toString16].
    rewrite (from_hex_length _ 0 (Z.pos p)) by now rewrite hex_string_value_of_pos.
    now rewrite Hlen, Hdk.
  - rewrite hashed_bytes by lia. cbn [BN_toString16].
    now rewrite Hlen, Hdk, even_of_nat.
Qed.

(** ** Key agreement *)

(** C7. What the constructor of [AuthSession] hashes.  It takes the
    x-coordinate of the Diffie-Hellman point of the local private key and
    the peer's public point, writes it in hexadecimal without padding and
    reads the digits back as bytes, hashes those with SHA-1 and keeps the
    first 16 bytes of the digest.  The key is a function of the key pair and
    the peer point, and for two valid key pairs A and B the key derived from
    (A.private, B.public) is the key derived from (B.private, A.public),
    given the symmetry of the curve's Diffie-Hellman operation.  But the
    bytes that are hashed are not a fixed-width encoding of x: for an x of d
    hexadecimal digits they are d / 2 bytes, which hold x when d is even and
    only x / 16 when d is odd, the last digit being dropped. *)
Theorem session_key_bytes (A B : Key) :
  ecdh_symmetric -> valid_pair A -> valid_pair B ->
  sessionKey A (publicKey B) = sessionKey B (publicKey A) /\
  (forall x d : Z,
     derive (keyFromPrivate (privateKey A))
            (getPublic (keyFromPrivate (privateKey B))) = Ok x ->
     1 <= d -> 16 ^ (d - 1) <= x < 16 ^ d ->
     exists hashed : bytes,
       sessionKey A (publicKey B) = Ok (firstn 16 (sha1 hashed)) /\
       blength hashed = d / 2 /\
       be_value 0 hashed = (if Z.even d then x else x / 16)).
Proof.
  intros Hsym HA HB. unfold valid_pair in HA, HB.
  assert (Hform : forall P Q : Key, valid_pair Q ->
    sessionKey P (publicKey Q) =
      (let* x := derive (keyFromPrivate (privateKey P))
                        (getPublic (keyFromPrivate (privateKey Q))) in
       Ok (firstn 16 (sha1 (Buffer_from_hex (BN_toString16 x)))))).
  { intros P Q HQ. unfold sessionKey, AuthSession.new, valid_pair in *.
    rewrite HQ. cbn [bind]. now destruct (derive _ _). }
  split.
  - rewrite !Hform by assumption. now rewrite Hsym.
  - intros x d Hx Hd Hbound.
    exists (Buffer_from_hex (BN_toString16 x)).
    rewrite Hform, Hx by assumption.
    split; [reflexivity|]. now apply hashed_shape.
Qed.

(** ** Further properties of [Metadata] *)

Lemma be_value_uint32BE (v : Z) :
  0 <= v <= 4294967295 -> be_value 0 (uint32BE v) = v.
Proof.
  intros Hv. unfold be_value, uint32BE. cbn [fold_left].
  rewrite !Z_of_byte_of_Z, !Z.shiftr_div_pow2 by lia.
  change (2 ^ 24) with 16777216. change (2 ^ 16) with 65536. change (2 ^ 8) with 256.
  Z.div_mod_to_equations. lia.
Qed.

(** X1. [addUint32(tag, value)] writes the value before it looks at the
    tag: a value outside [0, 2^32 - 1] throws Node's out-of-range RangeError
    for the argument [value] whatever the tag is, and leaves the builder
    alone.  A value inside the range is added as a
    four-byte field, most significant byte first, so an accepted call
    absorbs the tag byte, the length byte 4 and four bytes that read back as
    the value. *)
Theorem addUint32_field (m : Metadata.t) (tag value : Z) :
  (value < 0 \/ 4294967295 < value ->
     Metadata.addUint32 m tag value =
       Throw (ERR_OUT_OF_RANGE "value" ">= 0 and <= 4294967295" value)) /\
  (0 <= value <= 4294967295 ->
     Metadata.addUint32 m tag value = Metadata.add m tag (Some (uint32BE value)) /\
     blength (uint32BE value) = 4 /\
     be_value 0 (uint32BE value) = value /\
     (Metadata.last m <= tag ->
        exists m', Metadata.addUint32 m tag value = Ok m' /\
          Metadata.last m' = tag /\
          absorbed (Metadata.context m') =
            absorbed (Metadata.context m) ++
              [byte_of_Z tag; x04] ++ uint32BE value)).
Proof.
  unfold Metadata.addUint32, writeUInt32BE. split.
  - intros Hout.
    destruct (Z.ltb_spec value 0); [reflexivity|].
    destruct (Z.ltb_spec 4294967295 value); [reflexivity|lia].
  - intros Hin.
    destruct (Z.ltb_spec value 0); [lia|].
    destruct (Z.ltb_spec 4294967295 value); [lia|]. cbn [orb bind].
    split; [reflexivity|]. split; [reflexivity|].
    split; [now apply be_value_uint32BE|].
    intros Htag.
    rewrite add_ok by first [assumption | unfold blength, uint32BE; cbn [length]; lia].
    eexists. split; [reflexivity|]. split; reflexivity.
Qed.

Lemma byte_of_Z_inj (a b : Z) :
  0 <= a <= 255 -> 0 <= b <= 255 -> byte_of_Z a = byte_of_Z b -> a = b.
Proof.
  intros Ha Hb Heq.
  rewrite <- (Z_of_byte_of_Z_small a Ha), <- (Z_of_byte_of_Z_small b Hb).
  now rewrite Heq.
Qed.

Lemma addEntries_inv (entries : list (Z * bytes)) : forall m m' : Metadata.t,
  addEntries m entries = Ok m' ->
  Forall (fun e => Metadata.last m <= e.1 /\ blength e.2 <= 255) entries /\
  absorbed (Metadata.context m') =
    absorbed (Metadata.context m) ++ concat (map entry_record entries).
Proof.
  induction entries as [|[tag v] rest IH]; intros m m' Hrun.
  - injection Hrun as <-. split; [constructor|]. cbn. now rewrite app_nil_r.
  - cbn [addEntries fst snd] in Hrun.
    destruct (Z.ltb_spec tag (Metadata.last m)) as [Hlt|Hge].
    { unfold Metadata.add in Hrun.
      destruct (Z.ltb_spec tag (Metadata.last m)); [discriminate|lia]. }
    destruct (Z.ltb_spec 255 (blength v)) as [Hbig|Hfit].
    { unfold Metadata.add in Hrun.
      destruct (Z.ltb_spec tag (Metadata.last m)); [discriminate|].
      destruct (Z.ltb_spec 255 (blength v)); [discriminate|lia]. }
    rewrite add_ok in Hrun by assumption. cbn [bind] in Hrun.
    apply IH in Hrun as [Hall Habs]. cbn in Hall, Habs. split.
    + constructor; [cbn; lia|].
      eapply Forall_impl; [exact Hall|]. cbn. intros e [? ?]. lia.
    + rewrite Habs. cbn. now rewrite <- !app_assoc.
Qed.

Lemma records_inj (es1 : list (Z * bytes)) : forall (es2 : list (Z * bytes))
    (p1 p2 : bytes),
  Forall (fun e => 0 <= e.1 <= 254 /\ blength e.2 <= 255) es1 ->
  Forall (fun e => 0 <= e.1 <= 254 /\ blength e.2 <= 255) es2 ->
  concat (map entry_record es1) ++ xff :: p1 =
    concat (map entry_record es2) ++ xff :: p2 ->
  es1 = es2 /\ p1 = p2.
Proof.
  assert (Hend : forall t, 0 <= t <= 254 -> byte_of_Z t <> xff).
  { intros t Ht Heq. apply (f_equal Z_of_byte) in Heq.
    rewrite Z_of_byte_of_Z_small in Heq by lia. vm_compute in Heq. lia. }
  induction es1 as [|[t1 v1] r1 IH]; intros [|[t2 v2] r2] p1 p2 H1 H2 Heq.
  - cbn in Heq. injection Heq as ->. auto.
  - apply Forall_cons_1 in H2 as [[Ht _] _]. cbn in Heq, Ht.
    injection Heq as Hb _. symmetry in Hb. now apply Hend in Hb.
  - apply Forall_cons_1 in H1 as [[Ht _] _]. cbn in Heq, Ht.
    injection Heq as Hb _. now apply Hend in Hb.
  - apply Forall_cons_1 in H1 as [[Ht1 Hv1] H1].
    apply Forall_cons_1 in H2 as [[Ht2 Hv2] H2].
    cbn [fst snd] in Ht1, Ht2, Hv1, Hv2.
    cbn [map concat] in Heq. unfold entry_record in Heq at 1 3.
    cbn [fst snd app] in Heq. rewrite <- !app_assoc in Heq.
    injection Heq as Htag Hlen Hrest.
    apply byte_of_Z_inj in Htag; [|lia|lia].
    apply byte_of_Z_inj in Hlen; [|unfold blength in *; lia|unfold blength in *; lia].
    apply app_inj_1 in Hrest as [-> Hrest]; [|unfold blength in Hlen; lia].
    destruct (IH r2 p1 p2 H1 H2 Hrest) as [-> ->]. subst t2. auto.
Qed.

(** X2. The bytes a builder feeds to the HMAC are unambiguous.  Take two
    runs of [add] calls on builders created from the same context, both
    accepted, with tags of at most 254: if the bytes absorbed by the first
    followed by the terminal byte 255 and a payload are the bytes absorbed by
    the second followed by 255 and another payload, then the two runs added
    the same entries and the payloads are the same.  So two different
    (entries, payload) pairs never reach the HMAC as the same message. *)
Theorem layout_unambiguous (ctx : Hmac) (es1 es2 : list (Z * bytes))
    (p1 p2 : bytes) (m1 m2 : Metadata.t) :
  addEntries (Metadata.new ctx) es1 = Ok m1 ->
  addEntries (Metadata.new ctx) es2 = Ok m2 ->
  Forall (fun e => e.1 <= 254) es1 ->
  Forall (fun e => e.1 <= 254) es2 ->
  absorbed (Metadata.context m1) ++ [xff] ++ p1 =
    absorbed (Metadata.context m2) ++ [xff] ++ p2 ->
  es1 = es2 /\ p1 = p2.
Proof.
  intros Hrun1 Hrun2 Hmax1 Hmax2 Heq.
  apply addEntries_inv in Hrun1 as [Hall1 Habs1].
  apply addEntries_inv in Hrun2 as [Hall2 Habs2].
  rewrite Habs1, Habs2, <- !app_assoc in Heq. cbn [Metadata.new Metadata.context] in Heq.
  apply app_inv_head in Heq. cbn [app] in Heq.
  apply (records_inj es1 es2 p1 p2); [| |exact Heq].
  - rewrite Forall_forall in *. intros e He.
    specialize (Hall1 e He). specialize (Hmax1 e He). cbn in Hall1. lia.
  - rewrite Forall_forall in *. intros e He.
    specialize (Hall2 e He). specialize (Hmax2 e He). cbn in Hall2. lia.
Qed.

(** ** Further properties of [Signer] *)

(** X3. [validateSessionInfo] accepts exactly the recomputed checksum: with
    a name and a challenge that fit a metadata field, the call returns true
    if and only if the tag handed in is the HMAC over the three handshake
    entries and the encoded session info; so the right tag validates and a
    tag with any byte changed does not. *)
Theorem validateSessionInfo_accepts (s : Signer.t)
    (encodedSessionInfo challenge : bytes) :
  tags_ascending ->
  blength (Buffer_from_string (Signer.verifierName s)) <= 255 ->
  blength challenge <= 255 ->
  Signer.validateSessionInfo s encodedSessionInfo challenge
    (spec_handshakeTag s encodedSessionInfo challenge) = Ok true /\
  (forall tag,
     Signer.validateSessionInfo s encodedSessionInfo challenge tag = Ok true <->
     tag = spec_handshakeTag s encodedSessionInfo challenge).
Proof.
  intros Htags Hname Hchallenge.
  assert (Hiff : forall tag,
    Signer.validateSessionInfo s encodedSessionInfo challenge tag = Ok true <->
    tag = spec_handshakeTag s encodedSessionInfo challenge).
  { intros tag. rewrite validateSessionInfo_outcome by assumption.
    destruct (timingSafeEqual_cases
                (spec_handshakeTag s encodedSessionInfo challenge) tag)
      as [[_ ->]|[Hdiff ->]].
    - split.
      + intros [= Heq]. apply bool_decide_eq_true in Heq. congruence.
      + intros ->. f_equal. now apply bool_decide_eq_true.
    - split; [discriminate|]. intros ->. congruence. }
  split; [now apply Hiff|exact Hiff].
Qed.

Lemma add_oversized (m : Metadata.t) (tag : Z) (v : bytes) :
  255 < blength v -> returns (Metadata.add m tag (Some v)) = false.
Proof.
  intros Hbig. unfold Metadata.add.
  destruct (tag <? Metadata.last m); [reflexivity|].
  destruct (Z.ltb_spec 255 (blength v)); [reflexivity|lia].
Qed.

Lemma writeUInt32BE_out (n : Z) :
  n < 0 \/ 4294967295 < n -> returns (writeUInt32BE n) = false.
Proof.
  intros Hn. unfold writeUInt32BE.
  destruct (Z.ltb_spec n 0); [reflexivity|].
  destruct (Z.ltb_spec 4294967295 n); [reflexivity|lia].
Qed.

(** X4. With the schema's tags in ascending order, [generateSignature]
    returns a signature exactly when the name and the epoch fit a metadata
    field, the expiry is within [0, 2^30] and the incremented counter fits 32
    bits.  The block it returns carries the local public key, the session's
    epoch, the incremented counter, the expiry, and as tag the HMAC in the
    command domain over the six entries (signature type, domain, name,
    epoch, expiry, counter) and the payload. *)
Theorem signature_block (s : Signer.t) (payload : bytes)
    (domain expiresIn nowMs : Z) :
  tags_ascending ->
  let ex := Signer.expiresAt s expiresIn nowMs in
  let out := (Signer.generateSignature s payload domain expiresIn nowMs).2 in
  (returns out = true <-> signer_fits s /\ 0 <= ex <= 2 ^ 30) /\
  (forall sig, out = Ok sig ->
     sig = SignatureData.mk
             (AuthSession.localPublic (Signer.session s))
             (SignatureData.mkHmacPersonalized
                (Signer.epoch s) (Signer.counter s + 1) ex
                (spec_TaggedChecksum (AuthSession.key (Signer.session s))
                   "authenticated command"
                   (command_entries s domain ex (Signer.counter s + 1))
                   payload))).
Proof.
  intros Htags ex out.
  assert (Hfit : signer_fits s /\ 0 <= ex <= 2 ^ 30 ->
    out = Ok (SignatureData.mk
             (AuthSession.localPublic (Signer.session s))
             (SignatureData.mkHmacPersonalized
                (Signer.epoch s) (Signer.counter s + 1) ex
                (spec_TaggedChecksum (AuthSession.key (Signer.session s))
                   "authenticated command"
                   (command_entries s domain ex (Signer.counter s + 1))
                   payload)))).
  { intros [Hfits Hex]. subst out.
    rewrite generateSignature_outcome by assumption. cbn zeta. fold ex.
    rewrite Z.gtb_ltb, EPOCH_LENGTH_value.
    destruct (Z.ltb_spec (2 ^ 30) ex); [lia|].
    destruct (Z.ltb_spec ex 0); [lia|]. reflexivity. }
  assert (Hneeds : returns out = true -> signer_fits s /\ 0 <= ex <= 2 ^ 30).
  { destruct Htags as (Ht0 & Ht1 & Ht2 & Ht3 & Ht4 & Ht5 & _).
    subst out. unfold Signer.generateSignature, signer_fits.
    cbn [snd Signer.bump Signer.session Signer.verifierName Signer.epoch
         Signer.counter Metadata.new].
    change (Signer.expiresAt _ expiresIn nowMs) with ex.
    do 2 add_step.
    destruct (Z.ltb_spec 255 (blength (Buffer_from_string (Signer.verifierName s))))
      as [Hname|Hname].
    { destruct (Metadata.add _ TAG_PERSONALIZATION _) eqn:Hadd; [|discriminate].
      apply (f_equal returns) in Hadd. now rewrite add_oversized in Hadd. }
    add_step.
    rewrite Z.gtb_ltb, EPOCH_LENGTH_value.
    destruct (Z.ltb_spec (2 ^ 30) ex); [discriminate|].
    destruct (Z.ltb_spec ex 0); [discriminate|]. cbn [orb].
    destruct (Z.ltb_spec 255 (blength (Signer.epoch s))) as [Hepoch|Hepoch].
    { destruct (Metadata.add _ TAG_EPOCH _) eqn:Hadd; [|discriminate].
      apply (f_equal returns) in Hadd. now rewrite add_oversized in Hadd. }
    add_step. unfold Metadata.addUint32.
    rewrite writeUInt32BE_ok by lia. cbn [bind]. add_step.
    destruct (writeUInt32BE (Signer.counter s + 1)) eqn:Hctr; [|discriminate].
    intros _. repeat split; try lia.
    - destruct (Z.ltb_spec (Signer.counter s + 1) 0); [|lia].
      apply (f_equal returns) in Hctr. rewrite writeUInt32BE_out in Hctr by lia.
      discriminate.
    - destruct (Z.ltb_spec 4294967295 (Signer.counter s + 1)); [|lia].
      apply (f_equal returns) in Hctr. rewrite writeUInt32BE_out in Hctr by lia.
      discriminate. }
  split.
  - split; [exact Hneeds|]. intros Hok. now rewrite (Hfit Hok).
  - intros sig Hsig. assert (Hret : returns out = true) by now rewrite Hsig.
    apply Hneeds, Hfit in Hret. congruence.
Qed.

Lemma generateSignature_exhausted (s : Signer.t) (payload : bytes)
    (domain expiresIn nowMs : Z) :
  4294967295 <= Signer.counter s ->
  returns (Signer.generateSignature s payload domain expiresIn nowMs).2 = false.
Proof.
  intros Hmax. unfold Signer.generateSignature. cbn [snd].
  repeat match goal with
         | |- context [Metadata.add ?m ?t ?v] =>
             destruct (Metadata.add m t v); cbn [bind]; [|reflexivity]
         end.
  destruct (_ || _); [reflexivity|].
  repeat match goal with
         | |- context [Metadata.add ?m ?t ?v] =>
             destruct (Metadata.add m t v); cbn [bind]; [|reflexivity]
         end.
  destruct (Metadata.addUint32 _ TAG_EXPIRES_AT _); cbn [bind]; [|reflexivity].
  unfold Metadata.addUint32. cbn [Signer.bump Signer.counter].
  destruct (writeUInt32BE (Signer.counter s + 1)) eqn:Hctr; [|reflexivity].
  apply (f_equal returns) in Hctr. rewrite writeUInt32BE_out in Hctr by lia.
  discriminate.
Qed.

(** X5. The counter runs out.  Once the counter of a Signer has reached
    2^32 - 1, no call of [generateSignature] returns a signature any more:
    every later call throws, whatever its arguments, because the incremented
    counter no longer fits the four-byte field (and the counter keeps
    growing). *)
Theorem counter_exhaustion (calls : list Call) : forall s : Signer.t,
  4294967295 <= Signer.counter s ->
  Forall (fun o => returns o.2 = false /\ 4294967295 < Signer.counter o.1)
         (generateSignatures s calls).
Proof.
  induction calls as [|c rest IH]; intros s Hmax; cbn [generateSignatures].
  - constructor.
  - constructor.
    + split; [now apply generateSignature_exhausted|]. cbn. lia.
    + apply IH. cbn. lia.
Qed.

(** X6. A Signer built from a session info speaks in the vehicle's clock.
    The constructor succeeds exactly when the key agreement does; the Signer
    starts at the session info's counter and epoch; and an expiry computed
    later is the vehicle's clock time at the handshake, plus the whole
    seconds gone by on the local clock since, plus the time to live.  The
    first signature therefore carries the session info's counter plus one. *)
Theorem signer_from_session_info (k : Key) (name : string)
    (info : SessionInfo.t) (now0 : Z) :
  returns (Signer.new k name info now0) =
    returns (sessionKey k (SessionInfo.publicKey info)) /\
  (forall s, Signer.new k name info now0 = Ok s ->
     Signer.counter s = SessionInfo.counter info /\
     Signer.epoch s = SessionInfo.epoch info /\
     Signer.verifierName s = name /\
     sessionKey k (SessionInfo.publicKey info) = Ok (AuthSession.key (Signer.session s)) /\
     (forall expiresIn now1,
        Signer.expiresAt s expiresIn now1 =
          SessionInfo.clockTime info +
          (Signer.seconds now1 - Signer.seconds now0) + expiresIn) /\
     (forall payload domain expiresIn now1 sig,
        (Signer.generateSignature s payload domain expiresIn now1).2 = Ok sig ->
        SignatureData.counter (SignatureData.HMAC_PersonalizedData sig) =
          SessionInfo.counter info + 1 /\
        SignatureData.epoch (SignatureData.HMAC_PersonalizedData sig) =
          SessionInfo.epoch info)).
Proof.
  unfold Signer.new, sessionKey.
  destruct (AuthSession.new k (SessionInfo.publicKey info)) as [sess|e]; cbn [bind].
  - split; [reflexivity|]. intros s [= <-].
    do 4 (split; [reflexivity|]). split.
    + intros expiresIn now1. unfold Signer.expiresAt. cbn. lia.
    + intros payload domain expiresIn now1 sig Hsig.
      apply generateSignature_counter in Hsig as (Hc & He & _).
      rewrite Hc, He. split; reflexivity.
  - split; [reflexivity|]. discriminate.
Qed.

(** ** Further properties of [CarServer] *)

(** X7. Every call of [#sendRequest] hands exactly one buffer to the
    transport, the encoding of the request under the vehicle's VIN, before
    anything can fail; whatever the reply, the VIN and the private key of
    the object stay as they were. *)
Theorem sendRequest_frame (cs : CarServer.t) (req : Request.t)
    (reply : result bytes) (nowMs : Z) :
  let out := CarServer.sendRequest cs req reply nowMs in
  CarServer.sent out.1 = CarServer.sent cs ++ [(CarServer.vin cs, encodeRoutable req)] /\
  CarServer.vin out.1 = CarServer.vin cs /\
  CarServer.privateKey out.1 = CarServer.privateKey cs.
Proof. exact (sendRequest_frame_all cs req reply nowMs). Qed.

(** What [#sendRequest] does to the Signer, in every case. *)
Lemma sendRequest_signer_cases (cs : CarServer.t) (req : Request.t)
    (reply : result bytes) (nowMs : Z) :
  let out := CarServer.sendRequest cs req reply nowMs in
  (CarServer.signer out.1 = CarServer.signer cs /\
   forall sessionInfo, out.2 <> Ok (ReplySessionInfo sessionInfo)) \/
  (exists sg verdict,
     handshake_validated cs req reply nowMs sg verdict /\
     match verdict with
     | Ok true => CarServer.signer out.1 = Some sg /\
                  exists sessionInfo,
                    out.2 = Ok (ReplySessionInfo sessionInfo) /\
                    Signer.new (CarServer.privateKey cs) (CarServer.vin cs)
                      sessionInfo nowMs = Ok sg
     | Ok false => CarServer.signer out.1 = None /\
                   out.2 = Throw (Error "Session info hmac invalid")
     | Throw e => CarServer.signer out.1 = Some sg /\ out.2 = Throw e
     end).
Proof.
  cbn zeta. unfold CarServer.sendRequest.
  destruct reply as [bufResp|e]; [|left; cbn; split; [reflexivity|discriminate]].
  destruct (decodeRoutable bufResp) as [res|e] eqn:Hdec;
    [|left; cbn; split; [reflexivity|discriminate]].
  destruct (CarServer.checkResponse req res) as [ru|e] eqn:Hchk;
    [|left; cbn; split; [reflexivity|discriminate]].
  unfold CarServer.interpret.
  destruct (RoutableMessage.sessionInfo res) as [enc|] eqn:Hsi.
  2:{ left. destruct (RoutableMessage.protobufMessageAsBytes res) as [p|];
        [destruct (decodeResponse p)|]; cbn; split; try reflexivity; discriminate. }
  destruct (RoutableMessage.signatureData res) as [sd|] eqn:Hsd.
  2:{ left. destruct (RoutableMessage.protobufMessageAsBytes res) as [p|];
        [destruct (decodeResponse p)|]; cbn; split; try reflexivity; discriminate. }
  destruct (mbind RoutableMessage.tag (RoutableMessage.sessionInfoTag sd))
    as [tag|] eqn:Htag; [|left; cbn; split; [reflexivity|discriminate]].
  destruct (decodeSessionInfo enc) as [si|e] eqn:Hdsi;
    [|left; cbn; split; [reflexivity|discriminate]].
  cbn [CarServer.privateKey CarServer.vin].
  destruct (Signer.new (CarServer.privateKey cs) (CarServer.vin cs) si nowMs)
    as [sg|e] eqn:Hnew; [|left; cbn; split; [reflexivity|discriminate]].
  right. exists sg, (Signer.validateSessionInfo sg enc ru tag). split.
  - exists bufResp, res, ru, enc, sd, tag, si. auto 10.
  - destruct (Signer.validateSessionInfo sg enc ru tag) as [[|]|e]; cbn; eauto.
Qed.

Lemma sendRequest_signer_all (cs : CarServer.t) (req : Request.t)
    (reply : result bytes) (nowMs : Z) :
  let out := CarServer.sendRequest cs req reply nowMs in
  (CarServer.signer out.1 = CarServer.signer cs \/
   exists sg verdict,
     handshake_validated cs req reply nowMs sg verdict /\
     CarServer.signer out.1 =
       match verdict with Ok false => None | _ => Some sg end) /\
  (forall sessionInfo, out.2 = Ok (ReplySessionInfo sessionInfo) ->
     exists sg,
       handshake_validated cs req reply nowMs sg (Ok true) /\
       Signer.new (CarServer.privateKey cs) (CarServer.vin cs) sessionInfo nowMs
         = Ok sg /\
       CarServer.signer out.1 = Some sg) /\
  (forall response, out.2 = Ok (ReplyResponse response) ->
     CarServer.signer out.1 = CarServer.signer cs).
Proof.
  cbn zeta.
  destruct (sendRequest_signer_cases cs req reply nowMs)
    as [[Hsame Hno]|(sg & verdict & Hval & Hcase)]; cbn zeta in *.
  - split; [now left|]. split; [|auto].
    intros si Hsi. now apply Hno in Hsi.
  - split; [|split].
    + right. exists sg, verdict. split; [exact Hval|].
      destruct verdict as [[|]|e]; tauto.
    + intros si Hsi. exists sg.
      destruct verdict as [[|]|e].
      * destruct Hcase as (Hsg & si' & Hout & Hnew).
        rewrite Hout in Hsi. injection Hsi as <-. auto.
      * destruct Hcase as [_ Hout]. congruence.
      * destruct Hcase as [_ Hout]. congruence.
    + intros response Hresp.
      destruct verdict as [[|]|e].
      * destruct Hcase as (_ & si' & Hout & _). congruence.
      * destruct Hcase as [_ Hout]. congruence.
      * destruct Hcase as [_ Hout]. congruence.
Qed.

(** X8. [#sendRequest] touches the Signer on lines 47 to 49 only.  After
    any call the Signer is the one from before, unless the reply passed the
    checks, carried session info with a tag and a Signer could be built from
    it: then the new Signer is installed, and taken away again only when its
    validation returned false.  A call that returns the session info has
    installed a Signer whose validation returned true; a call that returns a
    response payload has left the Signer alone. *)
Theorem sendRequest_signer (cs : CarServer.t) (req : Request.t)
    (reply : result bytes) (nowMs : Z) :
  let out := CarServer.sendRequest cs req reply nowMs in
  (CarServer.signer out.1 = CarServer.signer cs \/
   exists sg verdict,
     handshake_validated cs req reply nowMs sg verdict /\
     CarServer.signer out.1 =
       match verdict with Ok false => None | _ => Some sg end) /\
  (forall sessionInfo, out.2 = Ok (ReplySessionInfo sessionInfo) ->
     exists sg,
       handshake_validated cs req reply nowMs sg (Ok true) /\
       Signer.new (CarServer.privateKey cs) (CarServer.vin cs) sessionInfo nowMs
         = Ok sg /\
       CarServer.signer out.1 = Some sg) /\
  (forall response, out.2 = Ok (ReplyResponse response) ->
     CarServer.signer out.1 = CarServer.signer cs).
Proof. exact (sendRequest_signer_all cs req reply nowMs). Qed.

(** X9. [startSession] and its three ways to end.  When the validation of
    the handshake returns true the call returns and the new Signer is in
    place.  When the call returns and the Signer has changed, the Signer in
    place is one whose validation returned true.  And the call also returns,
    with the Signer untouched, when the reply is an ordinary response
    payload: a normal return does not by itself mean that a session was
    established. *)
Theorem startSession_outcomes (cs : CarServer.t) (address uuid : bytes)
    (reply : result bytes) (nowMs : Z) :
  let req := handshakeRequest (CarServer.privateKey cs) address uuid in
  let out := CarServer.startSession cs address uuid reply nowMs in
  (forall sg, handshake_validated cs req reply nowMs sg (Ok true) ->
     out.2 = Ok tt /\ CarServer.signer out.1 = Some sg) /\
  (out.2 = Ok tt -> CarServer.signer out.1 <> CarServer.signer cs ->
     exists sg, handshake_validated cs req reply nowMs sg (Ok true) /\
                CarServer.signer out.1 = Some sg) /\
  (forall response,
     (CarServer.sendRequest cs req reply nowMs).2 = Ok (ReplyResponse response) ->
     out.2 = Ok tt /\ CarServer.signer out.1 = CarServer.signer cs).
Proof.
  cbn zeta. rewrite startSession_sendRequest. cbn zeta. cbn [fst snd].
  split; [|split].
  - intros sg Hval. apply sendRequest_validated in Hval. cbn zeta in Hval.
    destruct Hval as [Hsg Hret].
    split; [|exact Hsg].
    destruct (CarServer.sendRequest _ _ _ _).2; [reflexivity|discriminate].
  - intros Hok Hchanged.
    destruct (sendRequest_signer_all cs
                (handshakeRequest (CarServer.privateKey cs) address uuid) reply nowMs)
      as (_ & Hinfo & Hresp).
    cbn zeta in Hinfo, Hresp.
    destruct (CarServer.sendRequest _ _ _ _).2 as [[si|response]|e] eqn:Hout;
      [| |discriminate].
    + destruct (Hinfo si eq_refl) as (sg & Hval & _ & Hsg). eauto.
    + exfalso. apply Hchanged. exact (Hresp response eq_refl).
  - intros response Hout.
    destruct (sendRequest_signer_all cs
                (handshakeRequest (CarServer.privateKey cs) address uuid) reply nowMs)
      as (_ & _ & Hresp).
    cbn zeta in Hresp. rewrite Hout. split; [reflexivity|]. now apply (Hresp response).
Qed.

(** X10. A command that is answered with session info instead of a
    response payload is reported as a success: when the reply to the signed
    envelope carries session info whose tag validates, [#requestAction]
    returns normally without having seen any status, and the Signer that
    signed the command has been replaced by a new one that starts at the
    session info's counter. *)
Theorem command_answered_by_session_info (cs : CarServer.t)
    (action : VehicleAction) (address uuid : bytes) (reply : result bytes)
    (nowSign nowMs : Z) (cs' : CarServer.t) (sessionInfo : SessionInfo.t) :
  command_answered cs action address uuid reply nowSign nowMs cs'
    (ReplySessionInfo sessionInfo) ->
  CarServer.requestAction cs action address uuid reply nowSign nowMs = (cs', Ok tt) /\
  exists sg,
    Signer.new (CarServer.privateKey cs) (CarServer.vin cs) sessionInfo nowMs = Ok sg /\
    CarServer.signer cs' = Some sg /\
    Signer.counter sg = SessionInfo.counter sessionInfo.
Proof.
  intros Hanswered.
  split; [now rewrite (requestAction_answered _ _ _ _ _ _ _ _ _ Hanswered)|].
  destruct Hanswered as (sg0 & signature & Hsg0 & Hsign & Hsend).
  match type of Hsend with
  | CarServer.sendRequest ?c ?r _ _ = _ =>
      destruct (sendRequest_signer_all c r reply nowMs) as (_ & Hinfo & _)
  end.
  cbn zeta in Hinfo. rewrite Hsend in Hinfo. cbn [fst snd] in Hinfo.
  destruct (Hinfo sessionInfo eq_refl) as (sg & _ & Hnew & Hsg).
  cbn [CarServer.set_signer CarServer.privateKey CarServer.vin] in Hnew.
  exists sg. split; [exact Hnew|]. split; [exact Hsg|].
  unfold Signer.new in Hnew.
  destruct (AuthSession.new _ _); [|discriminate].
  cbn [bind] in Hnew. injection Hnew as <-. reflexivity.
Qed.

(** X11. What a command does to the transport and to the counter.  With a
    Signer installed: if signing throws, nothing is sent and the incremented
    counter stays; if signing succeeds, exactly one buffer is sent, the
    encoding of the envelope that carries the encoded action and that
    signature, whatever the transport then answers; and if the transport
    fails, the call throws the transport's error and the incremented counter
    stays. *)
Theorem command_effects (cs : CarServer.t) (action : VehicleAction)
    (address uuid : bytes) (reply : result bytes) (nowSign nowMs : Z)
    (sg : Signer.t) :
  CarServer.signer cs = Some sg ->
  let signed := (Signer.generateSignature sg (encodeAction action)
                   DOMAIN_INFOTAINMENT 5 nowSign).2 in
  let out := CarServer.requestAction cs action address uuid reply nowSign nowMs in
  (forall e, signed = Throw e ->
     out = (CarServer.set_signer cs (Some (Signer.bump sg)), Throw e) /\
     CarServer.sent out.1 = CarServer.sent cs) /\
  (forall signature, signed = Ok signature ->
     CarServer.sent out.1 =
       CarServer.sent cs ++
         [(CarServer.vin cs,
           encodeRoutable (commandRequest (encodeAction action) signature address uuid))] /\
     (forall e, reply = Throw e ->
        out.2 = Throw e /\ CarServer.signer out.1 = Some (Signer.bump sg))).
Proof.
  intros Hsg. cbn zeta. unfold CarServer.requestAction. rewrite Hsg.
  destruct (Signer.generateSignature sg _ _ _ _) as [sg' signed] eqn:Hgen.
  assert (Hsg' : sg' = Signer.bump sg).
  { change sg' with (sg', signed).1. rewrite <- Hgen. apply generateSignature_signer. }
  subst sg'. cbn [snd]. split.
  - intros e ->. split; reflexivity.
  - intros signature ->.
    match goal with
    | |- context [CarServer.sendRequest ?c ?r reply nowMs] =>
        pose proof (sendRequest_frame_all c r reply nowMs) as Hframe;
        change r with (commandRequest (encodeAction action) signature address uuid)
          in Hframe |- *;
        destruct (CarServer.sendRequest c
                    (commandRequest (encodeAction action) signature address uuid)
                    reply nowMs) as [cs2 response] eqn:Hsend
    end.
    cbn zeta in Hframe. destruct Hframe as (Hsent & _ & _).
    cbn [fst snd CarServer.set_signer CarServer.sent CarServer.vin] in *.
    split; [exact Hsent|].
    intros e ->. unfold CarServer.sendRequest in Hsend.
    injection Hsend as <- <-. split; reflexivity.
Qed.

(** X12. Which part of a checked response is read.  Once the reply has
    passed the checks: session info together with a signature block is a
    handshake, and without a tag in that block the call throws, even when a
    payload is there as well; in every other case (session info alone
    included) the Signer stays as it is and the call returns the decoded
    payload, or throws when there is no payload. *)
Theorem checked_response_parts (cs : CarServer.t) (req : Request.t)
    (bufResp : bytes) (nowMs : Z) (res : RoutableMessage.t) (requestUuid : bytes) :
  decodeRoutable bufResp = Ok res ->
  CarServer.checkResponse req res = Ok requestUuid ->
  let out := CarServer.sendRequest cs req (Ok bufResp) nowMs in
  (forall encoded sd,
     RoutableMessage.sessionInfo res = Some encoded ->
     RoutableMessage.signatureData res = Some sd ->
     mbind RoutableMessage.tag (RoutableMessage.sessionInfoTag sd) = None ->
     out.2 = Throw (Error "Missing sessionInfo tag") /\
     CarServer.signer out.1 = CarServer.signer cs) /\
  (RoutableMessage.sessionInfo res = None \/ RoutableMessage.signatureData res = None ->
     CarServer.signer out.1 = CarServer.signer cs /\
     out.2 = match RoutableMessage.protobufMessageAsBytes res with
             | Some payload =>
                 let* response := decodeResponse payload in Ok (ReplyResponse response)
             | None => Throw (Error "Invalid response")
             end).
Proof.
  intros Hdec Hchk. cbn zeta.
  rewrite (sendRequest_checked _ _ _ _ _ Hdec). cbn zeta. rewrite Hchk.
  unfold CarServer.interpret. split.
  - intros encoded sd -> -> ->. cbn. auto.
  - intros Hnone.
    destruct (RoutableMessage.sessionInfo res) as [enc|];
      [destruct Hnone as [Hn|Hn]; [discriminate|rewrite Hn]|];
      (destruct (RoutableMessage.protobufMessageAsBytes res) as [p|];
       [destruct (decodeResponse p)|]; cbn; auto).
Qed.

End Verification.

(** * Verification of [src/FleetApi.js] *)

Section FleetApiProperties.
Context {runtime : JsRuntime}.

(** ** [getHostFromToken] *)

Lemma split_dot_nonempty (s : string) : split_dot s <> [].
Proof.
  induction s as [|c s IH]; cbn; [discriminate|].
  destruct (Ascii.eqb c "."); [discriminate|].
  destruct (split_dot s); [contradiction|discriminate].
Qed.

Lemma split_dot_length (s : string) : length (split_dot s) = S (dots s).
Proof.
  unfold dots. induction s as [|c s IH]; [reflexivity|].
  cbn [split_dot list_ascii_of_string count_occ].
  destruct (Ascii.eqb_spec c ".") as [->|Hc].
  - destruct (ascii_dec "." "."); [|contradiction]. cbn. now rewrite IH.
  - destruct (ascii_dec c "."); [contradiction|].
    destruct (split_dot s) as [|part parts] eqn:Hs; [now apply split_dot_nonempty in Hs|].
    cbn in *. exact IH.
Qed.

Lemma split_dot_plain (p : string) : dots p = 0%nat -> split_dot p = [p].
Proof.
  unfold dots. induction p as [|c p IH]; [reflexivity|].
  cbn [split_dot list_ascii_of_string count_occ].
  destruct (ascii_dec c ".") as [->|Hc]; [discriminate|]. intros Hp.
  destruct (Ascii.eqb_spec c "."); [contradiction|]. now rewrite IH.
Qed.

Lemma split_dot_app (p rest : string) :
  dots p = 0%nat -> split_dot (p ++ String "." rest) = p :: split_dot rest.
Proof.
  unfold dots. induction p as [|c p IH]; [reflexivity|].
  change (String c p ++ String "." rest)%string
    with (String c (p ++ String "." rest)%string).
  cbn [split_dot list_ascii_of_string count_occ].
  destruct (ascii_dec c ".") as [->|Hc]; [discriminate|]. intros Hp.
  destruct (Ascii.eqb_spec c "."); [contradiction|]. now rewrite IH.
Qed.

(** X13. [getHostFromToken] looks at the shape of the token first: a token
    that does not hold exactly two dots throws the invalid-token error and
    nothing is parsed.  For a token made of a header, a payload and a
    signature with a dot between them, it is the payload, the text between
    the two dots, that is decoded, and the host is looked for in the
    audience list of the decoded object. *)
Theorem token_parts (accesToken : string) :
  (dots accesToken <> 2%nat ->
     getHostFromToken accesToken = Throw (Error "Invalid OAuth access token")) /\
  (forall header payload signature : string,
     dots header = 0%nat -> dots payload = 0%nat -> dots signature = 0%nat ->
     accesToken = (header ++ "." ++ payload ++ "." ++ signature)%string ->
     getHostFromToken accesToken =
       (let* info := parseTokenPayload payload in
        match aud info with
        | None => Throw (TypeError "info.aud is not iterable")
        | Some aud => hostLoop (ou_code info) defaultHost aud
        end)).
Proof.
  unfold getHostFromToken. split.
  - intros Hdots. rewrite split_dot_length.
    destruct (Nat.eqb_spec (S (dots accesToken)) 3); [lia|reflexivity].
  - intros header payload signature Hh Hp Hs ->.
    change (header ++ "." ++ payload ++ "." ++ signature)%string
      with (header ++ String "." (payload ++ String "." signature))%string.
    rewrite (split_dot_app header) by assumption.
    rewrite (split_dot_app payload) by assumption.
    rewrite (split_dot_plain signature) by assumption.
    reflexivity.
Qed.

Lemma last_cons {A : Type} (a d : A) (l : list A) :
  List.last (a :: l) d = List.last l a.
Proof.
  revert a d. induction l as [|b l IH]; intros a d; [reflexivity|].
  change (List.last (a :: b :: l) d) with (List.last (b :: l) d).
  now rewrite (IH b d), (IH b a).
Qed.

(** X14. The loop of [getHostFromToken] against its description.  With a
    region code in the token, the loop returns, among the hosts that the
    audience URLs stand for, the first that contains the lower-cased region
    code between dots; without such a host, the last one; without any host,
    the host it started from.  Without a region code it returns the starting
    host when no URL stands for a host, and throws a TypeError as soon as
    one does. *)
Theorem hostLoop_picks (aud : list string) : forall host : string,
  (forall code, hostLoop (Some code) host aud = Ok (pickedHost code host aud)) /\
  (omap audienceHost aud = [] -> hostLoop None host aud = Ok host) /\
  (omap audienceHost aud <> [] -> returns (hostLoop None host aud) = false).
Proof.
  unfold pickedHost.
  induction aud as [|url rest IH]; intros host.
  - cbn. split; [reflexivity|]. split; [reflexivity|contradiction].
  - cbn [hostLoop omap list_omap].
    change (omap audienceHost (url :: rest))
      with (match audienceHost url with
            | Some h => h :: omap audienceHost rest
            | None => omap audienceHost rest
            end).
    destruct (audienceHost url) as [h|].
    + split; [|split].
      * intros code. cbn [find].
        destruct (includes h _); [reflexivity|].
        rewrite (proj1 (IH h)), last_cons. reflexivity.
      * discriminate.
      * reflexivity.
    + apply IH.
Qed.

Lemma audienceHost_checked (url h : string) :
  audienceHost url = Some h ->
  host_checked h /\ startsWith url "https://auth.tesla." = false.
Proof.
  unfold audienceHost, host_checked.
  destruct (startsWith url "https://auth.tesla."); [discriminate|].
  set (u := if endsWith _ "/" then _ else _).
  destruct (host_chars u) eqn:Hc; destruct (startsWith u "fleet-api.") eqn:Hp;
    destruct (endsWith u ".tesla.com") eqn:H1;
    destruct (endsWith u ".tesla.cn") eqn:H2;
    destruct (endsWith u ".teslamotors.com") eqn:H3;
    cbn; try discriminate; intros [= Hu]; rewrite <- Hu; auto 10.
Qed.

Lemma defaultHost_checked : host_checked defaultHost.
Proof. unfold host_checked. vm_compute. auto. Qed.

Lemma hostLoop_checked (ou : option string) (aud : list string) :
  forall host h : string,
    host_checked host -> hostLoop ou host aud = Ok h -> host_checked h.
Proof.
  induction aud as [|url rest IH]; intros host h Hhost; cbn [hostLoop].
  - now intros [= <-].
  - destruct (audienceHost url) as [h'|] eqn:Hurl; [|now apply IH].
    apply audienceHost_checked in Hurl as [Hh' _].
    destruct ou as [code|]; [|discriminate].
    destruct (includes h' _); [now intros [= <-]|now apply IH].
Qed.

(** ** [FleetApi]: the constructor *)

(** X15. The constructor never lets the token choose an arbitrary server.
    It throws without an access token; and when it returns, the base URL of
    the API is [https://] followed by a host and [/api/1], where the host
    consists of letters, digits, dashes and dots only, starts with
    [fleet-api.] and ends with [.tesla.com], [.tesla.cn] or
    [.teslamotors.com].  No request has been made yet, the timeout is ten
    seconds and no refresh callback is set. *)
Theorem constructor_host (client_id : string) (access_token refresh_token : option string) :
  (access_token = None ->
     returns (FleetApi.new client_id access_token refresh_token) = false) /\
  (forall api, FleetApi.new client_id access_token refresh_token = Ok api ->
     exists token host,
       access_token = Some token /\
       getHostFromToken token = Ok host /\
       host_checked host /\
       FleetApi.baseApi api = ("https://" ++ host ++ "/api/1")%string /\
       FleetApi.client_id api = client_id /\
       FleetApi.access_token api = access_token /\
       FleetApi.refresh_token api = refresh_token /\
       FleetApi.timeout api = 10000 /\
       FleetApi.cb_refreshToken api = None /\
       FleetApi.calls api = []).
Proof.
  unfold FleetApi.new. split.
  - intros ->. reflexivity.
  - intros api. destruct access_token as [token|]; [|discriminate].
    destruct (getHostFromToken token) as [host|e] eqn:Hhost; [|discriminate].
    cbn [bind]. intros [= <-]. exists token, host.
    split; [reflexivity|]. split; [exact Hhost|]. split; [|cbn; auto 10].
    unfold getHostFromToken in Hhost.
    destruct (negb _); [discriminate|].
    destruct (parseTokenPayload _) as [info|]; [|discriminate]. cbn [bind] in Hhost.
    destruct (aud info) as [a|]; [|discriminate].
    eapply hostLoop_checked; [apply defaultHost_checked|exact Hhost].
Qed.

(** ** [FleetApi.refreshToken] *)

Lemma fromStatus_reason (message : string) (status : Z) :
  ApiError.new message (Some (ApiError.fromStatus status)) =
    ApiError.mk message (ApiError.fromStatus status).
Proof.
  unfold ApiError.new, ApiError.fromStatus.
  repeat match goal with
         | |- context [if ?b =? ?c then _ else _] => destruct (b =? c)
         end; reflexivity.
Qed.

Lemma refreshToken_unfold (net : Network) (api : FleetApi.t)
    (refresh_token : option string) (retry : nat) :
  FleetApi.refreshToken net api refresh_token retry =
    match FleetApi.refreshAttempt net api refresh_token with
    | (api1, Returned oauth) => (api1, Returned oauth)
    | (api1, Thrown error) =>
        if (retry <? 3)%nat
        then FleetApi.refreshToken net (FleetApi.sleep api1 500) refresh_token (retry + 1)
        else (api1, Thrown (append_message error " - Unable to refresh Token"))
    end.
Proof.
  simp refreshToken.
  destruct (FleetApi.refreshAttempt net api refresh_token) as [api1 [oauth|error]];
    simp refreshToken; [reflexivity|].
  destruct (lt_dec retry 3) as [Hlt|Hge]; simp refreshToken.
  - destruct (Nat.ltb_spec retry 3); [reflexivity|lia].
  - destruct (Nat.ltb_spec retry 3); [lia|reflexivity].
Qed.

Lemma refreshAttempt_frame (net : Network) (api : FleetApi.t)
    (refresh_token : option string) :
  let out := FleetApi.refreshAttempt net api refresh_token in
  FleetApi.calls out.1 =
    FleetApi.calls api ++
      [PostToken (FleetApi.client_id api) refresh_token (FleetApi.timeout api)] /\
  FleetApi.client_id out.1 = FleetApi.client_id api /\
  FleetApi.timeout out.1 = FleetApi.timeout api /\
  FleetApi.baseApi out.1 = FleetApi.baseApi api /\
  FleetApi.cb_refreshToken out.1 = FleetApi.cb_refreshToken api /\
  FleetApi.slept out.1 = FleetApi.slept api.
Proof.
  unfold FleetApi.refreshAttempt, FleetApi.oauthCall.
  destruct (net _) as [[| |o]|status text data|message code];
    try (cbn; repeat split; reflexivity).
  cbn. destruct (FleetApi.cb_refreshToken api) as [callback|] eqn:Hcb;
    [|cbn; rewrite ?Hcb; repeat split; reflexivity].
  destruct (callback _ _); cbn; rewrite ?Hcb; repeat split; reflexivity.
Qed.

Lemma refreshToken_run (net : Network) (refresh_token : option string) (k : nat) :
  forall (retry : nat) (api : FleetApi.t),
  (3 - retry)%nat = k ->
  let out := FleetApi.refreshToken net api refresh_token retry in
  exists n : nat,
    (1 <= n <= S k)%nat /\
    FleetApi.calls out.1 =
      FleetApi.calls api ++
        repeat (PostToken (FleetApi.client_id api) refresh_token (FleetApi.timeout api)) n /\
    FleetApi.slept out.1 = FleetApi.slept api + 500 * Z.of_nat (n - 1) /\
    FleetApi.client_id out.1 = FleetApi.client_id api /\
    FleetApi.timeout out.1 = FleetApi.timeout api /\
    FleetApi.baseApi out.1 = FleetApi.baseApi api /\
    FleetApi.cb_refreshToken out.1 = FleetApi.cb_refreshToken api /\
    (forall e, out.2 = Thrown e ->
       n = S k /\ exists e0, e = append_message e0 " - Unable to refresh Token").
Proof.
  induction k as [|k IH]; intros retry api Hk; cbn zeta;
    rewrite refreshToken_unfold;
    pose proof (refreshAttempt_frame net api refresh_token) as Hframe;
    cbn zeta in Hframe;
    destruct (FleetApi.refreshAttempt net api refresh_token) as [api1 [oauth|error]];
    cbn [fst snd] in Hframe |- *;
    destruct Hframe as (Hcalls & Hid & Htime & Hbase & Hcb & Hslept).
  - exists 1%nat. cbn [repeat]. rewrite Hslept.
    split; [lia|]. split; [exact Hcalls|]. split; [cbn; lia|].
    do 4 (split; [assumption|]). discriminate.
  - destruct (Nat.ltb_spec retry 3); [lia|]. cbn [fst snd].
    exists 1%nat. cbn [repeat]. rewrite Hslept.
    split; [lia|]. split; [exact Hcalls|]. split; [cbn; lia|].
    do 4 (split; [assumption|]). intros e [= <-]. eauto.
  - exists 1%nat. cbn [repeat]. rewrite Hslept.
    split; [lia|]. split; [exact Hcalls|]. split; [cbn; lia|].
    do 4 (split; [assumption|]). discriminate.
  - destruct (Nat.ltb_spec retry 3); [|lia].
    destruct (IH (retry + 1)%nat (FleetApi.sleep api1 500) ltac:(lia))
      as (n & Hn & Hc & Hs & Hi & Ht & Hb & Hk' & Hthrown).
    cbn zeta in *. cbn [FleetApi.sleep FleetApi.calls FleetApi.slept FleetApi.client_id
      FleetApi.timeout FleetApi.baseApi FleetApi.cb_refreshToken] in *.
    exists (S n). rewrite Hc, Hs, Hi, Ht, Hb, Hk', Hcalls, Hid, Htime, Hslept.
    cbn [repeat]. rewrite <- app_assoc. cbn [app].
    split; [lia|]. split; [reflexivity|]. split; [lia|].
    do 4 (split; [auto|]).
    intros e He. apply Hthrown in He as [-> He]. auto.
Qed.

(** X16. [refreshToken] gives up after three attempts.  Called with the
    default [retry = 1] it posts the same token request at least once and at
    most three times, waits 500 ms between two attempts and nowhere else,
    and changes neither the client id, the timeout, the base URL nor the
    callback.  It throws only after the third attempt, and what it throws
    then carries the note that the token could not be refreshed.  Called
    with [retry] at 3 or more it makes one attempt. *)
Theorem refreshToken_attempts (net : Network) (api : FleetApi.t)
    (refresh_token : option string) :
  (let out := FleetApi.refreshToken net api refresh_token 1 in
   exists n : nat,
     (1 <= n <= 3)%nat /\
     FleetApi.calls out.1 =
       FleetApi.calls api ++
         repeat (PostToken (FleetApi.client_id api) refresh_token (FleetApi.timeout api)) n /\
     FleetApi.slept out.1 = FleetApi.slept api + 500 * Z.of_nat (n - 1) /\
     FleetApi.client_id out.1 = FleetApi.client_id api /\
     FleetApi.timeout out.1 = FleetApi.timeout api /\
     FleetApi.baseApi out.1 = FleetApi.baseApi api /\
     FleetApi.cb_refreshToken out.1 = FleetApi.cb_refreshToken api /\
     (forall e, out.2 = Thrown e ->
        n = 3%nat /\ exists e0, e = append_message e0 " - Unable to refresh Token")) /\
  (forall retry, (3 <= retry)%nat ->
     length (FleetApi.calls (FleetApi.refreshToken net api refresh_token retry).1) =
       S (length (FleetApi.calls api)) /\
     FleetApi.slept (FleetApi.refreshToken net api refresh_token retry).1 =
       FleetApi.slept api).
Proof.
  split.
  - exact (refreshToken_run net refresh_token 2 1 api eq_refl).
  - intros retry Hretry.
    destruct (refreshToken_run net refresh_token 0 retry api ltac:(lia))
      as (n & Hn & Hc & Hs & _).
    cbn zeta in *. assert (n = 1%nat) as -> by lia.
    rewrite Hc, Hs, length_app. cbn. split; lia.
Qed.

Lemma rejected_fails (o : AxiosOutcome) :
  is_rejected o = true -> attempt_fails o = true.
Proof. now destruct o. Qed.

Lemma attempt_failed (net : Network) (api : FleetApi.t) (refresh_token : option string) :
  attempt_fails (net (length (FleetApi.calls api))) = true ->
  FleetApi.refreshAttempt net api refresh_token =
    (FleetApi.called api
       (PostToken (FleetApi.client_id api) refresh_token (FleetApi.timeout api)),
     Thrown (attempt_error (net (length (FleetApi.calls api))))).
Proof.
  unfold FleetApi.refreshAttempt, FleetApi.oauthCall, attempt_error.
  destruct (net _) as [[| |o]|status text data|message code];
    try discriminate; intros _; cbn; rewrite ?fromStatus_reason; reflexivity.
Qed.

Lemma attempt_resolved (net : Network) (api : FleetApi.t) (refresh_token : option string)
    (o : Json) :
  FleetApi.cb_refreshToken api = None ->
  net (length (FleetApi.calls api)) = Resolved (JsValue o) ->
  FleetApi.refreshAttempt net api refresh_token =
    (FleetApi.set_tokens
       (FleetApi.called api
          (PostToken (FleetApi.client_id api) refresh_token (FleetApi.timeout api)))
       (json_access_token o) (json_refresh_token o),
     Returned (JsValue o)).
Proof.
  intros Hcb Hnet. unfold FleetApi.refreshAttempt, FleetApi.oauthCall.
  rewrite Hnet. cbn. now rewrite Hcb.
Qed.

Lemma refreshToken_cases (net : Network) (api : FleetApi.t)
    (refresh_token : option string) :
  FleetApi.cb_refreshToken api = None ->
  let n0 := length (FleetApi.calls api) in
  let out := FleetApi.refreshToken net api refresh_token 1 in
  (forall (k : nat) (o : Json),
     (k < 3)%nat ->
     (forall i, (i < k)%nat -> attempt_fails (net (n0 + i)%nat) = true) ->
     net (n0 + k)%nat = Resolved (JsValue o) ->
     out.2 = Returned (JsValue o) /\
     FleetApi.access_token out.1 = json_access_token o /\
     FleetApi.refresh_token out.1 = json_refresh_token o /\
     length (FleetApi.calls out.1) = (n0 + k + 1)%nat /\
     FleetApi.slept out.1 = FleetApi.slept api + 500 * Z.of_nat k) /\
  ((forall i, (i < 3)%nat -> attempt_fails (net (n0 + i)%nat) = true) ->
     out.2 = Thrown (append_message (attempt_error (net (n0 + 2)%nat))
                       " - Unable to refresh Token") /\
     FleetApi.access_token out.1 = FleetApi.access_token api /\
     FleetApi.refresh_token out.1 = FleetApi.refresh_token api /\
     length (FleetApi.calls out.1) = (n0 + 3)%nat /\
     FleetApi.slept out.1 = FleetApi.slept api + 1000).
Proof.
  intros Hcb n0 out. subst out.
  set (P := PostToken (FleetApi.client_id api) refresh_token (FleetApi.timeout api)).
  set (api1 := FleetApi.sleep (FleetApi.called api P) 500).
  set (api2 := FleetApi.sleep (FleetApi.called api1 P) 500).
  assert (Hlen1 : length (FleetApi.calls api1) = (n0 + 1)%nat)
    by (cbn; rewrite length_app; reflexivity).
  assert (Hlen2 : length (FleetApi.calls api2) = (n0 + 2)%nat)
    by (cbn; rewrite !length_app; cbn; fold n0; lia).
  assert (Hstep0 : attempt_fails (net (n0 + 0)%nat) = true ->
    FleetApi.refreshToken net api refresh_token 1 =
    FleetApi.refreshToken net api1 refresh_token 2).
  { intros Hrej. rewrite Nat.add_0_r in Hrej.
    rewrite refreshToken_unfold, (attempt_failed net api refresh_token Hrej).
    reflexivity. }
  assert (Hstep1 : attempt_fails (net (n0 + 1)%nat) = true ->
    FleetApi.refreshToken net api1 refresh_token 2 =
    FleetApi.refreshToken net api2 refresh_token 3).
  { intros Hrej. rewrite <- Hlen1 in Hrej.
    rewrite refreshToken_unfold, (attempt_failed net api1 refresh_token Hrej).
    reflexivity. }
  split.
  - intros k o Hk Hbefore Hnet.
    destruct k as [|[|[|k]]]; [| | |lia].
    + rewrite Nat.add_0_r in Hnet.
      rewrite refreshToken_unfold, (attempt_resolved net api refresh_token o Hcb Hnet).
      cbn. rewrite length_app. cbn. fold n0. repeat split; lia.
    + rewrite Hstep0 by (apply Hbefore; lia).
      rewrite <- Hlen1 in Hnet.
      rewrite refreshToken_unfold,
        (attempt_resolved net api1 refresh_token o Hcb Hnet).
      cbn. rewrite !length_app. cbn. fold n0. repeat split; lia.
    + rewrite Hstep0, Hstep1 by (apply Hbefore; lia).
      rewrite <- Hlen2 in Hnet.
      rewrite refreshToken_unfold,
        (attempt_resolved net api2 refresh_token o Hcb Hnet).
      cbn. rewrite !length_app. cbn. fold n0. repeat split; lia.
  - intros Hall.
    rewrite Hstep0, Hstep1 by (apply Hall; lia).
    assert (Hrej : attempt_fails (net (length (FleetApi.calls api2))) = true)
      by (rewrite Hlen2; apply Hall; lia).
    rewrite refreshToken_unfold, (attempt_failed net api2 refresh_token Hrej).
    rewrite Hlen2. cbn.
    rewrite !length_app. cbn. fold n0. repeat split; lia.
Qed.

(** X17. Which reply decides a refresh (no callback set, [retry = 1]).  An
    attempt fails when its token request is rejected, and also when the
    request resolves with [null] or [undefined], because line 100 then
    throws inside the [try] block.  If the first attempt that does not fail
    is the one after k failed ones (k < 3), [refreshToken] returns that
    reply, the access and refresh token of the object are the ones of the
    reply, k + 1 requests were made and 500 ms waited k times.  If all three
    attempts fail it throws the error of the third attempt with the note
    appended to its message, after three requests and two waits, and both
    tokens are the ones from before.  Every run falls under one of the two
    cases. *)
Theorem refreshToken_result (net : Network) (api : FleetApi.t)
    (refresh_token : option string) :
  FleetApi.cb_refreshToken api = None ->
  let n0 := length (FleetApi.calls api) in
  let out := FleetApi.refreshToken net api refresh_token 1 in
  (forall (k : nat) (o : Json),
     (k < 3)%nat ->
     (forall i, (i < k)%nat -> attempt_fails (net (n0 + i)%nat) = true) ->
     net (n0 + k)%nat = Resolved (JsValue o) ->
     out.2 = Returned (JsValue o) /\
     FleetApi.access_token out.1 = json_access_token o /\
     FleetApi.refresh_token out.1 = json_refresh_token o /\
     length (FleetApi.calls out.1) = (n0 + k + 1)%nat /\
     FleetApi.slept out.1 = FleetApi.slept api + 500 * Z.of_nat k) /\
  ((forall i, (i < 3)%nat -> attempt_fails (net (n0 + i)%nat) = true) ->
     out.2 = Thrown (append_message (attempt_error (net (n0 + 2)%nat))
                       " - Unable to refresh Token") /\
     FleetApi.access_token out.1 = FleetApi.access_token api /\
     FleetApi.refresh_token out.1 = FleetApi.refresh_token api /\
     length (FleetApi.calls out.1) = (n0 + 3)%nat /\
     FleetApi.slept out.1 = FleetApi.slept api + 1000) /\
  ((exists k o, (k < 3)%nat /\
      (forall i, (i < k)%nat -> attempt_fails (net (n0 + i)%nat) = true) /\
      net (n0 + k)%nat = Resolved (JsValue o)) \/
   (forall i, (i < 3)%nat -> attempt_fails (net (n0 + i)%nat) = true)).
Proof.
  intros Hcb. cbn zeta.
  destruct (refreshToken_cases net api refresh_token Hcb) as [Hfirst Hnone].
  split; [exact Hfirst|]. split; [exact Hnone|].
  set (n0 := length (FleetApi.calls api)).
  assert (Hcase : forall n, attempt_fails (net n) = true \/
                            exists o, net n = Resolved (JsValue o)).
  { intros n. destruct (net n) as [[| |o]| |]; eauto. }
  destruct (Hcase (n0 + 0)%nat) as [F0|[o Ho]];
    [|left; exists 0%nat, o; split; [lia|]; split; [intros i Hi; lia|exact Ho]].
  destruct (Hcase (n0 + 1)%nat) as [F1|[o Ho]].
  2: { left. exists 1%nat, o. split; [lia|]. split; [|exact Ho].
       intros i Hi. assert (i = 0%nat) as -> by lia. exact F0. }
  destruct (Hcase (n0 + 2)%nat) as [F2|[o Ho]].
  2: { left. exists 2%nat, o. split; [lia|]. split; [|exact Ho].
       intros [|[|i]] Hi; [exact F0|exact F1|lia]. }
  right. intros [|[|[|i]]] Hi; [exact F0|exact F1|exact F2|lia].
Qed.



(** ** [FleetApi.#apiCall] *)

(** X19. A call that is not a refreshable 401 makes one request and does
    not retry.  With [fuel] for at least one request, [#apiCall] hands one
    request to [axios], for the base URL followed by the path, with the
    current access token as bearer, and then: returns the data, whatever it
    is, when the request resolves; throws an [ApiError] with reason "Network
    unavailable" when it is rejected without a response; and when it is
    rejected with a response whose status is not 401, or is 401 while there
    is no refresh token, throws an [ApiError] whose reason is
    [fromStatus(status)] and whose message is the [error] of the response
    data, or else the status text, followed by the status in brackets.
    When the data of that response is [null] or [undefined], line 139
    throws a TypeError instead.  The tokens stay as they were. *)
Theorem apiCall_single (fuel : nat) (net : Network) (api : FleetApi.t)
    (path : string) (method : Method) (params : option string) :
  let req := Request method (FleetApi.baseApi api ++ path) (FleetApi.access_token api)
               (FleetApi.timeout api) params in
  let reply := net (length (FleetApi.calls api)) in
  let out := FleetApi.apiCall (S fuel) net api path method params in
  (forall d, reply = Resolved d -> out = Some (FleetApi.called api req, Returned d)) /\
  (forall message code, reply = Rejected message code ->
     out = Some (FleetApi.called api req,
                 Thrown (ThrownApiError
                   (ApiError.mk (message ++ " (" ++ code_text code ++ ")")
                                ApiError.NETWORK)))) /\
  (forall status statusText data,
     reply = RejectedResponse status statusText data ->
     status <> 401 \/ FleetApi.refresh_token api = None ->
     (forall error,
        data = None /\ error = statusText \/
        (exists o, data = Some (JsValue o) /\
                   error = match json_error o with
                           | Some e => e
                           | None => statusText
                           end) ->
        out = Some (FleetApi.called api req,
                    Thrown (ThrownApiError
                      (ApiError.mk (error ++ " (" ++ string_of_Z status ++ ")")
                                   (ApiError.fromStatus status))))) /\
     (data = Some JsNull ->
        out = Some (FleetApi.called api req,
                    Thrown (ThrownError (TypeError
                      "Cannot read properties of null (reading 'hasOwnProperty')")))) /\
     (data = Some JsUndefined ->
        out = Some (FleetApi.called api req,
                    Thrown (ThrownError (TypeError
                      "Cannot read properties of undefined (reading 'hasOwnProperty')"))))).
Proof.
  cbn zeta. cbn [FleetApi.apiCall]. split; [|split].
  - intros d ->. reflexivity.
  - intros message code ->. reflexivity.
  - intros status statusText data -> Hno.
    cbn [FleetApi.called FleetApi.refresh_token].
    assert (Hcond : (status =? 401) && bool_decide (is_Some (FleetApi.refresh_token api))
                    = false).
    { destruct Hno as [Hst| ->].
      - destruct (Z.eqb_spec status 401); [contradiction|reflexivity].
      - apply andb_false_iff. right. apply bool_decide_eq_false. now intros [? ?]. }
    rewrite Hcond. split; [|split].
    + intros error [[-> ->]|(o & -> & ->)]; cbn [FleetApi.errorText];
        rewrite fromStatus_reason; reflexivity.
    + intros ->. reflexivity.
    + intros ->. reflexivity.
Qed.

Lemma refreshable (status : Z) (token : option string) (rt : string) :
  status = 401 -> token = Some rt ->
  (status =? 401) && bool_decide (is_Some token) = true.
Proof.
  intros -> ->. apply andb_true_iff. split; [reflexivity|].
  apply bool_decide_eq_true. eauto.
Qed.

Lemma apiCall_401 (fuel : nat) (net : Network) (api : FleetApi.t)
    (path : string) (method : Method) (params : option string)
    (rt statusText : string) (data : option Data) :
  FleetApi.refresh_token api = Some rt ->
  net (length (FleetApi.calls api)) = RejectedResponse 401 statusText data ->
  FleetApi.apiCall (S fuel) net api path method params =
    match FleetApi.refreshToken net
            (FleetApi.called api
               (Request method (FleetApi.baseApi api ++ path)
                  (FleetApi.access_token api) (FleetApi.timeout api) params))
            (Some rt) 1 with
    | (api', Thrown e) => Some (api', Thrown e)
    | (api', Returned _) => FleetApi.apiCall fuel net api' path method params
    end.
Proof.
  intros Hrt Hnet.
  change (FleetApi.apiCall (S fuel) net api path method params) with
    (let reply := net (length (FleetApi.calls api)) in
     let api1 := FleetApi.called api
                   (Request method (FleetApi.baseApi api ++ path)
                      (FleetApi.access_token api) (FleetApi.timeout api) params) in
     match reply with
     | Resolved data => Some (api1, Returned data)
     | RejectedResponse status statusText data =>
         if (status =? 401) && bool_decide (is_Some (FleetApi.refresh_token api1))
         then
           match FleetApi.refreshToken net api1 (FleetApi.refresh_token api1) 1 with
           | (api2, Thrown e) => Some (api2, Thrown e)
           | (api2, Returned _) => FleetApi.apiCall fuel net api2 path method params
           end
         else
           match FleetApi.errorText statusText data with
           | Throw e => Some (api1, Thrown (ThrownError e))
           | Ok error =>
               Some (api1, Thrown (ThrownApiError
                 (ApiError.new (error ++ " (" ++ string_of_Z status ++ ")")
                               (Some (ApiError.fromStatus status)))))
           end
     | Rejected message code =>
         Some (api1, Thrown (ThrownApiError
           (ApiError.new (message ++ " (" ++ code_text code ++ ")")
                         (Some ApiError.NETWORK))))
     end).
  cbn zeta. rewrite Hnet. cbn [FleetApi.called FleetApi.refresh_token].
  rewrite (refreshable 401 _ rt eq_refl Hrt), Hrt. reflexivity.
Qed.

(** X20. A 401 is answered by a refresh and one more try with the new
    token.  With a refresh token and no callback: when the request is
    rejected with status 401, the token request that follows resolves, and
    the repeated request resolves, [#apiCall] returns the data of the
    repeated request.  Three calls were made: the request with the old
    access token, the token request with the refresh token, and the same
    request with the access token of the refresh reply; the object holds the
    new tokens. *)
Theorem apiCall_refreshed (fuel : nat) (net : Network) (api : FleetApi.t)
    (path : string) (method : Method) (params : option string)
    (rt statusText : string) (data : option Data) (oauth : Json) (result : Data) :
  FleetApi.cb_refreshToken api = None ->
  FleetApi.refresh_token api = Some rt ->
  let n0 := length (FleetApi.calls api) in
  net n0 = RejectedResponse 401 statusText data ->
  net (n0 + 1)%nat = Resolved (JsValue oauth) ->
  net (n0 + 2)%nat = Resolved result ->
  exists api',
    FleetApi.apiCall (S (S fuel)) net api path method params =
      Some (api', Returned result) /\
    FleetApi.calls api' =
      FleetApi.calls api ++
        [Request method (FleetApi.baseApi api ++ path) (FleetApi.access_token api)
           (FleetApi.timeout api) params;
         PostToken (FleetApi.client_id api) (Some rt) (FleetApi.timeout api);
         Request method (FleetApi.baseApi api ++ path) (json_access_token oauth)
           (FleetApi.timeout api) params] /\
    FleetApi.access_token api' = json_access_token oauth /\
    FleetApi.refresh_token api' = json_refresh_token oauth /\
    FleetApi.slept api' = FleetApi.slept api.
Proof.
  intros Hcb Hrt n0 H0 H1 H2.
  rewrite (apiCall_401 _ _ _ _ _ _ rt statusText data Hrt H0).
  set (api1 := FleetApi.called api _).
  assert (Hn1 : net (length (FleetApi.calls api1)) = Resolved (JsValue oauth))
    by (cbn; rewrite length_app; exact H1).
  rewrite refreshToken_unfold,
    (attempt_resolved net api1 (Some rt) oauth Hcb Hn1).
  set (api2 := FleetApi.set_tokens _ _ _).
  assert (Hn2 : net (length (FleetApi.calls api2)) = Resolved result).
  { cbn. rewrite !length_app. cbn. fold n0.
    replace (n0 + 1 + 1)%nat with (n0 + 2)%nat by lia. exact H2. }
  cbn [FleetApi.apiCall]. rewrite Hn2.
  eexists. split; [reflexivity|].
  cbn. rewrite <- !app_assoc. cbn. auto.
Qed.

(** X21. When the refresh fails the request is not repeated.  With a
    refresh token and no callback: when the request is rejected with status
    401 and the three token requests that follow are all rejected,
    [#apiCall] throws what [refreshToken] threw, whose message ends with the
    note that the token could not be refreshed.  Four calls were made, the
    request and three token requests; the tokens are the ones from before;
    and this is so for every [fuel] of at least one. *)
Theorem apiCall_refresh_fails (fuel : nat) (net : Network) (api : FleetApi.t)
    (path : string) (method : Method) (params : option string)
    (rt statusText : string) (data : option Data) :
  FleetApi.cb_refreshToken api = None ->
  FleetApi.refresh_token api = Some rt ->
  let n0 := length (FleetApi.calls api) in
  net n0 = RejectedResponse 401 statusText data ->
  (forall i, (1 <= i <= 3)%nat -> is_rejected (net (n0 + i)%nat) = true) ->
  exists api' e0,
    FleetApi.apiCall (S fuel) net api path method params =
      Some (api', Thrown (append_message e0 " - Unable to refresh Token")) /\
    FleetApi.calls api' =
      FleetApi.calls api ++
        Request method (FleetApi.baseApi api ++ path) (FleetApi.access_token api)
          (FleetApi.timeout api) params
        :: repeat (PostToken (FleetApi.client_id api) (Some rt) (FleetApi.timeout api)) 3 /\
    FleetApi.access_token api' = FleetApi.access_token api /\
    FleetApi.refresh_token api' = FleetApi.refresh_token api /\
    FleetApi.slept api' = FleetApi.slept api + 1000.
Proof.
  intros Hcb Hrt n0 H0 Hrej.
  rewrite (apiCall_401 _ _ _ _ _ _ rt statusText data Hrt H0).
  set (api1 := FleetApi.called api _).
  assert (Hlen1 : length (FleetApi.calls api1) = (n0 + 1)%nat)
    by (cbn; rewrite length_app; reflexivity).
  destruct (refreshToken_cases net api1 (Some rt) Hcb) as [_ Hall].
  cbn zeta in Hall.
  destruct Hall as (He & Hacc & Hrefresh & Hlen & Hslept).
  { intros i Hi. apply rejected_fails. rewrite Hlen1.
    replace (n0 + 1 + i)%nat with (n0 + (1 + i))%nat by lia. apply Hrej. lia. }
  destruct (refreshToken_run net (Some rt) 2 1 api1 eq_refl)
    as (n & Hn & Hcalls & _ & _ & _ & _ & _ & Hthrown).
  cbn zeta in Hcalls, Hthrown.
  destruct (FleetApi.refreshToken net api1 (Some rt) 1) as [api' r] eqn:Hrun.
  cbn [fst snd] in *. subst r.
  destruct (Hthrown _ eq_refl) as [-> _].
  eexists api', _. split; [reflexivity|].
  rewrite Hcalls, Hacc, Hrefresh, Hslept. cbn.
  rewrite <- app_assoc. cbn. auto.
Qed.

(** X22. [#apiCall] itself never gives up.  Against a server that answers
    every API request with status 401 and every token request with new
    tokens (a refresh token among them), and with no callback set, the call
    does not return for any number of requests it is allowed to make: each
    401 is followed by a successful refresh and the same request again,
    without end.  The three-attempt limit of [refreshToken] does not bound
    this loop. *)
Theorem apiCall_never_gives_up (net : Network) (path : string) (method : Method)
    (params : option string) (statusText : string) (data : option Data)
    (oauth : Json) :
  is_Some (json_refresh_token oauth) ->
  forall (fuel : nat) (api : FleetApi.t),
    FleetApi.cb_refreshToken api = None ->
    is_Some (FleetApi.refresh_token api) ->
    (forall i : nat,
       net (length (FleetApi.calls api) + 2 * i)%nat =
         RejectedResponse 401 statusText data /\
       net (length (FleetApi.calls api) + 2 * i + 1)%nat = Resolved (JsValue oauth)) ->
    FleetApi.apiCall fuel net api path method params = None.
Proof.
  intros Hnew. induction fuel as [|fuel IH]; intros api Hcb [rt Hrt] Hnet;
    [reflexivity|].
  destruct (Hnet 0%nat) as [H0 H1]. rewrite Nat.mul_0_r, Nat.add_0_r in H0, H1.
  rewrite (apiCall_401 _ _ _ _ _ _ rt statusText data Hrt H0).
  set (api1 := FleetApi.called api _).
  assert (Hn1 : net (length (FleetApi.calls api1)) = Resolved (JsValue oauth))
    by (cbn; rewrite length_app; exact H1).
  rewrite refreshToken_unfold, (attempt_resolved net api1 (Some rt) oauth Hcb Hn1).
  apply IH.
  - exact Hcb.
  - exact Hnew.
  - intros i. cbn [FleetApi.set_tokens FleetApi.called FleetApi.calls api1].
    rewrite !length_app. cbn [length].
    destruct (Hnet (S i)) as [Ha Hb].
    replace (length (FleetApi.calls api) + 1 + 1 + 2 * i)%nat
      with (length (FleetApi.calls api) + 2 * S i)%nat by lia.
    split; [exact Ha|exact Hb].
Qed.

(** ** [FleetApi.signedCommand] *)

(** X23. [signedCommand] posts the buffer, base64-encoded, to the
    [signed_command] path of the vehicle, with the current access token.
    When the request resolves with a value that has a [response], the bytes
    decoded from it are returned; when the value has no [response], the call
    throws an [ApiError] "Invalid response" whose reason is "Unknown"; when
    the request resolves with [null] or [undefined], line 173 throws a
    TypeError instead; and when the request is rejected without a response
    it throws the network error of [#apiCall], nothing being decoded. *)
Theorem signedCommand_result (fuel : nat) (net : Network) (api : FleetApi.t)
    (vin : string) (byteBuffer : bytes) :
  let req := Request POST
               (FleetApi.baseApi api ++ "/vehicles/" ++ vin ++ "/signed_command")
               (FleetApi.access_token api) (FleetApi.timeout api)
               (Some (toBase64 byteBuffer)) in
  let reply := net (length (FleetApi.calls api)) in
  let out := FleetApi.signedCommand (S fuel) net api vin byteBuffer in
  (forall o response, reply = Resolved (JsValue o) -> json_response o = Some response ->
     out = Some (FleetApi.called api req, Returned (fromBase64 response))) /\
  (forall o, reply = Resolved (JsValue o) -> json_response o = None ->
     out = Some (FleetApi.called api req,
                 Thrown (ThrownApiError
                   (ApiError.mk "Invalid response" ApiError.UNKNOWN)))) /\
  (reply = Resolved JsNull ->
     out = Some (FleetApi.called api req,
                 Thrown (ThrownError (TypeError
                   "Cannot read properties of null (reading 'hasOwnProperty')")))) /\
  (reply = Resolved JsUndefined ->
     out = Some (FleetApi.called api req,
                 Thrown (ThrownError (TypeError
                   "Cannot read properties of undefined (reading 'hasOwnProperty')")))) /\
  (forall message code, reply = Rejected message code ->
     out = Some (FleetApi.called api req,
                 Thrown (ThrownApiError
                   (ApiError.mk (message ++ " (" ++ code_text code ++ ")")
                                ApiError.NETWORK)))).
Proof.
  cbn zeta. unfold FleetApi.signedCommand. cbn [FleetApi.apiCall].
  split; [|split; [|split; [|split]]].
  - intros o response -> Hresp. now rewrite Hresp.
  - intros o -> Hresp. now rewrite Hresp.
  - intros ->. reflexivity.
  - intros ->. reflexivity.
  - intros message code ->. reflexivity.
Qed.

End FleetApiProperties.

(** * The statements on concrete inputs *)

#[local] Existing Instance exampleCrypto.
#[local] Existing Instance exampleCurve.
#[local] Existing Instance schemaEnums.

Lemma schema_tags_ascending : tags_ascending.
Proof. unfold tags_ascending. cbn. lia. Qed.

Lemma exampleSigner_fits : signer_fits exampleSigner.
Proof. repeat split; vm_compute; discriminate. Qed.

Lemma exampleCurve_symmetric : ecdh_symmetric.
Proof.
  intros a b. cbn. f_equal.
  rewrite Z.mul_mod_idemp_r, (Z.mul_comm b), Z.mul_mod_idemp_l by lia.
  reflexivity.
Qed.

(** C1 with 2^30 itself rejected does not hold: at an expiry of exactly 2^30
    the call returns a signature. *)
Lemma expiry_at_epoch_length_accepted :
  let out := (Signer.generateSignature exampleSigner [] 3 5 1073741819000).2 in
  Signer.expiresAt exampleSigner 5 1073741819000 = 2 ^ 30 /\
  returns out = true /\
  ~ (out = Throw (Error "out of bounds expiration time") <->
     Signer.expiresAt exampleSigner 5 1073741819000 < 0 \/
     2 ^ 30 <= Signer.expiresAt exampleSigner 5 1073741819000).
Proof.
  cbn zeta.
  assert (Hex : Signer.expiresAt exampleSigner 5 1073741819000 = 2 ^ 30) by reflexivity.
  assert (Hret :
    returns (Signer.generateSignature exampleSigner [] 3 5 1073741819000).2 = true)
    by (vm_compute; reflexivity).
  split; [exact Hex|]. split; [exact Hret|].
  intros [_ Hreject]. rewrite Hreject in Hret; [discriminate|].
  right. rewrite Hex. lia.
Qed.

Lemma expiry_bound_witness :
  tags_ascending /\ signer_fits exampleSigner /\
  returns (Signer.generateSignature exampleSigner [] 3 5 1073741819000).2 = true /\
  (Signer.generateSignature exampleSigner [] 3 5 1073741820000).2 =
    Throw (Error "out of bounds expiration time").
Proof.
  split; [exact schema_tags_ascending|]. split; [exact exampleSigner_fits|].
  split.
  - apply (expiry_bound exampleSigner [] 3 5 1073741819000
             schema_tags_ascending exampleSigner_fits).
    reflexivity.
  - apply (expiry_bound exampleSigner [] 3 5 1073741820000
             schema_tags_ascending exampleSigner_fits).
    reflexivity.
Defined.


Lemma tagged_checksum_layout_witness :
  let entries := handshake_entries exampleVin exampleUuid in
  Sorted Z.le (map fst entries) /\
  Forall (fun e => 0 <= e.1) entries /\
  Forall (fun e => blength e.2 <= 255) entries /\
  exists m,
    addEntries (Metadata.new (AuthSession.newHMAC exampleSession "session info")) entries
      = Ok m /\
    Metadata.checksum m [x07] =
      spec_TaggedChecksum (AuthSession.key exampleSession) "session info" entries [x07].
Proof.
  cbn zeta.
  assert (Hsorted : Sorted Z.le (map fst (handshake_entries exampleVin exampleUuid)))
    by (cbn; repeat constructor; lia).
  assert (Hpos : Forall (fun e => 0 <= e.1) (handshake_entries exampleVin exampleUuid))
    by (repeat constructor; cbn; lia).
  assert (Hfit : Forall (fun e => blength e.2 <= 255)
                   (handshake_entries exampleVin exampleUuid))
    by (repeat constructor; vm_compute; discriminate).
  split; [exact Hsorted|]. split; [exact Hpos|]. split; [exact Hfit|].
  destruct (tagged_checksum_layout exampleSession "session info"
              (handshake_entries exampleVin exampleUuid) [x07] Hsorted Hpos Hfit)
    as (m & Hrun & _ & _ & Hsum & _).
  exists m. split; [exact Hrun|exact Hsum].
Defined.

Lemma counter_strictly_increasing_witness :
  let outs := generateSignatures exampleSigner exampleCalls in
  map (fun o => Signer.counter o.1) outs = [8; 9; 10] /\
  map (fun o => returns o.2) outs = [true; false; true] /\
  StronglySorted Z.lt (7 :: map (fun o => Signer.counter o.1) outs).
Proof.
  cbn zeta.
  destruct (counter_strictly_increasing exampleCalls exampleSigner)
    as (_ & Hform & Hsorted & _).
  split; [exact Hform|]. split; [vm_compute; reflexivity|exact Hsorted].
Defined.

Lemma shortTag_reaches_validation :
  let codec := shortTagCodec in
  handshake_validated freshServer
    (handshakeRequest (CarServer.privateKey freshServer) exampleAddress exampleUuid)
    (Ok []) 0 handshakeSigner
    (Throw (RangeError "Input buffers must have the same byte length")).
Proof.
  cbn zeta. unfold handshake_validated. do 7 eexists.
  repeat (split; [reflexivity|]). vm_compute. reflexivity.
Defined.

Lemma handshake_failure_witness :
  let codec := shortTagCodec in
  let out := CarServer.startSession freshServer exampleAddress exampleUuid (Ok []) 0 in
  let out' := CarServer.chargingSetLimit out.1 80 exampleAddress exampleUuid
                (Ok [x01]) 0 0 in
  tags_ascending /\
  decodeRoutable [] = Ok shortTagResponse /\
  out.2 = Throw (RangeError "Input buffers must have the same byte length") /\
  CarServer.signer out.1 = Some handshakeSigner /\
  out'.2 = Ok tt /\
  length (CarServer.sent out'.1) = 2%nat.
Proof.
  cbn zeta.
  split; [exact schema_tags_ascending|]. split; [reflexivity|].
  destruct (handshake_failure (codec := shortTagCodec) schema_tags_ascending)
    as (_ & _ & _ & Hkept).
  destruct (Hkept freshServer exampleAddress exampleUuid (Ok []) 0 handshakeSigner
              (RangeError "Input buffers must have the same byte length")
              shortTag_reaches_validation) as (Hthrow & Hsigner & Hnext).
  split; [exact Hthrow|]. split; [exact Hsigner|].
  split; [vm_compute; reflexivity|].
  destruct (Signer.generateSignature handshakeSigner
              (encodeAction (ProtoCodec := shortTagCodec) (chargingSetLimitAction 80))
              DOMAIN_INFOTAINMENT 5 0).2 as [signature|e] eqn:Hsigned;
    [|vm_compute in Hsigned; discriminate].
  destruct (Hnext (chargingSetLimitAction 80) exampleAddress exampleUuid (Ok [x01])
              0 0 signature Hsigned) as [_ Hsent].
  unfold CarServer.chargingSetLimit. rewrite Hsent, length_app.
  vm_compute. reflexivity.
Defined.

Lemma response_provenance_witness :
  let codec := handshakeCodec 2 in
  let out := CarServer.startSession freshServer exampleAddress exampleUuid (Ok []) 0 in
  (decodeRoutable [] = Ok (handshakeResponse 2) /\ 2 <> DOMAIN_INFOTAINMENT) /\
  out.2 = Throw (Error "Invalid source domain") /\
  CarServer.signer out.1 = None.
Proof.
  cbn zeta.
  assert (Hdec : decodeRoutable (ProtoCodec := handshakeCodec 2) [] =
                 Ok (handshakeResponse 2))
    by reflexivity.
  assert (Hd : 2 <> DOMAIN_INFOTAINMENT) by (cbn; lia).
  split; [split; [exact Hdec|exact Hd]|].
  destruct (response_provenance (codec := handshakeCodec 2) freshServer
              (handshakeRequest exampleKey exampleAddress exampleUuid)
              (handshakeResponse 2))
    as (_ & _ & _ & Hstart).
  exact (Hstart exampleAddress exampleUuid [] 0 (mkDestination (Some 2) None) 2
           Hdec eq_refl eq_refl Hd).
Defined.

Lemma wideCurve_symmetric : ecdh_symmetric (curve := wideCurve).
Proof. intros a b. cbn. now rewrite Z.mul_comm. Qed.

Lemma session_key_bytes_witness :
  ecdh_symmetric (curve := wideCurve) /\
  valid_pair (curve := wideCurve) wideKey /\
  valid_pair (curve := wideCurve) widePeer /\
  derive (Elliptic := wideCurve)
    (keyFromPrivate (Elliptic := wideCurve) (privateKey wideKey))
    (getPublic (Elliptic := wideCurve)
       (keyFromPrivate (Elliptic := wideCurve) (privateKey widePeer))) = Ok (2 ^ 251) /\
  (1 <= 63 /\ 16 ^ (63 - 1) <= 2 ^ 251 < 16 ^ 63) /\
  sessionKey (curve := wideCurve) wideKey (publicKey widePeer) =
    sessionKey (curve := wideCurve) widePeer (publicKey wideKey) /\
  (exists hashed : bytes,
     sessionKey (curve := wideCurve) wideKey (publicKey widePeer) =
       Ok (firstn 16 (sha1 hashed)) /\
     blength hashed = 31 /\
     be_value 0 hashed = 2 ^ 247) /\
  Buffer_from_hex (BN_toString16 (2 ^ 251)) = x80 :: repeat x00 30.
Proof.
  assert (HA : valid_pair (curve := wideCurve) wideKey) by reflexivity.
  assert (HB : valid_pair (curve := wideCurve) widePeer) by reflexivity.
  assert (Hx : derive (Elliptic := wideCurve)
                 (keyFromPrivate (Elliptic := wideCurve) (privateKey wideKey))
                 (getPublic (Elliptic := wideCurve)
                    (keyFromPrivate (Elliptic := wideCurve) (privateKey widePeer)))
               = Ok (2 ^ 251)) by (vm_compute; reflexivity).
  assert (Hd : 1 <= 63) by lia.
  assert (Hbound : 16 ^ (63 - 1) <= 2 ^ 251 < 16 ^ 63)
    by (split; [apply Z.leb_le|apply Z.ltb_lt]; vm_compute; reflexivity).
  destruct (session_key_bytes (curve := wideCurve) wideKey widePeer
              wideCurve_symmetric HA HB) as [Hsym Hbytes].
  split; [exact wideCurve_symmetric|]. split; [exact HA|]. split; [exact HB|].
  split; [exact Hx|]. split; [exact (conj Hd Hbound)|]. split; [exact Hsym|].
  split; [|vm_compute; reflexivity].
  destruct (Hbytes (2 ^ 251) 63 Hx Hd Hbound) as (hashed & Hkey & Hlen & Hval).
  exists hashed. split; [exact Hkey|]. split; [exact Hlen|].
  rewrite Hval. vm_compute. reflexivity.
Defined.

(** On the toy curve the shared secrets 15 and 14 have one hexadecimal
    digit each, which is dropped: both handshakes hash the empty buffer and
    end with the same session key. *)
Example one_digit_secrets_collide :
  derive (keyFromPrivate [x03]) (getPublic (keyFromPrivate [x05])) = Ok 15 /\
  derive (keyFromPrivate [x02]) (getPublic (keyFromPrivate [x07])) = Ok 14 /\
  sessionKey (mkKey [x03] [x03]) [x05] = sessionKey (mkKey [x02] [x02]) [x07].
Proof. repeat split. Qed.

Lemma establishedServer_answered (resp : Response.t) :
  let codec := commandCodec resp in
  exists cs',
    command_answered establishedServer (chargingSetLimitAction 80) exampleAddress
      exampleUuid (Ok []) 1000000 1000000 cs' (ReplyResponse resp).
Proof.
  cbn zeta. unfold command_answered. do 3 eexists.
  split; [reflexivity|]. split; [vm_compute; reflexivity|]. reflexivity.
Defined.

Lemma command_status_witness :
  let codec := commandCodec errorResponse in
  OPERATIONSTATUS_OK <> OPERATIONSTATUS_ERROR /\
  (exists cs', command_answered establishedServer (chargingSetLimitAction 80)
                 exampleAddress exampleUuid (Ok []) 1000000 1000000 cs'
                 (ReplyResponse errorResponse)) /\
  (CarServer.requestAction establishedServer (chargingSetLimitAction 80)
     exampleAddress exampleUuid (Ok []) 1000000 1000000).2
  = Throw (Error "precondition_failed").
Proof.
  cbn zeta.
  assert (Hdistinct : OPERATIONSTATUS_OK <> OPERATIONSTATUS_ERROR) by (cbn; lia).
  split; [exact Hdistinct|].
  split; [exact (establishedServer_answered errorResponse)|].
  destruct (establishedServer_answered errorResponse) as [cs' Hanswered].
  destruct (command_status (codec := commandCodec errorResponse) establishedServer
              (chargingSetLimitAction 80) exampleAddress exampleUuid (Ok [])
              1000000 1000000 cs' errorResponse
              (Response.mkStatus (Some 1)
                 (Some (Response.mkReason (Some "precondition_failed"%string))))
              1 Hdistinct Hanswered eq_refl eq_refl)
    as (_ & Herror & _).
  destruct (Herror eq_refl) as (Htext & _).
  exact (proj1 (Htext "precondition_failed"%string eq_refl)).
Defined.

Lemma command_needs_session_witness :
  let codec := commandCodec errorResponse in
  CarServer.signer freshServer = None /\
  CarServer.chargingSetLimit freshServer 80 exampleAddress exampleUuid (Ok []) 0 0
  = (freshServer, Throw (Error "Session not started")).
Proof.
  cbn zeta. split; [reflexivity|].
  apply (command_needs_session (codec := commandCodec errorResponse) freshServer
           (chargingSetLimitAction 80) exampleAddress exampleUuid (Ok []) 0 0 eq_refl).
Defined.

Lemma command_without_status_witness :
  let codec := commandCodec (Response.mk None) in
  (exists cs', command_answered establishedServer (chargingSetLimitAction 80)
                 exampleAddress exampleUuid (Ok []) 1000000 1000000 cs'
                 (ReplyResponse (Response.mk None))) /\
  (CarServer.requestAction establishedServer (chargingSetLimitAction 80)
     exampleAddress exampleUuid (Ok []) 1000000 1000000).2 = Ok tt.
Proof.
  cbn zeta.
  split; [exact (establishedServer_answered (Response.mk None))|].
  destruct (establishedServer_answered (Response.mk None)) as [cs' Hanswered].
  destruct (command_without_status (codec := commandCodec (Response.mk None))
              establishedServer (chargingSetLimitAction 80) exampleAddress exampleUuid
              (Ok []) 1000000 1000000 cs' (Response.mk None) Hanswered
              (or_introl eq_refl))
    as [Hrun _].
  now rewrite Hrun.
Defined.

(** The two end-to-end runs of the specification on the example values: the
    handshake with the right tag installs the Signer, and a command answered
    with status OK returns, having consumed counter 8. *)
Example session_established :
  let codec := exampleCodec validHandshakeResponse exampleSessionInfo okResponse in
  let out := CarServer.startSession freshServer exampleAddress exampleUuid (Ok []) 0 in
  out.2 = Ok tt /\ CarServer.signer out.1 = Some handshakeSigner.
Proof. cbn zeta. split; vm_compute; reflexivity. Qed.

Example command_accepted :
  let codec := commandCodec okResponse in
  let out := CarServer.chargingSetLimit establishedServer 80 exampleAddress exampleUuid
               (Ok []) 1000000 1000000 in
  out.2 = Ok tt /\
  option_map Signer.counter (CarServer.signer out.1) = Some 8 /\
  length (CarServer.sent out.1) = 1%nat.
Proof. cbn zeta. repeat split; vm_compute; reflexivity. Qed.

(** * The further properties on concrete inputs *)

#[local] Existing Instance exampleRuntime.

Lemma addUint32_field_witness :
  let m := Metadata.new (createHmac [x01]) in
  (4294967295 < 4294967297 /\
   Metadata.addUint32 m 4 4294967297 =
     Throw (RangeError
       ("The value of " ++ dquote ++ "value" ++ dquote ++ " is out of range." ++
        " It must be >= 0 and <= 4294967295. Received 4_294_967_297"))) /\
  (-1 < 0 /\
   Metadata.addUint32 m 4 (-1) =
     Throw (RangeError
       ("The value of " ++ dquote ++ "value" ++ dquote ++ " is out of range." ++
        " It must be >= 0 and <= 4294967295. Received -1"))) /\
  (0 <= 1073741824 <= 4294967295 /\ Metadata.last m <= 4 /\
   exists m', Metadata.addUint32 m 4 1073741824 = Ok m' /\
     absorbed (Metadata.context m') = [x04; x04; x40; x00; x00; x00]).
Proof.
  cbn zeta. split; [|split].
  - assert (Hbig : 4294967295 < 4294967297) by lia.
    split; [exact Hbig|].
    rewrite (proj1 (addUint32_field (Metadata.new (createHmac [x01])) 4 4294967297)
               (or_intror Hbig)).
    vm_compute. reflexivity.
  - assert (Hneg : -1 < 0) by lia.
    split; [exact Hneg|].
    rewrite (proj1 (addUint32_field (Metadata.new (createHmac [x01])) 4 (-1))
               (or_introl Hneg)).
    vm_compute. reflexivity.
  - assert (Hin : 0 <= 1073741824 <= 4294967295) by lia.
    assert (Htag : Metadata.last (Metadata.new (createHmac [x01])) <= 4) by (cbn; lia).
    split; [exact Hin|]. split; [exact Htag|].
    destruct (addUint32_field (Metadata.new (createHmac [x01])) 4 1073741824)
      as [_ Hfield].
    destruct (Hfield Hin) as (_ & _ & _ & Habsorb).
    destruct (Habsorb Htag) as (m' & Hrun & _ & Habs).
    exists m'. split; [exact Hrun|exact Habs].
Defined.

Lemma layout_unambiguous_witness :
  let ctx := createHmac [x01] in
  let es := [(0, [x06]); (2, [x41; x42])] in
  exists m,
    addEntries (Metadata.new ctx) es = Ok m /\
    Forall (fun e => e.1 <= 254) es /\
    forall es' p' m',
      addEntries (Metadata.new ctx) es' = Ok m' ->
      Forall (fun e => e.1 <= 254) es' ->
      absorbed (Metadata.context m) ++ [xff] ++ [x07] =
        absorbed (Metadata.context m') ++ [xff] ++ p' ->
      es = es' /\ [x07] = p'.
Proof.
  cbn zeta. eexists. split; [reflexivity|].
  assert (Hmax : Forall (fun e : Z * bytes => e.1 <= 254) [(0, [x06]); (2, [x41; x42])])
    by (repeat constructor; cbn; lia).
  split; [exact Hmax|].
  intros es' p' m' Hrun' Hmax' Heq.
  exact (layout_unambiguous (createHmac [x01]) [(0, [x06]); (2, [x41; x42])] es'
           [x07] p' _ m' eq_refl Hrun' Hmax Hmax' Heq).
Defined.

Lemma validateSessionInfo_accepts_witness :
  tags_ascending /\
  blength (Buffer_from_string (Signer.verifierName handshakeSigner)) <= 255 /\
  blength exampleUuid <= 255 /\
  Signer.validateSessionInfo handshakeSigner [x01] exampleUuid validTag = Ok true /\
  Signer.validateSessionInfo handshakeSigner [x01] exampleUuid zeroTag <> Ok true.
Proof.
  assert (Hname : blength (Buffer_from_string (Signer.verifierName handshakeSigner)) <= 255)
    by (vm_compute; discriminate).
  assert (Huuid : blength exampleUuid <= 255) by (vm_compute; discriminate).
  split; [exact schema_tags_ascending|]. split; [exact Hname|]. split; [exact Huuid|].
  destruct (validateSessionInfo_accepts handshakeSigner [x01] exampleUuid
              schema_tags_ascending Hname Huuid) as [Hright Hiff].
  split; [exact Hright|].
  intros Hzero. apply Hiff in Hzero. vm_compute in Hzero. discriminate.
Defined.

Lemma signature_block_witness :
  tags_ascending /\
  (signer_fits exampleSigner /\ 0 <= Signer.expiresAt exampleSigner 5 1000000 <= 2 ^ 30) /\
  returns (Signer.generateSignature exampleSigner [x01] 3 5 1000000).2 = true /\
  returns (Signer.generateSignature exhaustedSigner [x01] 3 5 1000000).2 = false.
Proof.
  assert (Hok : signer_fits exampleSigner /\
                0 <= Signer.expiresAt exampleSigner 5 1000000 <= 2 ^ 30)
    by (split; [exact exampleSigner_fits|vm_compute; split; discriminate]).
  split; [exact schema_tags_ascending|]. split; [exact Hok|]. split.
  - apply (signature_block exampleSigner [x01] 3 5 1000000 schema_tags_ascending).
    exact Hok.
  - destruct (returns (Signer.generateSignature exhaustedSigner [x01] 3 5 1000000).2)
      eqn:Hret; [|reflexivity].
    apply (signature_block exhaustedSigner [x01] 3 5 1000000 schema_tags_ascending)
      in Hret as [(_ & _ & Hctr) _].
    vm_compute in Hctr. destruct Hctr as [_ Hctr]. now contradiction Hctr.
Defined.

Lemma counter_exhaustion_witness :
  4294967295 <= Signer.counter exhaustedSigner /\
  Forall (fun o => returns o.2 = false /\ 4294967295 < Signer.counter o.1)
         (generateSignatures exhaustedSigner exampleCalls).
Proof.
  assert (Hmax : 4294967295 <= Signer.counter exhaustedSigner) by (cbn; lia).
  split; [exact Hmax|].
  exact (counter_exhaustion exampleCalls exhaustedSigner Hmax).
Defined.

Lemma signer_from_session_info_witness :
  Signer.new exampleKey exampleVin exampleSessionInfo 0 = Ok handshakeSigner /\
  Signer.counter handshakeSigner = 7 /\
  Signer.expiresAt handshakeSigner 5 60000 = 100 + (60 - 0) + 5.
Proof.
  assert (Hnew : Signer.new exampleKey exampleVin exampleSessionInfo 0 = Ok handshakeSigner)
    by (vm_compute; reflexivity).
  split; [exact Hnew|].
  destruct (signer_from_session_info exampleKey exampleVin exampleSessionInfo 0)
    as [_ Hfields].
  destruct (Hfields handshakeSigner Hnew) as (Hctr & _ & _ & _ & Hclock & _).
  split; [exact Hctr|exact (Hclock 5 60000)].
Defined.

Lemma validHandshake_validated :
  let codec := exampleCodec validHandshakeResponse exampleSessionInfo okResponse in
  handshake_validated freshServer
    (handshakeRequest (CarServer.privateKey freshServer) exampleAddress exampleUuid)
    (Ok []) 0 handshakeSigner (Ok true).
Proof.
  cbn zeta. unfold handshake_validated. do 7 eexists.
  repeat (split; [reflexivity|]). vm_compute. reflexivity.
Defined.

Lemma sendRequest_signer_witness :
  let codec := exampleCodec validHandshakeResponse exampleSessionInfo okResponse in
  let req := handshakeRequest (CarServer.privateKey freshServer) exampleAddress
               exampleUuid in
  let out := CarServer.sendRequest freshServer req (Ok []) 0 in
  out.2 = Ok (ReplySessionInfo exampleSessionInfo) /\
  exists sg,
    handshake_validated freshServer req (Ok []) 0 sg (Ok true) /\
    CarServer.signer out.1 = Some sg.
Proof.
  cbn zeta.
  set (codec := exampleCodec validHandshakeResponse exampleSessionInfo okResponse).
  set (req := handshakeRequest (CarServer.privateKey freshServer) exampleAddress
                exampleUuid).
  assert (Hout : (CarServer.sendRequest freshServer req (Ok []) 0).2 =
                 Ok (ReplySessionInfo exampleSessionInfo)) by (vm_compute; reflexivity).
  split; [exact Hout|].
  destruct (sendRequest_signer (codec := codec) freshServer req (Ok []) 0)
    as (_ & Hinfo & _).
  destruct (Hinfo exampleSessionInfo Hout) as (sg & Hval & _ & Hsg).
  exists sg. split; [exact Hval|exact Hsg].
Defined.

Lemma startSession_outcomes_witness :
  let codec := exampleCodec validHandshakeResponse exampleSessionInfo okResponse in
  let out := CarServer.startSession freshServer exampleAddress exampleUuid (Ok []) 0 in
  out.2 = Ok tt /\ CarServer.signer out.1 = Some handshakeSigner.
Proof.
  cbn zeta.
  destruct (startSession_outcomes
              (codec := exampleCodec validHandshakeResponse exampleSessionInfo okResponse)
              freshServer exampleAddress exampleUuid (Ok []) 0) as (Hvalid & _ & _).
  exact (Hvalid handshakeSigner validHandshake_validated).
Defined.

Lemma establishedServer_resynchronised :
  let codec := exampleCodec validHandshakeResponse exampleSessionInfo okResponse in
  exists cs',
    command_answered establishedServer (chargingSetLimitAction 80) exampleAddress
      exampleUuid (Ok []) 1000000 0 cs' (ReplySessionInfo exampleSessionInfo).
Proof.
  cbn zeta. unfold command_answered. do 3 eexists.
  split; [reflexivity|]. split; [vm_compute; reflexivity|]. vm_compute. reflexivity.
Defined.

Lemma command_answered_by_session_info_witness :
  let codec := exampleCodec validHandshakeResponse exampleSessionInfo okResponse in
  (exists cs', command_answered establishedServer (chargingSetLimitAction 80)
                 exampleAddress exampleUuid (Ok []) 1000000 0 cs'
                 (ReplySessionInfo exampleSessionInfo)) /\
  (CarServer.requestAction establishedServer (chargingSetLimitAction 80)
     exampleAddress exampleUuid (Ok []) 1000000 0).2 = Ok tt.
Proof.
  cbn zeta.
  split; [exact establishedServer_resynchronised|].
  destruct establishedServer_resynchronised as [cs' Hanswered].
  destruct (command_answered_by_session_info
              (codec := exampleCodec validHandshakeResponse exampleSessionInfo okResponse)
              establishedServer (chargingSetLimitAction 80) exampleAddress exampleUuid
              (Ok []) 1000000 0 cs' exampleSessionInfo Hanswered) as [Hrun _].
  now rewrite Hrun.
Defined.

Lemma command_effects_witness :
  let codec := commandCodec okResponse in
  let out := CarServer.requestAction establishedServer (chargingSetLimitAction 80)
               exampleAddress exampleUuid (Throw (Error "timeout")) 1000000 1000000 in
  CarServer.signer establishedServer = Some exampleSigner /\
  out.2 = Throw (Error "timeout") /\
  CarServer.signer out.1 = Some (Signer.bump exampleSigner) /\
  length (CarServer.sent out.1) = 1%nat.
Proof.
  cbn zeta.
  split; [reflexivity|].
  destruct (command_effects (codec := commandCodec okResponse) establishedServer
              (chargingSetLimitAction 80) exampleAddress exampleUuid
              (Throw (Error "timeout")) 1000000 1000000 exampleSigner eq_refl)
    as [_ Hsigned].
  cbn zeta in Hsigned.
  destruct (Signer.generateSignature exampleSigner
              (encodeAction (ProtoCodec := commandCodec okResponse)
                 (chargingSetLimitAction 80))
              DOMAIN_INFOTAINMENT 5 1000000).2 as [signature|e] eqn:Hgen;
    [|vm_compute in Hgen; discriminate].
  destruct (Hsigned signature eq_refl) as [Hsent Hreply].
  destruct (Hreply (Error "timeout") eq_refl) as [Hout Hbump].
  split; [exact Hout|]. split; [exact Hbump|].
  rewrite Hsent. reflexivity.
Defined.

Lemma checked_response_parts_witness :
  let codec := commandCodec okResponse in
  let req := commandRequest [x50] (SignatureData.mk [] (SignatureData.mkHmacPersonalized [] 8 5 [])) exampleAddress exampleUuid in
  let out := CarServer.sendRequest establishedServer req (Ok []) 0 in
  decodeRoutable [] = Ok commandResponse /\
  CarServer.checkResponse req commandResponse = Ok exampleUuid /\
  CarServer.signer out.1 = Some exampleSigner /\
  out.2 = Ok (ReplyResponse okResponse).
Proof.
  cbn zeta.
  assert (Hdec : decodeRoutable (ProtoCodec := commandCodec okResponse) [] =
                 Ok commandResponse) by reflexivity.
  assert (Hchk : CarServer.checkResponse
                   (commandRequest [x50] (SignatureData.mk [] (SignatureData.mkHmacPersonalized [] 8 5 [])) exampleAddress exampleUuid)
                   commandResponse = Ok exampleUuid) by (vm_compute; reflexivity).
  split; [exact Hdec|]. split; [exact Hchk|].
  destruct (checked_response_parts (codec := commandCodec okResponse) establishedServer
              (commandRequest [x50] (SignatureData.mk [] (SignatureData.mkHmacPersonalized [] 8 5 [])) exampleAddress exampleUuid)
              [] 0 commandResponse exampleUuid Hdec Hchk) as [_ Hplain].
  destruct (Hplain (or_introl eq_refl)) as [Hsg Hout].
  split; [exact Hsg|exact Hout].
Defined.

Lemma token_parts_witness :
  dots "a.b.c" = 2%nat /\ dots "ab" <> 2%nat /\
  getHostFromToken "a.b.c" = Ok "fleet-api.prd.eu.vn.cloud.tesla.com"%string /\
  getHostFromToken "ab" = Throw (Error "Invalid OAuth access token").
Proof.
  assert (Hdots : dots "ab" <> 2%nat) by (vm_compute; discriminate).
  split; [reflexivity|]. split; [exact Hdots|]. split.
  - destruct (token_parts "a.b.c") as [_ Hparts].
    rewrite (Hparts "a"%string "b"%string "c"%string eq_refl eq_refl eq_refl eq_refl).
    vm_compute. reflexivity.
  - destruct (token_parts "ab") as [Hshape _]. exact (Hshape Hdots).
Defined.

Lemma hostLoop_picks_witness :
  omap audienceHost ["https://auth.tesla.com/oauth2/v3/userinfo"%string] = [] /\
  hostLoop None defaultHost ["https://auth.tesla.com/oauth2/v3/userinfo"%string] =
    Ok defaultHost /\
  hostLoop (Some "EU"%string) defaultHost exampleAudience =
    Ok "fleet-api.prd.eu.vn.cloud.tesla.com"%string.
Proof.
  assert (Hnone : omap audienceHost ["https://auth.tesla.com/oauth2/v3/userinfo"%string]
                  = []) by (vm_compute; reflexivity).
  split; [exact Hnone|]. split.
  - destruct (hostLoop_picks ["https://auth.tesla.com/oauth2/v3/userinfo"%string]
                defaultHost) as (_ & Hplain & _).
    exact (Hplain Hnone).
  - destruct (hostLoop_picks exampleAudience defaultHost) as (Hcode & _).
    rewrite (Hcode "EU"%string). vm_compute. reflexivity.
Defined.

Lemma constructor_host_witness :
  exists api,
    FleetApi.new "client" (Some "a.b.c"%string) None = Ok api /\
    FleetApi.baseApi api = "https://fleet-api.prd.eu.vn.cloud.tesla.com/api/1"%string /\
    FleetApi.calls api = [].
Proof.
  destruct (FleetApi.new "client" (Some "a.b.c"%string) None) as [api|e] eqn:Hnew;
    [|vm_compute in Hnew; discriminate].
  exists api. split; [reflexivity|].
  destruct (constructor_host "client" (Some "a.b.c"%string) None) as [_ Hbuilt].
  destruct (Hbuilt api Hnew)
    as (token & host & Htoken & Hhost & _ & Hbase & _ & _ & _ & _ & _ & Hcalls).
  split; [|exact Hcalls].
  rewrite Hbase. injection Htoken as <-. vm_compute in Hhost.
  injection Hhost as <-. reflexivity.
Defined.

Lemma refreshToken_attempts_witness :
  let net := scripted [Rejected "timeout" None; Resolved (JsValue newTokens)]
               (Rejected "timeout" None) in
  (exists n : nat,
     (1 <= n <= 3)%nat /\
     FleetApi.calls (FleetApi.refreshToken net exampleApi (Some "old-refresh"%string) 1).1
       = repeat (PostToken "client" (Some "old-refresh"%string) 10000) n) /\
  (3 <= 3)%nat /\
  length (FleetApi.calls
            (FleetApi.refreshToken net exampleApi (Some "old-refresh"%string) 3).1)
    = 1%nat.
Proof.
  cbn zeta.
  destruct (refreshToken_attempts
              (scripted [Rejected "timeout" None; Resolved (JsValue newTokens)]
                 (Rejected "timeout" None))
              exampleApi (Some "old-refresh"%string)) as [Hdefault Hlast].
  split; [|split; [lia|exact (proj1 (Hlast 3%nat (le_n 3)))]].
  cbn zeta in Hdefault. destruct Hdefault as (n & Hn & Hcalls & _).
  exists n. split; [exact Hn|exact Hcalls].
Defined.

Lemma refreshToken_result_witness :
  (let net := scripted [Resolved JsNull; Resolved (JsValue newTokens)]
                (Rejected "timeout" None) in
   let out := FleetApi.refreshToken net exampleApi (Some "old-refresh"%string) 1 in
   FleetApi.cb_refreshToken exampleApi = None /\
   out.2 = Returned (JsValue newTokens) /\
   FleetApi.access_token out.1 = Some "new-access"%string /\
   length (FleetApi.calls out.1) = 2%nat /\
   FleetApi.slept out.1 = 500) /\
  (let net := scripted [Rejected "timeout" None; Resolved JsUndefined] (Resolved JsNull) in
   let out := FleetApi.refreshToken net exampleApi (Some "old-refresh"%string) 1 in
   out.2 = Thrown (ThrownError (TypeError
     "Cannot read properties of null (reading 'refresh_token') - Unable to refresh Token")) /\
   FleetApi.access_token out.1 = Some "old-access"%string /\
   FleetApi.refresh_token out.1 = Some "old-refresh"%string /\
   length (FleetApi.calls out.1) = 3%nat /\
   FleetApi.slept out.1 = 1000).
Proof.
  cbn zeta. split.
  - split; [reflexivity|].
    destruct (refreshToken_result
                (scripted [Resolved JsNull; Resolved (JsValue newTokens)]
                   (Rejected "timeout" None))
                exampleApi (Some "old-refresh"%string) eq_refl) as (Hresolved & _ & _).
    assert (Hbefore : forall i : nat, (i < 1)%nat ->
              attempt_fails (scripted [Resolved JsNull; Resolved (JsValue newTokens)]
                               (Rejected "timeout" None)
                               (length (FleetApi.calls exampleApi) + i)%nat) = true).
    { intros [|i] Hi; [reflexivity|lia]. }
    destruct (Hresolved 1%nat newTokens (le_n_S _ _ (le_S _ _ (le_n 1))) Hbefore eq_refl)
      as (Hout & Haccess & _ & Hcalls & Hslept).
    split; [exact Hout|]. split; [exact Haccess|]. split; [exact Hcalls|exact Hslept].
  - destruct (refreshToken_result
                (scripted [Rejected "timeout" None; Resolved JsUndefined] (Resolved JsNull))
                exampleApi (Some "old-refresh"%string) eq_refl) as (_ & Hnone & _).
    assert (Hall : forall i : nat, (i < 3)%nat ->
              attempt_fails (scripted [Rejected "timeout" None; Resolved JsUndefined]
                               (Resolved JsNull)
                               (length (FleetApi.calls exampleApi) + i)%nat) = true).
    { intros [|[|[|i]]] Hi; try reflexivity; lia. }
    destruct (Hnone Hall) as (Hout & Haccess & Hrefresh & Hcalls & Hslept).
    split; [exact Hout|]. split; [exact Haccess|]. split; [exact Hrefresh|].
    split; [exact Hcalls|exact Hslept].
Defined.


Lemma apiCall_single_witness :
  404 <> 401 /\
  (let net := scripted [RejectedResponse 404 "Not Found" (Some (JsValue commandReply))]
                (Resolved JsNull) in
   exists api',
     FleetApi.getVehicle 1 net exampleApi "5YJ3E1EA7KF000000" =
       Some (api', Thrown (ThrownApiError
                             (ApiError.mk "Not Found (404)" ApiError.NO_VEHICLE))) /\
     length (FleetApi.calls api') = 1%nat) /\
  (let net := scripted [RejectedResponse 404 "Not Found" (Some JsNull)]
                (Resolved JsNull) in
   exists api',
     FleetApi.getVehicle 1 net exampleApi "5YJ3E1EA7KF000000" =
       Some (api', Thrown (ThrownError (TypeError
               "Cannot read properties of null (reading 'hasOwnProperty')"))) /\
     length (FleetApi.calls api') = 1%nat).
Proof.
  cbn zeta.
  assert (Hstatus : 404 <> 401) by lia.
  split; [exact Hstatus|]. split.
  - destruct (apiCall_single 0
                (scripted [RejectedResponse 404 "Not Found" (Some (JsValue commandReply))]
                   (Resolved JsNull))
                exampleApi "/vehicles/5YJ3E1EA7KF000000" GET None) as (_ & _ & Hrejected).
    destruct (Hrejected 404 "Not Found"%string (Some (JsValue commandReply)) eq_refl
                (or_introl Hstatus)) as (Hvalue & _ & _).
    eexists. split.
    + unfold FleetApi.getVehicle.
      exact (Hvalue "Not Found"%string
               (or_intror (ex_intro _ commandReply (conj eq_refl eq_refl)))).
    + reflexivity.
  - destruct (apiCall_single 0
                (scripted [RejectedResponse 404 "Not Found" (Some JsNull)] (Resolved JsNull))
                exampleApi "/vehicles/5YJ3E1EA7KF000000" GET None) as (_ & _ & Hrejected).
    destruct (Hrejected 404 "Not Found"%string (Some JsNull) eq_refl
                (or_introl Hstatus)) as (_ & Hnull & _).
    eexists. split.
    + unfold FleetApi.getVehicle. exact (Hnull eq_refl).
    + reflexivity.
Defined.

Lemma apiCall_refreshed_witness :
  let net := scripted [RejectedResponse 401 "Unauthorized" None;
                       Resolved (JsValue newTokens)]
               (Resolved (JsValue commandReply)) in
  exists api',
    FleetApi.getVehicles 2 net exampleApi = Some (api', Returned (JsValue commandReply)) /\
    length (FleetApi.calls api') = 3%nat /\
    FleetApi.access_token api' = Some "new-access"%string.
Proof.
  cbn zeta.
  destruct (apiCall_refreshed 0
              (scripted [RejectedResponse 401 "Unauthorized" None;
                         Resolved (JsValue newTokens)]
                 (Resolved (JsValue commandReply)))
              exampleApi "/vehicles" GET None "old-refresh" "Unauthorized" None
              newTokens (JsValue commandReply) eq_refl eq_refl eq_refl eq_refl eq_refl)
    as (api' & Hrun & Hcalls & Haccess & _).
  exists api'. split; [exact Hrun|]. split; [rewrite Hcalls; reflexivity|exact Haccess].
Defined.

Lemma apiCall_refresh_fails_witness :
  let net := scripted [RejectedResponse 401 "Unauthorized" None]
               (Rejected "timeout" None) in
  exists api' e,
    FleetApi.getVehicles 1 net exampleApi = Some (api', Thrown e) /\
    length (FleetApi.calls api') = 4%nat /\
    FleetApi.access_token api' = Some "old-access"%string /\
    FleetApi.slept api' = 1000.
Proof.
  cbn zeta.
  assert (Hall : forall i : nat, (1 <= i <= 3)%nat ->
            is_rejected (scripted [RejectedResponse 401 "Unauthorized" None]
                           (Rejected "timeout" None)
                           (length (FleetApi.calls exampleApi) + i)%nat) = true).
  { intros [|[|[|[|i]]]] Hi; try reflexivity; lia. }
  destruct (apiCall_refresh_fails 0
              (scripted [RejectedResponse 401 "Unauthorized" None]
                 (Rejected "timeout" None))
              exampleApi "/vehicles" GET None "old-refresh" "Unauthorized" None
              eq_refl eq_refl eq_refl Hall)
    as (api' & e0 & Hrun & Hcalls & Haccess & _ & Hslept).
  exists api', (append_message e0 " - Unable to refresh Token").
  split; [exact Hrun|]. split; [rewrite Hcalls; reflexivity|].
  split; [exact Haccess|exact Hslept].
Defined.

Lemma stubborn_alternates (i : nat) :
  stubborn (length (FleetApi.calls exampleApi) + 2 * i)%nat =
    RejectedResponse 401 "Unauthorized" None /\
  stubborn (length (FleetApi.calls exampleApi) + 2 * i + 1)%nat =
    Resolved (JsValue newTokens).
Proof.
  unfold stubborn. cbn [exampleApi FleetApi.calls length Nat.add].
  replace (Nat.even (2 * i)) with true
    by (rewrite Nat.even_mul; reflexivity).
  replace (Nat.even (2 * i + 1)) with false
    by (rewrite Nat.even_add, Nat.even_mul; reflexivity).
  split; reflexivity.
Qed.

Lemma apiCall_never_gives_up_witness :
  is_Some (json_refresh_token newTokens) /\
  FleetApi.getVehicles 1000 stubborn exampleApi = None.
Proof.
  assert (Hnew : is_Some (json_refresh_token newTokens)) by (eexists; reflexivity).
  split; [exact Hnew|].
  apply (apiCall_never_gives_up stubborn "/vehicles" GET None "Unauthorized" None
           newTokens Hnew 1000%nat exampleApi eq_refl);
    [eexists; reflexivity|exact stubborn_alternates].
Defined.

Lemma signedCommand_result_witness :
  (let net := scripted [] (Resolved (JsValue commandReply)) in
   exists api',
     FleetApi.signedCommand 1 net exampleApi exampleVin [x01] =
       Some (api', Returned (fromBase64 "reply")) /\
     length (FleetApi.calls api') = 1%nat) /\
  (let net := scripted [] (Resolved JsNull) in
   exists api',
     FleetApi.signedCommand 1 net exampleApi exampleVin [x01] =
       Some (api', Thrown (ThrownError (TypeError
               "Cannot read properties of null (reading 'hasOwnProperty')"))) /\
     length (FleetApi.calls api') = 1%nat).
Proof.
  cbn zeta. split.
  - destruct (signedCommand_result 0 (scripted [] (Resolved (JsValue commandReply)))
                exampleApi exampleVin [x01]) as (Hresponse & _).
    eexists. split.
    + exact (Hresponse commandReply "reply"%string eq_refl eq_refl).
    + reflexivity.
  - destruct (signedCommand_result 0 (scripted [] (Resolved JsNull))
                exampleApi exampleVin [x01]) as (_ & _ & Hnull & _).
    eexists. split.
    + exact (Hnull eq_refl).
    + reflexivity.
Defined.
